(** * Incident lifecycle of the SRE autopilot: a shallow embedding

  The development follows three source files of the repository:

  - [sre-brain/handler.py]: the alarm handler (target resolution, remote
    execution with bounded polling, the remediation advisor with its
    fallback table, the incident writer and the main handler);
  - [dashboard/app.py]: the operator gateway (listing, approve, reject,
    the background remediation task, the statistics endpoint, the
    duration of the report, the chaos trigger and the rate limiter);
  - [chaos-scripts/chaos_master.py]: the main part of the chaos script.

  AWS services are not part of the repository.  Their answers are taken
  from a [backend] record of oracles indexed by the number of external
  calls made so far, so that any sequence of answers, including raised
  exceptions, can be scripted.  The DynamoDB table is a finite map from
  incident ids to items, with the upsert semantics of [update_item] and
  [put_item]; the service is taken to answer every call that reaches
  it, and [put_item] raises, as boto3 does before it calls the service,
  on an item that holds a float or an integer beyond 38 digits.  A Python float is the rational that it
  denotes, and each operation on floats is rounded to the nearest
  binary64 number, ties to even; exponent limits are not modelled.  A
  Python string is its UTF-8 encoding. *)

From Stdlib Require Import ZArith QArith Qround Qabs Qpower List Sorted Ascii String DecimalString Lia Lqa.
From stdpp Require Import base option gmap strings list fin_maps.

Open Scope string_scope.
Open Scope Z_scope.

(** ** Python string helpers

    A Python string is kept as its UTF-8 encoding, one [ascii] for each
    byte: searching, replacing and splitting are the same on the bytes;
    stripping and slicing go by characters. *)

Module Py.

(** [s.startswith(p)] *)
Definition startswith (p s : string) : bool := String.prefix p s.

(** [p in s] for strings *)
Fixpoint contains (p s : string) : bool :=
  match s with
  | EmptyString => String.prefix p EmptyString
  | String _ s' => String.prefix p s || contains p s'
  end.

(** [s.replace(old, new)], for a non-empty [old]: a left-to-right scan
    that skips the characters of each match. *)
Fixpoint replace_from (old new : string) (skip : nat) (s : string) : string :=
  match s with
  | EmptyString => EmptyString
  | String c s' =>
      match skip with
      | S k => replace_from old new k s'
      | O =>
          if String.prefix old s
          then new ++ replace_from old new (Nat.pred (String.length old)) s'
          else String c (replace_from old new O s')
      end
  end.

Definition replace (old new s : string) : string := replace_from old new O s.

(** A string given by its bytes. *)
Definition of_bytes (l : list nat) : string :=
  fold_right (fun n s => String (ascii_of_nat n) s) EmptyString l.

(** The characters that [str.strip()] removes, those of [str.isspace()]:
    U+0009 to U+000D, U+001C to U+0020, U+0085, U+00A0, U+1680, U+2000 to
    U+200A, U+2028, U+2029, U+202F, U+205F and U+3000, each as its UTF-8
    encoding. *)
Definition white_space : list string :=
  List.map of_bytes
    [ [9]; [10]; [11]; [12]; [13]; [28]; [29]; [30]; [31]; [32];
      [194; 133]; [194; 160]; [225; 154; 128];
      [226; 128; 128]; [226; 128; 129]; [226; 128; 130]; [226; 128; 131];
      [226; 128; 132]; [226; 128; 133]; [226; 128; 134]; [226; 128; 135];
      [226; 128; 136]; [226; 128; 137]; [226; 128; 138];
      [226; 128; 168]; [226; 128; 169]; [226; 128; 175];
      [226; 129; 159]; [227; 128; 128] ]%nat.

(** The string without the longest prefix made of the given characters;
    [skip] counts the bytes of a matched character still to drop. *)
Fixpoint drop_leading (chars : list string) (skip : nat) (s : string) : string :=
  match s with
  | EmptyString => EmptyString
  | String _ s' =>
      match skip with
      | S k => drop_leading chars k s'
      | O =>
          match List.find (fun p => String.prefix p s) chars with
          | Some p => drop_leading chars (Nat.pred (String.length p)) s'
          | None => s
          end
      end
  end.

Definition reverse (s : string) : string :=
  string_of_list_ascii (List.rev (list_ascii_of_string s)).

Definition lstrip (s : string) : string := drop_leading white_space O s.

(** A character ends a string when its bytes, reversed, start the
    reversed string. *)
Definition rstrip (s : string) : string :=
  reverse (drop_leading (List.map reverse white_space) O (reverse s)).

Definition strip (s : string) : string := rstrip (lstrip s).

(** [s.split(sep)] for a one-character separator. *)
Fixpoint split (sep : ascii) (s : string) : list string :=
  match s with
  | EmptyString => [EmptyString]
  | String c s' =>
      if Ascii.eqb c sep then EmptyString :: split sep s'
      else match split sep s' with
           | [] => [String c EmptyString]
           | w :: ws => String c w :: ws
           end
  end.

(** A byte that continues a character: [10xxxxxx]. *)
Definition is_continuation (c : ascii) : bool :=
  let n := nat_of_ascii c in (128 <=? n)%nat && (n <? 192)%nat.

(** [s[:n]]: the first [n] characters, each with all its bytes. *)
Fixpoint take (n : nat) (s : string) : string :=
  match s with
  | EmptyString => EmptyString
  | String c s' =>
      if is_continuation c then String c (take n s')
      else match n with
           | O => EmptyString
           | S k => String c (take k s')
           end
  end.

(** Truth value of a string: non-empty. *)
Definition truthy (s : string) : bool :=
  match s with EmptyString => false | _ => true end.

(** Truth value of an optional string ([None] or the empty string are
    false). *)
Definition truthy_opt (o : option string) : bool :=
  match o with Some s => truthy s | None => false end.

(** [str(n)] for an integer. *)
Definition str_of_Z (z : Z) : string :=
  NilZero.string_of_int (Z.to_int z).

End Py.

(** ** JSON values, as produced by [json.loads] *)

(** A Python float: a finite value, an infinity or a NaN. *)
Inductive pyfloat : Type :=
| Finite (q : Q)
| Infinite (negative : bool)
| NaN.

#[warnings="-register-all"]
Inductive json : Type :=
| JNull
| JBool (b : bool)
| JNum (z : Z)
| JFloat (x : pyfloat)
| JStr (s : string)
| JArr (l : list json)
| JObj (l : list (string * json)).

Module Json.

(** [d[k]] / [d.get(k)] on an object; the first binding stands for the
    key (keys of a decoded object are unique). *)
Fixpoint assoc (k : string) (l : list (string * json)) : option json :=
  match l with
  | [] => None
  | (k', v) :: l' => if String.eqb k k' then Some v else assoc k l'
  end.

Definition field (k : string) (v : json) : option json :=
  match v with JObj l => assoc k l | _ => None end.

Definition item (i : nat) (v : json) : option json :=
  match v with JArr l => nth_error l i | _ => None end.

Definition truthy (v : json) : bool :=
  match v with
  | JNull => false
  | JBool b => b
  | JNum z => negb (z =? 0)
  | JFloat (Finite q) => negb (Qeq_bool q 0)
  | JFloat _ => true
  | JStr s => Py.truthy s
  | JArr l => match l with [] => false | _ => true end
  | JObj l => match l with [] => false | _ => true end
  end.


(** What boto3 can turn into an attribute value of DynamoDB: it refuses a
    float, and an integer of more than 38 digits, anywhere in the
    value. *)
Fixpoint storable (v : json) : bool :=
  match v with
  | JNull | JBool _ | JStr _ => true
  | JNum z => Z.abs z <? 10 ^ 38
  | JFloat _ => false
  | JArr l => forallb storable l
  | JObj l =>
      (fix members (l : list (string * json)) : bool :=
         match l with
         | [] => true
         | (_, v) :: l' => storable v && members l'
         end) l
  end.

End Json.

(** ** Stored incidents

    One item of the DynamoDB table.  An attribute that the item does not
    carry is [None]; the two advisor attributes hold whatever JSON value
    the advisor returned. *)

Record timeline_entry : Type := mk_entry {
  event : string;
  timestamp : string;
  detail : string }.

Module Item.

Record t : Type := mk {
  incident_id : string;
  alarm_name : option string;
  alarm_description : option string;
  instance_id : option string;
  diagnostics : option string;
  ai_suggestion : option json;
  ai_reasoning : option json;
  status : option string;
  created_at : option string;
  updated_at : option string;
  remediation_output : option string;
  custom_command : option json;
  timeline : option (list timeline_entry) }.

(** The item that an update creates when the key is not in the table. *)
Definition blank (id : string) : t :=
  mk id None None None None None None None None None None None None.

Definition set_status (v : string) (i : t) : t :=
  mk (incident_id i) (alarm_name i) (alarm_description i) (instance_id i)
     (diagnostics i) (ai_suggestion i) (ai_reasoning i) (Some v)
     (created_at i) (updated_at i) (remediation_output i) (custom_command i)
     (timeline i).

Definition set_updated_at (v : string) (i : t) : t :=
  mk (incident_id i) (alarm_name i) (alarm_description i) (instance_id i)
     (diagnostics i) (ai_suggestion i) (ai_reasoning i) (status i)
     (created_at i) (Some v) (remediation_output i) (custom_command i)
     (timeline i).

Definition set_remediation_output (v : string) (i : t) : t :=
  mk (incident_id i) (alarm_name i) (alarm_description i) (instance_id i)
     (diagnostics i) (ai_suggestion i) (ai_reasoning i) (status i)
     (created_at i) (updated_at i) (Some v) (custom_command i)
     (timeline i).

Definition set_custom_command (v : json) (i : t) : t :=
  mk (incident_id i) (alarm_name i) (alarm_description i) (instance_id i)
     (diagnostics i) (ai_suggestion i) (ai_reasoning i) (status i)
     (created_at i) (updated_at i) (remediation_output i) (Some v)
     (timeline i).

Definition set_timeline (v : list timeline_entry) (i : t) : t :=
  mk (incident_id i) (alarm_name i) (alarm_description i) (instance_id i)
     (diagnostics i) (ai_suggestion i) (ai_reasoning i) (status i)
     (created_at i) (updated_at i) (remediation_output i) (custom_command i)
     (Some v).

End Item.

(** ** Inbound events

    The SNS message of a CloudWatch alarm, once decoded.  A key that the
    message does not carry is [None].  These records hold the messages
    of the shape that CloudWatch sends: a trigger that is an object,
    dimensions that are a list of objects with a [name] and a [value],
    strings where the code reads strings.  What the code does with the
    other payloads, on which it can raise, is given on JSON values by
    [Raw.dimensions] and [Raw.find_account_id]; [encode_alarm] relates
    the two. *)

Record dimension : Type := {
  name : string;
  value : string }.

Record trigger : Type := {
  Dimensions : option (list dimension) }.

Record alarm : Type := {
  AlarmName : option string;
  AlarmDescription : option string;
  NewStateValue : option string;
  Trigger : option trigger;
  Region : option string;
  AWSAccountId : option string;
  AlarmArn : option string }.

(** The Lambda event: the messages of its SNS records. *)
Record lambda_event : Type := {
  Records : list string }.

Record target_result : Type := {
  res_instance : string;
  res_status : string;
  res_incident_id : option string }.

Inductive response_body : Type :=
| BodyText (s : string)
| BodyJsonString (s : string)
| BodyResults (l : list target_result).

Record response : Type := {
  statusCode : Z;
  body : response_body }.

(** ** The services behind the code *)

(** What a client call gives back: an answer, or a raised exception with
    its message. *)
Inductive reply (A : Type) : Type :=
| Answer (a : A)
| Fault (msg : string).
Arguments Answer {A} a.
Arguments Fault {A} msg.

Record asg_instance : Type := {
  InstanceId : string;
  LifecycleState : string }.

Record auto_scaling_group : Type := {
  Instances : list asg_instance }.

Record target_health_description : Type := {
  TargetId : string;
  TargetHealthState : string }.

Record invocation : Type := {
  Status : string;
  StandardOutputContent : option string;
  StandardErrorContent : option string }.

(** The body of an HTTP error: absent ([e.fp] is false), or bytes that
    decode to a text or fail to decode as UTF-8. *)
Inductive error_body : Type :=
| NoBody
| BodyBytes (decoded : option string).

Inductive http_reply : Type :=
| HttpOk (decoded : option string)
| HttpError (code : Z) (body : error_body)
| UrlFault (msg : string).

Record datetime : Type := {
  aware : bool;
  micros : Z }.

(** External calls, as they are recorded in the trace (most recent
    first).  Of the log lines only the one that announces the fallback of
    the advisor is kept. *)
Inductive call : Type :=
| DescribeAutoScalingGroups (name : string)
| DescribeTargetHealth (arn : string)
| ListBuckets
| SendCommand (instance : string) (commands : list json)
| GetCommandInvocation (command_id instance : string)
| Sleep (seconds : Z)
| Urlopen (url : string) (bearer : option string) (prompt : string)
| ReadClock
| Broadcast (incident new_status : string) (output : option string)
| Log (line : string).

Record backend : Type := {
  describe_auto_scaling_groups : nat -> string -> reply (list auto_scaling_group);
  describe_target_health : nat -> string -> reply (list target_health_description);
  list_buckets : nat -> reply (list string);
  send_command : nat -> string -> list json -> reply string;
  get_command_invocation : nat -> string -> string -> reply invocation;
  urlopen : nat -> string -> option string -> string -> http_reply;
  clock : nat -> Z }.

(** Library functions of Python that the code calls and that are not
    re-implemented here. *)
Record library : Type := {
  json_loads : string -> option json;
  (* [json.loads] on an SNS message, read as an alarm notification *)
  loads_alarm : string -> option alarm;
  isoformat : datetime -> string;
  fromisoformat : string -> option datetime;
  (* whether [sum()] over floats is compensated: Python 3.12 and later *)
  compensated_sum : bool }.

(** The process environment. *)
Record environ : Type := {
  GEMINI_API_KEY : option string;
  GEMINI_MODEL : option string;
  AWS_REGION : option string;
  APPROVAL_MODE : bool }.

(** A background task created by [asyncio.create_task]. *)
Record task : Type := {
  task_incident : string;
  task_instance : string;
  task_command : json }.

Record world : Type := mk_world {
  table : gmap string Item.t;
  tick : nat;
  trace : list call;
  tasks : list task }.

(** ** Computations: state passing with Python exceptions *)

(** [SerializationError] stands for what boto3 raises for a value that it
    cannot serialise: a [TypeError] for a float, a signal of [decimal] for
    an integer of more than 38 digits. *)
Inductive exn : Type :=
| HTTPException (code : Z) (msg : string)
| KeyError (key : string)
| IndexError
| AttributeError
| UnicodeDecodeError
| JSONDecodeError
| TypeError
| SerializationError.

Inductive result (A : Type) : Type :=
| Ok (a : A)
| Raise (e : exn).
Arguments Ok {A} a.
Arguments Raise {A} e.

Definition M (A : Type) : Type := world -> result A * world.

Definition ret {A} (a : A) : M A := fun w => (Ok a, w).

Definition raise {A} (e : exn) : M A := fun w => (Raise e, w).

Definition bind {A B} (m : M A) (k : A -> M B) : M B :=
  fun w => match m w with
           | (Ok a, w') => k a w'
           | (Raise e, w') => (Raise e, w')
           end.

Notation "'let*' x ':=' m 'in' k" := (bind m (fun x => k))
  (at level 10, x name, m at level 200, k at level 200).

(** One external call: the oracle is asked at the current tick, the call is
    recorded and the tick advances. *)
Definition ask {A} (c : call) (oracle : nat -> A) : M A :=
  fun w => (Ok (oracle (tick w)),
            mk_world (table w) (S (tick w)) (c :: trace w) (tasks w)).

(** [logger.info(line)]: recorded, no answer, no tick. *)
Definition log (line : string) : M unit :=
  fun w => (Ok tt, mk_world (table w) (tick w) (Log line :: trace w) (tasks w)).

Definition get_item (id : string) : M (option Item.t) :=
  fun w => (Ok (table w !! id), w).

(** The values of an item that are not strings. *)
Definition item_values (i : Item.t) : list json :=
  option_list (Item.ai_suggestion i) ++ option_list (Item.ai_reasoning i)
  ++ option_list (Item.custom_command i).

(** [table.put_item(Item=item)]: boto3 raises, before any request is made,
    when it cannot serialise a value of the item. *)
Definition put_item (i : Item.t) : M unit :=
  fun w =>
    if forallb Json.storable (item_values i)
    then (Ok tt,
          mk_world (<[Item.incident_id i := i]> (table w)) (tick w) (trace w) (tasks w))
    else (Raise SerializationError, w).

(** [try: ... except Exception as e: logger.error(...)] *)
Definition swallow (m : M unit) : M unit :=
  fun w => match m w with
           | (Ok a, w') => (Ok a, w')
           | (Raise _, w') => (Ok tt, w')
           end.

(** [update_item] with a SET expression: the item under the key is
    rewritten, starting from a blank item when the key is new. *)
Definition update_item (id : string) (f : Item.t -> Item.t) : M unit :=
  fun w => (Ok tt,
            mk_world (<[id := f (default (Item.blank id) (table w !! id))]> (table w))
                     (tick w) (trace w) (tasks w)).

Definition scan : M (list Item.t) :=
  fun w => (Ok (snd <$> map_to_list (table w)), w).

Definition create_task (t : task) : M unit :=
  fun w => (Ok tt, mk_world (table w) (tick w) (trace w) (tasks w ++ [t])).

(** ** [sre-brain/handler.py] *)

Section Handler.

Variable B : backend.
Variable L : library.
Variable E : environ.

Definition sleep (seconds : Z) : M unit :=
  ask (Sleep seconds) (fun _ => tt).

(** [datetime.now(timezone.utc)] *)
Definition datetime_now : M datetime :=
  let* t := ask ReadClock (clock B) in
  ret {| aware := true; micros := t |}.

(** [time.time()], in microseconds *)
Definition time_time : M Z := ask ReadClock (clock B).

Definition unhealthy_instance (d : target_health_description) : bool :=
  negb (String.eqb (TargetHealthState d) "healthy")
  && Py.startswith "i-" (TargetId d).

Definition get_unhealthy_targets (tg_suffix region account_id : string)
  : M (list string) :=
  let tg_arn :=
    "arn:aws:elasticloadbalancing:" ++ region ++ ":" ++ account_id ++ ":" ++ tg_suffix in
  let* r := ask (DescribeTargetHealth tg_arn)
           (fun n => describe_target_health B n tg_arn) in
  match r with
  | Answer descriptions =>
      ret (TargetId <$> filter (fun d => unhealthy_instance d = true) descriptions)
  | Fault _ => ret []
  end.

(** [{d["name"]: d["value"] for d in ...}]: a later entry overrides an
    earlier one with the same name. *)
Definition dimensions_dict (ds : list dimension) : gmap string string :=
  foldl (fun m d => <[name d := value d]> m) ∅ ds.

Definition in_service (i : asg_instance) : bool :=
  String.eqb (LifecycleState i) "InService".

(** [alarm_data["AlarmArn"].split(":")[4]], under [except IndexError: pass] *)
Definition account_of_arn (account_id : option string) (arn : string)
  : option string :=
  match nth_error (Py.split ":" arn) 4 with
  | Some a => Some a
  | None => account_id
  end.

(** The dimensions of the alarm's trigger, as a dictionary. *)
Definition alarm_dimensions (alarm_data : alarm) : gmap string string :=
  dimensions_dict (default [] (Trigger alarm_data ≫= Dimensions)).

(** The account id for a target-group lookup: the alarm's own, else the
    fifth field of its ARN. *)
Definition find_account_id (alarm_data : alarm) : option string :=
  let account_id := AWSAccountId alarm_data in
  if negb (Py.truthy_opt account_id) then
    match AlarmArn alarm_data with
    | Some arn => account_of_arn account_id arn
    | None => account_id
    end
  else account_id.

Definition get_target_instances (alarm_data : alarm) : M (list string) :=
  let dimensions := alarm_dimensions alarm_data in
  let asg_name := dimensions !! "AutoScalingGroupName" in
  if Py.truthy_opt asg_name then
    let asg := default "" asg_name in
    let* r := ask (DescribeAutoScalingGroups asg)
                  (fun n => describe_auto_scaling_groups B n asg) in
    match r with
    | Answer [] => ret []
    | Answer (g :: _) =>
        ret (InstanceId <$> filter (fun i => in_service i = true) (Instances g))
    | Fault _ => ret []
    end
  else
    let tg_suffix := dimensions !! "TargetGroup" in
    if Py.truthy_opt tg_suffix then
      let region :=
        default (default "ap-south-1" (AWS_REGION E)) (Region alarm_data) in
      let account_id := find_account_id alarm_data in
      if negb (Py.truthy_opt account_id) then ret []
      else get_unhealthy_targets (default "" tg_suffix) region (default "" account_id)
    else
      let instance_id := dimensions !! "InstanceId" in
      if Py.truthy_opt instance_id then ret [default "" instance_id]
      else ret [].

Definition first_archive_bucket (names : list string) : option string :=
  List.find (Py.startswith "sre-incident-logs-archive") names.

Definition get_log_bucket : M string :=
  let* r := ask ListBuckets (list_buckets B) in
  match r with
  | Answer names => ret (default "sre-incident-logs-archive" (first_archive_bucket names))
  | Fault _ => ret "sre-incident-logs-archive"
  end.

Definition send_ssm_command (instance_id : string) (commands : list json)
  : M (option string) :=
  let* r := ask (SendCommand instance_id commands)
           (fun n => send_command B n instance_id commands) in
  match r with
  | Answer command_id => ret (Some command_id)
  | Fault _ => ret None
  end.

Definition terminal (st : string) : bool :=
  String.eqb st "Success" || String.eqb st "Failed"
  || String.eqb st "Cancelled" || String.eqb st "TimedOut".

(** The polling loop of [wait_for_command], by the number of retries
    left. *)
Fixpoint poll (retries : nat) (command_id instance_id : string)
  : M (option invocation) :=
  match retries with
  | O => ret None
  | S retries' =>
      let* r := ask (GetCommandInvocation command_id instance_id)
               (fun n => get_command_invocation B n command_id instance_id) in
      match r with
      | Answer resp =>
          if terminal (Status resp) then ret (Some resp)
          else let* _ := sleep 2 in poll retries' command_id instance_id
      | Fault _ => let* _ := sleep 2 in poll retries' command_id instance_id
      end
  end.

Definition wait_for_command (command_id : option string) (instance_id : string)
  : M (option invocation) :=
  if negb (Py.truthy_opt command_id) then ret None
  else poll 60 (default "" command_id) instance_id.

Definition suggestion (reasoning command : string) : json :=
  JObj [("reasoning", JStr reasoning); ("command", JStr command)].

Definition fallback_remediation (issue_type : string) : M json :=
  let* _ := log ("Using fallback logic for " ++ issue_type) in
  if Py.contains "Disk" issue_type then
    let* bucket := get_log_bucket in
    let cmd :=
      "export PATH=$PATH:/usr/local/bin; aws s3 cp /var/log/garbage.log s3://"
      ++ bucket ++ "/garbage.log-$(date +%s) && > /var/log/garbage.log" in
    ret (suggestion
           "Disk usage critical. Archiving garbage.log to S3 and clearing file to free space."
           cmd)
  else if Py.contains "Nginx" issue_type then
    ret (suggestion
           "Nginx service is down. Restarting service to restore availability."
           "systemctl restart nginx")
  else if Py.contains "Memory" issue_type then
    ret (suggestion
           "Memory exhaustion detected. Terminating stress-ng process."
           "pkill -f 'stress-ng' || pkill -f 'python3'")
  else
    ret (suggestion
           "Unknown issue type. No specific remediation."
           "echo 'No remediation found'").

(** [result["candidates"][0]["content"]["parts"][0]["text"]] *)
Definition generated_text (result : json) : option json :=
  c ← Json.field "candidates" result;
  c0 ← Json.item 0 c;
  content ← Json.field "content" c0;
  parts ← Json.field "parts" content;
  p0 ← Json.item 0 parts;
  Json.field "text" p0.

Definition clean (text : string) : string :=
  Py.strip (Py.replace "```" "" (Py.replace "```json" "" (Py.strip text))).

Definition system_instruction (bucket_name : string) : string :=
  "You are a Linux Sysadmin. The S3 bucket for log archival is '" ++ bucket_name
  ++ "'. Return ONLY a JSON object with keys 'reasoning' (brief explanation of why this command fixes the issue) and 'command' (the bash command itself). No markdown, no explanations outside JSON.".

Definition newline : string := String (ascii_of_nat 10) EmptyString.

Definition make_prompt (bucket_name context issue_type : string) : string :=
  system_instruction bucket_name ++ newline ++ newline ++ "Context:" ++ newline
  ++ context ++ newline ++ newline ++ "Issue: " ++ issue_type ++ newline ++ newline
  ++ "Provide the specific remediation JSON.".

Definition request_url (api_key : string) : string :=
  let model_name := default "gemini-1.5-pro" (GEMINI_MODEL E) in
  let base_url :=
    "https://generativelanguage.googleapis.com/v1beta/models/" ++ model_name
    ++ ":generateContent" in
  if Py.startswith "AIza" api_key then base_url ++ "?key=" ++ api_key else base_url.

(** The [Authorization] header, when the key goes there. *)
Definition request_bearer (api_key : string) : option string :=
  if Py.startswith "AIza" api_key then None else Some api_key.

Definition ask_genai (context issue_type : string) : M json :=
  let api_key := GEMINI_API_KEY E in
  if negb (Py.truthy_opt api_key) || Py.startswith "dummy" (default "" api_key)
  then fallback_remediation issue_type
  else
    let api_key := default "" api_key in
    let* bucket_name := get_log_bucket in
    let prompt := make_prompt bucket_name context issue_type in
    let url := request_url api_key in
    let bearer := request_bearer api_key in
    let* r := ask (Urlopen url bearer prompt) (fun n => urlopen B n url bearer prompt) in
    match r with
    | HttpOk (Some text) =>
        match json_loads L text ≫= generated_text with
        | Some (JStr generated) =>
            match json_loads L (clean generated) with
            | Some v => ret v
            | None => fallback_remediation issue_type
            end
        | _ => fallback_remediation issue_type
        end
    | HttpOk None => fallback_remediation issue_type
    | HttpError _ (BodyBytes None) => raise UnicodeDecodeError
    | HttpError _ _ => fallback_remediation issue_type
    | UrlFault _ => fallback_remediation issue_type
    end.

(** [x or ""] on a value handed to [write_incident] *)
Definition or_empty (v : json) : json :=
  if Json.truthy v then v else JStr "".

Definition write_incident (incident_id alarm_name alarm_desc instance_id
                             diagnostics : string)
    (ai_suggestion ai_reasoning : json) (status : string) : M unit :=
  swallow
    (let* d := datetime_now in
     let now := isoformat L d in
     let timeline :=
       [ mk_entry "created" now ("Incident created from alarm: " ++ alarm_name);
         mk_entry "diagnostics" now "Diagnostics executed successfully";
         mk_entry "ai_analysis" now "AI generated remediation plan" ] in
     put_item
       (Item.mk incident_id (Some alarm_name) (Some alarm_desc) (Some instance_id)
          (Some diagnostics) (Some (or_empty ai_suggestion))
          (Some (or_empty ai_reasoning)) (Some status) (Some now) (Some now)
          (Some "") None (Some timeline))).

Definition update_incident_status (incident_id status output : string) : M unit :=
  let* d := datetime_now in
  update_item incident_id
    (fun i => Item.set_updated_at (isoformat L d)
                (Item.set_remediation_output output (Item.set_status status i))).

(** The classification of an alarm by its name: the diagnostic commands
    and the issue type, or nothing for an unknown alarm. *)
Definition classify (alarm_name : string) : option (list string * string) :=
  if Py.contains "Disk" alarm_name then
    Some (["df -h /"; "ls -lRh /var/log/ | head -n 20"], "Disk Critical")
  else if Py.contains "Nginx" alarm_name || Py.contains "Service" alarm_name then
    Some (["systemctl status nginx"; "journalctl -u nginx -n 20"], "Nginx Down")
  else if Py.contains "Memory" alarm_name then
    Some (["free -m"; "ps aux --sort=-%mem | head -n 10"], "Memory Exhaustion")
  else None.

(** [a or b] on strings *)
Definition str_or (a b : string) : string := if Py.truthy a then a else b.

(** The end of the auto-execute branch: what is written for the outcome of
    the remediation wait. *)
Definition finalize (incident_id instance_id : string)
    (fix_result : option invocation) : M target_result :=
  match fix_result with
  | Some r =>
      let fix_stdout := default "" (StandardOutputContent r) in
      let fix_stderr := default "" (StandardErrorContent r) in
      let final_status :=
        if String.eqb (Status r) "Success" then "completed" else "failed" in
      let output := str_or fix_stdout (str_or fix_stderr "No output") in
      let* _ := update_incident_status incident_id final_status output in
      ret {| res_instance := instance_id; res_status := final_status;
             res_incident_id := None |}
  | None =>
      let* _ := update_incident_status incident_id "timeout" "Command timed out" in
      ret {| res_instance := instance_id; res_status := "timeout";
             res_incident_id := None |}
  end.

(** One turn of the loop over the targets; [None] stands for [continue]. *)
Definition handle_target (alarm_name alarm_desc instance_id : string)
  : M (option target_result) :=
  let* t := time_time in
  let incident_id :=
    Py.str_of_Z (Z.quot t 1000000) ++ "_" ++ alarm_name ++ "_" ++ instance_id in
  match classify alarm_name with
  | None => ret None
  | Some (diag_commands, issue_type) =>
      let* cmd_id := send_ssm_command instance_id (JStr <$> diag_commands) in
      if negb (Py.truthy_opt cmd_id) then ret None
      else
        let* _ := sleep 1 in
        let* cmd_result := wait_for_command cmd_id instance_id in
        let diagnostics :=
          match cmd_result with
          | Some r => default "No Output" (StandardOutputContent r)
          | None => "Diagnostic Timeout"
          end in
        let* ai_result := ask_genai diagnostics issue_type in
        match ai_result with
        | JObj _ =>
            let remediation_cmd :=
              default (JStr "echo 'Error'") (Json.field "command" ai_result) in
            let ai_reasoning :=
              default (JStr "No reasoning provided.") (Json.field "reasoning" ai_result) in
            if APPROVAL_MODE E then
              let* _ := write_incident incident_id alarm_name alarm_desc instance_id
                diagnostics remediation_cmd ai_reasoning "pending_approval" in
              ret (Some {| res_instance := instance_id;
                           res_status := "pending_approval";
                           res_incident_id := Some incident_id |})
            else
              let* _ := write_incident incident_id alarm_name alarm_desc instance_id
                diagnostics remediation_cmd ai_reasoning "executing" in
              let* fix_id := send_ssm_command instance_id [remediation_cmd] in
              let* fix_result := wait_for_command fix_id instance_id in
              let* res := finalize incident_id instance_id fix_result in
              ret (Some res)
        | _ => raise AttributeError
        end
  end.

Fixpoint handle_targets (alarm_name alarm_desc : string)
    (target_instances : list string) (results : list target_result)
  : M (list target_result) :=
  match target_instances with
  | [] => ret results
  | instance_id :: rest =>
      let* r := handle_target alarm_name alarm_desc instance_id in
      handle_targets alarm_name alarm_desc rest
        (match r with Some x => results ++ [x] | None => results end)
  end.

Definition lambda_handler (event : lambda_event) : M response :=
  match Records event with
  | [] => raise IndexError
  | sns_message :: _ =>
      match loads_alarm L sns_message with
      | None => raise JSONDecodeError
      | Some alarm_data =>
          let alarm_name := default "Unknown" (AlarmName alarm_data) in
          let alarm_desc := default "" (AlarmDescription alarm_data) in
          let new_state := default "ALARM" (NewStateValue alarm_data) in
          if negb (String.eqb new_state "ALARM") then
            ret {| statusCode := 200; body := BodyText "Ignored: not in ALARM state" |}
          else
            let* target_instances := get_target_instances alarm_data in
            match target_instances with
            | [] => ret {| statusCode := 400; body := BodyJsonString "No targets found" |}
            | _ =>
                let* results := handle_targets alarm_name alarm_desc target_instances [] in
                ret {| statusCode := 200; body := BodyResults results |}
            end
      end
  end.

End Handler.

(** ** [dashboard/app.py] *)

Record api_response : Type := {
  resp_status : string;
  resp_message : option string }.

Record stats : Type := {
  total : nat;
  status_counts : list (string * nat);
  avg_mttr_seconds : Q;
  success_rate : Q;
  total_resolved : nat }.

(** The nearest integer, a tie going to the even neighbour. *)
Definition round_half_even (q : Q) : Z :=
  let f := Qfloor q in
  match ((q - inject_Z f) ?= (1 # 2))%Q with
  | Lt => f
  | Gt => f + 1
  | Eq => if Z.even f then f else f + 1
  end.

(** *** Floats

    A finite Python float is kept as the rational that it is.  Each
    operation gives the double nearest to the exact result, a tie going to
    the even significand.  The quantities of the statistics (ratios of
    counts, times between a microsecond and ten thousand years, their
    sums and means) stay within the range of normal doubles, where that
    rounding keeps 53 significant bits; the limits of the exponent are
    not modelled. *)

Module Float.

(** [floor (log2 |q|)] for a non-zero [q]. *)
Definition ilog2 (q : Q) : Z :=
  let k := Z.log2 (Z.abs (Qnum q)) - Z.log2 (Zpos (Qden q)) in
  if Qle_bool (2 ^ k) (Qabs q) then k else k - 1.

(** The double nearest to [q]. *)
Definition round (q : Q) : Q :=
  if Qeq_bool q 0 then 0%Q
  else
    let e := ilog2 q - 52 in
    Qred (inject_Z (round_half_even (q / 2 ^ e)) * 2 ^ e).

Definition add (a b : Q) : Q := round (a + b).
Definition sub (a b : Q) : Q := round (a - b).
Definition mul (a b : Q) : Q := round (a * b).

(** [a / b], also for two integers, whose quotient Python rounds once. *)
Definition div (a b : Q) : Q := round (a / b).

(** The largest relative error of a rounding: [2^-53]. *)
Definition unit_roundoff : Q := 1 # 9007199254740992.

(** [float(n)] for an integer. *)
Definition of_int (n : Z) : Q := round (inject_Z n).

(** The loop of [sum()] over floats since Python 3.12 (Neumaier's
    compensated summation): [f] is the running sum, [c] the
    compensation, which is added at the end unless it is zero. *)
Fixpoint compensated (f c : Q) (l : list Q) : Q :=
  match l with
  | [] => if Qeq_bool c 0 then f else add f c
  | x :: l' =>
      let t := add f x in
      let c' :=
        if Qle_bool (Qabs x) (Qabs f)
        then add c (add (sub f t) x)
        else add c (add (sub x t) f) in
      compensated t c' l'
  end.

(** [sum(l)] for a list of floats: the integer 0 for the empty list;
    otherwise the first float, to which the others are added from left to
    right, with compensation or, before Python 3.12, without. *)
Definition sum (with_compensation : bool) (l : list Q) : Q :=
  match l with
  | [] => 0%Q
  | x :: l' => if with_compensation then compensated x 0 l' else fold_left add l' x
  end.

End Float.

(** [round(x, 1)] for a float, or for the integer 0: the double nearest to
    the decimal with one digit after the point that is nearest to [x], a
    tie between two decimals going to the even digit. *)
Definition round1 (x : Q) : Q :=
  Float.round (inject_Z (round_half_even (x * 10)) / 10).

Section Dashboard.

Variable B : backend.
Variable L : library.

Definition broadcast (incident_id new_status : string) (output : option string)
  : M unit :=
  ask (Broadcast incident_id new_status output) (fun _ => tt).

(** *** Statistics *)

(** [status_counts[s] = status_counts.get(s, 0) + 1], on a dictionary kept
    in insertion order. *)
Fixpoint incr (s : string) (counts : list (string * nat)) : list (string * nat) :=
  match counts with
  | [] => [(s, 1%nat)]
  | (k, n) :: rest =>
      if String.eqb k s then (k, S n) :: rest else (k, n) :: incr s rest
  end.

Definition count_statuses (items : list Item.t) : list (string * nat) :=
  foldl (fun counts i => incr (default "unknown" (Item.status i)) counts) [] items.

Definition status_in (names : list string) (i : Item.t) : bool :=
  match Item.status i with
  | Some s => existsb (String.eqb s) names
  | None => false
  end.

(** [updated - created]: microseconds, or a [TypeError] when only one of
    the two carries a time zone. *)
Definition datetime_sub (u c : datetime) : option Z :=
  if Bool.eqb (aware u) (aware c) then Some (micros u - micros c) else None.

Definition parse_timestamp (s : string) : option datetime :=
  fromisoformat L (Py.replace "Z" "+00:00" s).

Definition total_seconds (us : Z) : Q := inject_Z us / 1000000.

(** The resolution time that one item adds to [mttr_values], if any, in
    exact arithmetic. *)
Definition mttr_value (i : Item.t) : option Q :=
  if status_in ["completed"; "failed"] i
     && Py.truthy_opt (Item.created_at i)
     && Py.truthy_opt (Item.updated_at i)
  then
    created ← parse_timestamp (default "" (Item.created_at i));
    updated ← parse_timestamp (default "" (Item.updated_at i));
    us ← datetime_sub updated created;
    let diff := total_seconds us in
    if Qlt_le_dec 0 diff then Some diff else None
  else None.

Definition mttr_values (items : list Item.t) : list Q :=
  omap mttr_value items.

Definition Qsum (l : list Q) : Q := fold_right Qplus 0%Q l.


Definition count_if (p : Item.t -> bool) (items : list Item.t) : nat :=
  length (List.filter p items).

Definition resolved_count (items : list Item.t) : nat :=
  count_if (status_in ["completed"; "failed"; "rejected"]) items.

Definition completed_count (items : list Item.t) : nat :=
  count_if (status_in ["completed"]) items.


(** [(updated - created).total_seconds()]: the float nearest to the
    number of seconds. *)
Definition float_seconds (us : Z) : Q := Float.round (total_seconds us).

(** The resolution time that one item adds to [mttr_values], if any, as
    the float that it is. *)
Definition mttr_float (i : Item.t) : option Q :=
  if status_in ["completed"; "failed"] i
     && Py.truthy_opt (Item.created_at i)
     && Py.truthy_opt (Item.updated_at i)
  then
    created ← parse_timestamp (default "" (Item.created_at i));
    updated ← parse_timestamp (default "" (Item.updated_at i));
    us ← datetime_sub updated created;
    let diff := float_seconds us in
    if Qlt_le_dec 0 diff then Some diff else None
  else None.

Definition mttr_floats (items : list Item.t) : list Q :=
  omap mttr_float items.

(** [sum(mttr_values) / len(mttr_values) if mttr_values else 0], in
    floats. *)
Definition float_avg_mttr (items : list Item.t) : Q :=
  match mttr_floats items with
  | [] => 0%Q
  | vs => Float.div (Float.sum (compensated_sum L) vs)
                    (Float.of_int (Z.of_nat (length vs)))
  end.

(** [(completed / resolved * 100) if resolved > 0 else 0], in floats. *)
Definition float_success_rate (items : list Item.t) : Q :=
  if (0 <? resolved_count items)%nat
  then Float.mul (Float.div (inject_Z (Z.of_nat (completed_count items)))
                            (inject_Z (Z.of_nat (resolved_count items))))
                 100
  else 0%Q.

(** The statistics of a list of items.  The per-day counts that the
    endpoint also returns are left out. *)
Definition incident_stats (items : list Item.t) : stats :=
  {| total := length items;
     status_counts := count_statuses items;
     avg_mttr_seconds := round1 (float_avg_mttr items);
     success_rate := round1 (float_success_rate items);
     total_resolved := resolved_count items |}.

Definition get_incident_stats : M stats :=
  let* items := scan in
  ret (incident_stats items).

(** *** Approval workflow *)

Definition _append_timeline (incident_id event detail : string) : M unit :=
  let* d := datetime_now B in
  let entry := mk_entry event (isoformat L d) detail in
  update_item incident_id
    (fun i => Item.set_timeline (default [] (Item.timeline i) ++ [entry]) i).

Definition approve_update (now : string) (used_custom : bool) (command : json)
    (i : Item.t) : Item.t :=
  let i := Item.set_updated_at now (Item.set_status "executing" i) in
  if used_custom then Item.set_custom_command command i else i.

(** [body.custom_command if body.custom_command else incident["ai_suggestion"]];
    [None] when the suggestion is needed and the item has none. *)
Definition chosen_command (custom_command : option string) (incident : Item.t)
  : option json :=
  if Py.truthy_opt custom_command then JStr <$> custom_command
  else Item.ai_suggestion incident.

Definition approved_detail (used_custom : bool) : string :=
  if used_custom then "Custom command used" else "AI-suggested command approved".

Definition approve_incident (incident_id : string) (custom_command : option string)
  : M api_response :=
  let* resp := get_item incident_id in
  match resp with
  | None => raise (HTTPException 404 "Incident not found")
  | Some incident =>
      match Item.status incident with
      | None => raise (KeyError "status")
      | Some st =>
          if negb (String.eqb st "pending_approval") then
            raise (HTTPException 400 ("Cannot approve: status is '" ++ st ++ "'"))
          else
            let* d := datetime_now B in
            let now := isoformat L d in
            let used_custom := Py.truthy_opt custom_command in
            match chosen_command custom_command incident with
            | None => raise (KeyError "ai_suggestion")
            | Some command =>
                let* _ := update_item incident_id
                            (approve_update now used_custom command) in
                let detail := approved_detail used_custom in
                let* _ := _append_timeline incident_id "approved" detail in
                match Item.instance_id incident with
                | None => raise (KeyError "instance_id")
                | Some instance_id =>
                    let* _ := create_task
                                {| task_incident := incident_id;
                                   task_instance := instance_id;
                                   task_command := command |} in
                    ret {| resp_status := "executing";
                           resp_message :=
                             Some "Command dispatched. Watch for updates." |}
                end
            end
      end
  end.

(** The terminal status and the output recorded for a finished
    invocation. *)
Definition final_status_of (inv : invocation) : string :=
  if String.eqb (Status inv) "Success" then "completed" else "failed".

Definition output_of (inv : invocation) : string :=
  str_or (default "" (StandardOutputContent inv))
         (default "No output" (StandardErrorContent inv)).

(** The write of a terminal status with its output. *)
Definition write_outcome (incident_id final_status output : string) : M unit :=
  let* d := datetime_now B in
  update_item incident_id
    (fun i => Item.set_updated_at (isoformat L d)
                (Item.set_remediation_output output
                   (Item.set_status final_status i))).

(** The polling loop of [_execute_remediation]: [true] when a terminal
    status was seen and written (the [return] inside the loop). *)
Fixpoint remediation_poll (attempts : nat)
    (incident_id instance_id command_id : string) : M bool :=
  match attempts with
  | O => ret false
  | S attempts' =>
      let* _ := sleep 2 in
      let* r := ask (GetCommandInvocation command_id instance_id)
                    (fun n => get_command_invocation B n command_id instance_id) in
      match r with
      | Answer inv =>
          if terminal (Status inv) then
            let final_status := final_status_of inv in
            let output := output_of inv in
            let* _ := write_outcome incident_id final_status output in
            let* _ := _append_timeline incident_id final_status (Py.take 200 output) in
            let* _ := broadcast incident_id final_status (Some (Py.take 500 output)) in
            ret true
          else remediation_poll attempts' incident_id instance_id command_id
      | Fault _ => remediation_poll attempts' incident_id instance_id command_id
      end
  end.

Definition _execute_remediation (incident_id instance_id : string) (command : json)
  : M unit :=
  let* r := ask (SendCommand instance_id [command])
                (fun n => send_command B n instance_id [command]) in
  match r with
  | Answer command_id =>
      let* done := remediation_poll 60 incident_id instance_id command_id in
      if done then ret tt
      else
        let* d := datetime_now B in
        let* _ := update_item incident_id
                    (fun i => Item.set_updated_at (isoformat L d)
                                (Item.set_status "timeout" i)) in
        let* _ := _append_timeline incident_id "timeout"
                    "SSM command timed out after 2 minutes" in
        broadcast incident_id "timeout" None
  | Fault e =>
      let* _ := write_outcome incident_id "failed" e in
      let* _ := _append_timeline incident_id "failed" (Py.take 200 e) in
      broadcast incident_id "failed" (Some e)
  end.

Definition reject_incident (incident_id : string) : M api_response :=
  let* d := datetime_now B in
  let* _ := update_item incident_id
              (fun i => Item.set_updated_at (isoformat L d)
                          (Item.set_status "rejected" i)) in
  let* _ := _append_timeline incident_id "rejected" "Operator rejected remediation" in
  let* _ := broadcast incident_id "rejected" None in
  ret {| resp_status := "rejected"; resp_message := None |}.

End Dashboard.

(** ** Scripted services and inputs for the examples *)

Definition empty_world : world := mk_world ∅ 0 [] [].

Definition plain_environ : environ :=
  {| GEMINI_API_KEY := None; GEMINI_MODEL := None; AWS_REGION := None;
     APPROVAL_MODE := true |}.

(** A fleet with one group (one member in service, one pending) and one
    target group (one unhealthy instance, one healthy instance, one
    unhealthy address); remote commands cannot be sent. *)
Definition fleet : backend :=
  {| describe_auto_scaling_groups := fun _ _ =>
       Answer [ {| Instances :=
                     [ {| InstanceId := "i-2"; LifecycleState := "InService" |};
                       {| InstanceId := "i-3"; LifecycleState := "Pending" |} ] |} ];
     describe_target_health := fun _ _ =>
       Answer [ {| TargetId := "i-9"; TargetHealthState := "unhealthy" |};
                {| TargetId := "i-8"; TargetHealthState := "healthy" |};
                {| TargetId := "10.0.0.1"; TargetHealthState := "draining" |} ];
     list_buckets := fun _ => Fault "AccessDenied";
     send_command := fun _ _ _ => Fault "InvalidInstanceId";
     get_command_invocation := fun _ _ _ => Fault "InvocationDoesNotExist";
     urlopen := fun _ _ _ _ => UrlFault "unreachable";
     clock := fun n => 1705312800000000 + Z.of_nat n |}.

Definition alarm_with (name : string) (dims : list dimension) : alarm :=
  {| AlarmName := Some name; AlarmDescription := Some "";
     NewStateValue := Some "ALARM";
     Trigger := Some {| Dimensions := Some dims |};
     Region := Some "ap-south-1"; AWSAccountId := Some "123456789012";
     AlarmArn := None |}.

(** An alarm that names both a host and a group. *)
Definition host_and_group_alarm : alarm :=
  alarm_with "Disk-Critical"
    [ {| name := "InstanceId"; value := "i-1" |};
      {| name := "AutoScalingGroupName"; value := "sre-demo-asg" |} ].

Definition host_alarm : alarm :=
  alarm_with "Disk-Critical" [ {| name := "InstanceId"; value := "i-1" |} ].

Definition group_alarm : alarm :=
  alarm_with "Disk-Critical-ASG"
    [ {| name := "AutoScalingGroupName"; value := "sre-demo-asg" |} ].

Definition target_group_alarm : alarm :=
  alarm_with "Nginx-Unhealthy"
    [ {| name := "TargetGroup"; value := "targetgroup/sre-demo-tg/42f85d5ede20f6d3" |} ].

(** The ARN that [get_unhealthy_targets] builds. *)
Definition target_group_arn (region account_id tg_suffix : string) : string :=
  "arn:aws:elasticloadbalancing:" ++ region ++ ":" ++ account_id ++ ":" ++ tg_suffix.

(** Timestamps of the hour that starts at 2024-01-15T10:00:00Z, one
    second apart: the scripted clock reads them in turn. *)
Definition hour_start : Z := 1705312800000000.

Definition two_digits (n : nat) : string :=
  (if (n <? 10)%nat then "0" else "") ++ Py.str_of_Z (Z.of_nat n).

Definition render_second (k : nat) : string :=
  "2024-01-15T10:" ++ two_digits (k / 60) ++ ":" ++ two_digits (k mod 60) ++ "+00:00".

Definition second_of (d : datetime) : nat :=
  Z.to_nat ((micros d - hour_start) / 1000000).

Definition parse_second (s : string) : option datetime :=
  (fun k => {| aware := true; micros := hour_start + Z.of_nat k * 1000000 |})
    <$> List.find (fun k => String.eqb (render_second k) s) (seq 0 3600).

Definition dq : string := String (ascii_of_nat 34) EmptyString.

Definition quoted (s : string) : string := dq ++ s ++ dq.

(** The text of an answer of the suggestion service whose generated text
    is [text] (a text without quotes or escapes). *)
Definition envelope (text : string) : string :=
  "{" ++ quoted "candidates" ++ ":[{" ++ quoted "content" ++ ":{" ++ quoted "parts"
  ++ ":[{" ++ quoted "text" ++ ":" ++ quoted text ++ "}]}}]}".

Definition envelope_json (text : string) : json :=
  JObj [("candidates",
         JArr [JObj [("content",
                      JObj [("parts", JArr [JObj [("text", JStr text)]])])]])].

(** [json.loads] on the few texts of the examples. *)
Definition scripted_loads (s : string) : option json :=
  if String.eqb s "{}" then Some (JObj [])
  else if String.eqb s "[]" then Some (JArr [])
  else if String.eqb s (envelope "{}") then Some (envelope_json "{}")
  else if String.eqb s (envelope "[]") then Some (envelope_json "[]")
  else if String.eqb s (envelope "restart it") then Some (envelope_json "restart it")
  else None.

Definition scripted_library (alarms : list (string * alarm)) : library :=
  {| json_loads := scripted_loads;
     loads_alarm := fun s => snd <$> List.find (fun p => String.eqb (fst p) s) alarms;
     isoformat := fun d => render_second (second_of d);
     fromisoformat := parse_second;
     compensated_sum := true |}.

Definition calendar : library := scripted_library [].

Definition ticking (n : nat) : Z := hour_start + Z.of_nat n * 1000000.

(** An incident waiting for approval, as the tests of the dashboard have
    it. *)
Definition pending_item : Item.t :=
  Item.mk "inc-1" (Some "Disk-Critical-ASG") (Some "") (Some "i-123")
    (Some "92% used") (Some (JStr "echo fixed")) (Some (JStr "Disk is full."))
    (Some "pending_approval") (Some (render_second 0)) (Some (render_second 0))
    (Some "") None
    (Some [ mk_entry "created" (render_second 0)
              "Incident created from alarm: Disk-Critical-ASG";
            mk_entry "diagnostics" (render_second 0) "Diagnostics executed successfully";
            mk_entry "ai_analysis" (render_second 0) "AI generated remediation plan" ]).

(** The dashboard's table with that incident, five seconds later. *)
Definition desk : world := mk_world {[ "inc-1" := pending_item ]} 5 [] [].

Definition running : invocation :=
  {| Status := "InProgress"; StandardOutputContent := Some "";
     StandardErrorContent := Some "" |}.

Definition succeeded : invocation :=
  {| Status := "Success"; StandardOutputContent := Some "fixed";
     StandardErrorContent := Some "" |}.

(** Commands are accepted; their invocation stays in progress until the
    tick [done_at] and reports success from then on. *)
Definition executor (done_at : nat) : backend :=
  {| describe_auto_scaling_groups := fun _ _ => Fault "unreachable";
     describe_target_health := fun _ _ => Fault "unreachable";
     list_buckets := fun _ => Fault "AccessDenied";
     send_command := fun _ _ _ => Answer "cmd-1";
     get_command_invocation := fun n _ _ =>
       Answer (if (done_at <=? n)%nat then succeeded else running);
     urlopen := fun _ _ _ _ => UrlFault "unreachable";
     clock := ticking |}.

(** An executor on which no command ever finishes. *)
Definition stuck_executor : backend :=
  {| describe_auto_scaling_groups := fun _ _ => Fault "unreachable";
     describe_target_health := fun _ _ => Fault "unreachable";
     list_buckets := fun _ => Fault "AccessDenied";
     send_command := fun _ _ _ => Answer "cmd-1";
     get_command_invocation := fun _ _ _ => Answer running;
     urlopen := fun _ _ _ _ => UrlFault "unreachable";
     clock := ticking |}.

Definition executing_response : api_response :=
  {| resp_status := "executing";
     resp_message := Some "Command dispatched. Watch for updates." |}.

Definition rejected_response : api_response :=
  {| resp_status := "rejected"; resp_message := None |}.

(** [datetime.now(timezone.utc).isoformat()] at a given tick. *)
Definition stamp (B : backend) (L : library) (n : nat) : string :=
  isoformat L {| aware := true; micros := clock B n |}.

(** The attributes of the item stored under a key. *)
Definition attribute {A} (f : Item.t -> option A) (id : string) (w : world)
  : option A :=
  table w !! id ≫= f.

(** The number of remote commands sent, and of invocation polls, in a
    trace. *)
Definition is_send (c : call) : bool :=
  match c with SendCommand _ _ => true | _ => false end.

Definition is_poll (c : call) : bool :=
  match c with GetCommandInvocation _ _ => true | _ => false end.

(** The calls that the advisor leaves in a trace: every run of it asks
    the suggestion service or announces its fallback. *)
Definition is_advisor_call (c : call) : bool :=
  match c with Urlopen _ _ _ | Log _ => true | _ => false end.

Definition count_calls (p : call -> bool) (tr : list call) : nat :=
  length (List.filter p tr).

(** What [approve_incident] leaves under the key of a pending incident,
    when it is called at tick [n]. *)
Definition approved_item (B : backend) (L : library) (cc : option string)
    (command : json) (n : nat) (it : Item.t) : Item.t :=
  Item.set_timeline
    (default [] (Item.timeline it)
     ++ [mk_entry "approved" (stamp B L (S n)) (approved_detail (Py.truthy_opt cc))])
    (approve_update (stamp B L n) (Py.truthy_opt cc) command it).

(** An invocation that has not reached a terminal status, or a poll that
    raised. *)
Definition still_running (r : reply invocation) : bool :=
  match r with
  | Answer inv => negb (terminal (Status inv))
  | Fault _ => true
  end.

(** What the background task leaves under the key when it writes a
    terminal status with its output at tick [n]. *)
Definition outcome_item (B : backend) (L : library) (final_status output : string)
    (n : nat) (it : Item.t) : Item.t :=
  Item.set_timeline
    (default [] (Item.timeline it)
     ++ [mk_entry final_status (stamp B L (S n)) (Py.take 200 output)])
    (Item.set_updated_at (stamp B L n)
       (Item.set_remediation_output output (Item.set_status final_status it))).

(** What it leaves when the polls run out at tick [n]. *)
Definition timeout_item (B : backend) (L : library) (n : nat) (it : Item.t) : Item.t :=
  Item.set_timeline
    (default [] (Item.timeline it)
     ++ [mk_entry "timeout" (stamp B L (S n)) "SSM command timed out after 2 minutes"])
    (Item.set_updated_at (stamp B L n) (Item.set_status "timeout" it)).

(** The item under a key, blank when the key is new. *)
Definition stored (id : string) (w : world) : Item.t :=
  default (Item.blank id) (table w !! id).

(** The [j]-th poll of the dashboard's loop, when the loop is entered at
    tick [n]: the executor is asked at tick [n + 2 j + 1], after a
    sleep. *)
Definition poll_reply (B : backend) (command_id instance_id : string) (n j : nat)
  : reply invocation :=
  get_command_invocation B (S (n + 2 * j)) command_id instance_id.

(** The command that an approval hands to the executor: the operator's
    override when there is a non-empty one, the stored suggestion
    otherwise. *)
Definition dispatched_command (cc : option string) (suggested : json) : json :=
  if Py.truthy_opt cc then JStr (default "" cc) else suggested.

Definition remediation_task (id host : string) (command : json) : task :=
  {| task_incident := id; task_instance := host; task_command := command |}.

(** The [j]-th poll of [wait_for_command], when it is entered at tick
    [n]: the executor is asked at tick [n + 2 j], a two-second sleep
    following each poll that is not terminal. *)
Definition probe (B : backend) (command_id instance_id : string) (n j : nat)
  : reply invocation :=
  get_command_invocation B (n + 2 * j) command_id instance_id.

(** The trace of [k] polls that each found the command running (most
    recent first). *)
Fixpoint waited (command_id instance_id : string) (k : nat) : list call :=
  match k with
  | O => []
  | S k' =>
      waited command_id instance_id k'
      ++ [Sleep 2; GetCommandInvocation command_id instance_id]
  end.

(** The seconds slept in a trace. *)
Definition slept (tr : list call) : Z :=
  fold_right (fun c acc => match c with Sleep s => s + acc | _ => acc end) 0 tr.

(** The dispatch handle that [send_ssm_command] makes of a reply. *)
Definition handle_of (r : reply string) : option string :=
  match r with
  | Answer command_id => Some command_id
  | Fault _ => None
  end.

Definition timeout_result (instance_id : string) : target_result :=
  {| res_instance := instance_id; res_status := "timeout"; res_incident_id := None |}.

(** The SNS message of a memory alarm on the host [i-1], and what
    [json.loads] makes of it. *)
Definition memory_message : string :=
  "{" ++ quoted "AlarmName" ++ ":" ++ quoted "Memory-High" ++ ","
  ++ quoted "NewStateValue" ++ ":" ++ quoted "ALARM" ++ ","
  ++ quoted "Trigger" ++ ":{" ++ quoted "Dimensions" ++ ":[{"
  ++ quoted "name" ++ ":" ++ quoted "InstanceId" ++ ","
  ++ quoted "value" ++ ":" ++ quoted "i-1" ++ "}]}}".

Definition memory_alarm : alarm :=
  {| AlarmName := Some "Memory-High"; AlarmDescription := None;
     NewStateValue := Some "ALARM";
     Trigger := Some {| Dimensions := Some [ {| name := "InstanceId"; value := "i-1" |} ] |};
     Region := None; AWSAccountId := None; AlarmArn := None |}.

Definition pager : library := scripted_library [(memory_message, memory_alarm)].

Definition memory_event : lambda_event := {| Records := [memory_message] |}.

Definition auto_environ : environ :=
  {| GEMINI_API_KEY := None; GEMINI_MODEL := None; AWS_REGION := None;
     APPROVAL_MODE := false |}.

(** The SNS message of [group_alarm]. *)
Definition group_message : string :=
  "{" ++ quoted "AlarmName" ++ ":" ++ quoted "Disk-Critical-ASG" ++ ","
  ++ quoted "AlarmDescription" ++ ":" ++ quoted "" ++ ","
  ++ quoted "NewStateValue" ++ ":" ++ quoted "ALARM" ++ ","
  ++ quoted "Region" ++ ":" ++ quoted "ap-south-1" ++ ","
  ++ quoted "AWSAccountId" ++ ":" ++ quoted "123456789012" ++ ","
  ++ quoted "Trigger" ++ ":{" ++ quoted "Dimensions" ++ ":[{"
  ++ quoted "name" ++ ":" ++ quoted "AutoScalingGroupName" ++ ","
  ++ quoted "value" ++ ":" ++ quoted "sre-demo-asg" ++ "}]}}".

Definition group_event : lambda_event := {| Records := [group_message] |}.

Definition fleet_pager : library := scripted_library [(group_message, group_alarm)].


(** The bucket name that [get_log_bucket] makes of a bucket listing. *)
Definition bucket_of (r : reply (list string)) : string :=
  match r with
  | Answer names => default "sre-incident-logs-archive" (first_archive_bucket names)
  | Fault _ => "sre-incident-logs-archive"
  end.



(** The JSON value carried by an answer of the service, when it carries
    one: the answer decodes, has a generated text, and that text, once
    cleaned, decodes too. *)
Definition decoded (L : library) (r : http_reply) : option json :=
  match r with
  | HttpOk (Some text) =>
      match json_loads L text ≫= generated_text with
      | Some (JStr generated) => json_loads L (clean generated)
      | _ => None
      end
  | _ => None
  end.



Definition memory_fallback : json :=
  suggestion "Memory exhaustion detected. Terminating stress-ng process."
             "pkill -f 'stress-ng' || pkill -f 'python3'".


(** A suggestion service that answers every request with the generated
    text [text]; nothing else works. *)
Definition chatty (text : string) : backend :=
  {| describe_auto_scaling_groups := fun _ _ => Fault "unreachable";
     describe_target_health := fun _ _ => Fault "unreachable";
     list_buckets := fun _ => Fault "AccessDenied";
     send_command := fun _ _ _ => Fault "InvalidInstanceId";
     get_command_invocation := fun _ _ _ => Fault "InvocationDoesNotExist";
     urlopen := fun _ _ _ _ => HttpOk (Some (envelope text));
     clock := ticking |}.

Definition keyed_environ : environ :=
  {| GEMINI_API_KEY := Some "AIza-test123"; GEMINI_MODEL := None; AWS_REGION := None;
     APPROVAL_MODE := true |}.

(** The same service next to an executor on which every command succeeds
    at once. *)
Definition chatty_executor (text : string) : backend :=
  {| describe_auto_scaling_groups := fun _ _ => Fault "unreachable";
     describe_target_health := fun _ _ => Fault "unreachable";
     list_buckets := fun _ => Fault "AccessDenied";
     send_command := fun _ _ _ => Answer "cmd-1";
     get_command_invocation := fun _ _ _ => Answer succeeded;
     urlopen := fun _ _ _ _ => HttpOk (Some (envelope text));
     clock := ticking |}.

(** The sum of the counts of a dictionary of counters. *)
Definition sum_counts (counts : list (string * nat)) : nat :=
  fold_right (fun kv acc => (snd kv + acc)%nat) 0%nat counts.

(** The resolution time of an item, in seconds: defined when both
    timestamps are present, non-empty and parseable, and both or neither
    carry a time zone. *)
Definition duration (L : library) (i : Item.t) : option Q :=
  if Py.truthy_opt (Item.created_at i) && Py.truthy_opt (Item.updated_at i) then
    created ← parse_timestamp L (default "" (Item.created_at i));
    updated ← parse_timestamp L (default "" (Item.updated_at i));
    total_seconds <$> datetime_sub updated created
  else None.

(** The items that count for the mean resolution time: completed or
    failed, with a resolution time that is defined and positive. *)
Definition measured (L : library) (i : Item.t) : bool :=
  status_in ["completed"; "failed"] i
  && match duration L i with
     | Some d => if Qlt_le_dec 0 d then true else false
     | None => false
     end.

Definition is_resolved (i : Item.t) : bool :=
  status_in ["completed"; "failed"; "rejected"] i.

Definition has_status (s : string) (i : Item.t) : bool := status_in [s] i.

(** The mean of a list of rationals, for comparison. *)
Definition mean (l : list Q) : Q := (Qsum l / inject_Z (Z.of_nat (length l)))%Q.

(** An item as the statistics see it. *)
Definition stats_item (id st created updated : string) : Item.t :=
  Item.mk id None None None None None None (Some st) (Some created) (Some updated)
    None None None.

(** Two completed incidents: one resolved in five minutes, one whose two
    timestamps are equal. *)
Definition two_completed : list Item.t :=
  [ stats_item "i1" "completed" "2024-01-15T10:00:00Z" "2024-01-15T10:05:00Z";
    stats_item "i2" "completed" "2024-01-15T10:10:00Z" "2024-01-15T10:10:00Z" ].

(** The dashboard's table with the two incidents of its statistics test:
    one completed in five minutes, one failed after ten. *)
Definition stats_desk : world :=
  mk_world
    (<["i1" := stats_item "i1" "completed" "2024-01-15T10:00:00Z" "2024-01-15T10:05:00Z"]>
       {[ "i2" := stats_item "i2" "failed" "2024-01-15T10:20:00Z" "2024-01-15T10:30:00Z" ]})
    0 [] [].

(** ** More of [dashboard/app.py] *)

(** *** Listing and reading incidents *)

(** The sort key of [get_incidents]: [x.get("created_at", "")]. *)
Definition created_key (i : Item.t) : string := default "" (Item.created_at i).

(** [items.sort(key=..., reverse=True)] is a stable sort into descending
    order: an item goes behind the items with a greater key and in front
    of those, later in the list, with an equal or smaller one. *)
Fixpoint insert_desc (x : Item.t) (l : list Item.t) : list Item.t :=
  match l with
  | [] => [x]
  | y :: l' =>
      if String.ltb (created_key x) (created_key y) then y :: insert_desc x l'
      else x :: l
  end.

Definition sort_created_desc (l : list Item.t) : list Item.t :=
  fold_right insert_desc [] l.

(** [Attr("status").eq(status)] *)
Definition status_is (s : string) (i : Item.t) : bool :=
  match Item.status i with
  | Some s' => String.eqb s' s
  | None => false
  end.

Definition get_incidents (status : option string) : M (list Item.t) :=
  let* items := scan in
  let items :=
    if Py.truthy_opt status then List.filter (status_is (default "" status)) items
    else items in
  ret (sort_created_desc items).

Definition get_incident (incident_id : string) : M Item.t :=
  let* resp := get_item incident_id in
  match resp with
  | None => raise (HTTPException 404 "Incident not found")
  | Some item => ret item
  end.

(** *** Chaos engineering *)

Record chaos_response : Type := {
  chaos_status : string;
  chaos_instance_id : string;
  chaos_mode : string;
  chaos_command_id : string }.

Definition ASG_NAME : string := "sre-demo-asg".

Definition valid_modes : list string := ["disk-fill"; "nginx-crash"; "oom"].

Definition chaos_command (mode : string) : string :=
  "sudo python3 /home/ubuntu/chaos_master.py --mode " ++ mode.

Definition trigger_chaos (B : backend) (mode : string) : M chaos_response :=
  if negb (existsb (String.eqb mode) valid_modes) then
    raise (HTTPException 400
             "Invalid mode. Choose from: ['disk-fill', 'nginx-crash', 'oom']")
  else
    let* asg_resp := ask (DescribeAutoScalingGroups ASG_NAME)
                         (fun n => describe_auto_scaling_groups B n ASG_NAME) in
    match asg_resp with
    | Fault e => raise (HTTPException 500 e)
    | Answer [] => raise (HTTPException 500 "list index out of range")
    | Answer (g :: _) =>
        match List.filter in_service (Instances g) with
        | [] => raise (HTTPException 400 "No in-service instances")
        | i :: _ =>
            let instance_id := InstanceId i in
            let cmd := chaos_command mode in
            let* resp := ask (SendCommand instance_id [JStr cmd])
                             (fun n => send_command B n instance_id [JStr cmd]) in
            match resp with
            | Fault e => raise (HTTPException 500 e)
            | Answer command_id =>
                ret {| chaos_status := "triggered"; chaos_instance_id := instance_id;
                       chaos_mode := mode; chaos_command_id := command_id |}
            end
        end
    end.

(** *** Rate limiting *)

Module RateLimit.

(** What the name [time] stands for in the module. *)
Inductive time_binding : Type :=
| TimeFunction
| TimeModule.

(** The imports of [app.py] that bind the name [time], in the order of
    the file: [from time import time] (line 9) and [import time]
    (line 19).  The later one stands when a request is served. *)
Definition time_imports : list time_binding := [TimeFunction; TimeModule].

Definition global_time : time_binding := List.last time_imports TimeFunction.

(** [time()], for the reading [clock] of the wall clock: calling the
    module raises a [TypeError]. *)
Definition call_time (clock : Q) : result Q :=
  match global_time with
  | TimeFunction => Ok clock
  | TimeModule => Raise TypeError
  end.

(** The middleware: at most [limit] requests per address within [window]
    seconds; [store] keeps, per address, the times of the requests let
    through. *)
Record t : Type := mk {
  limit : Z;
  window : Z;
  store : gmap string (list Q) }.

Inductive verdict : Type :=
| Forwarded
| TooManyRequests.

(** [now - t < self.window] *)
Definition recent (window : Z) (now t : Q) : bool :=
  if Qlt_le_dec (now - t) (inject_Z window) then true else false.

(** [dispatch], for a request from [client] (the host of the client, if
    there is one) when the wall clock reads [clock]; [disabled] tells
    whether [RATE_LIMIT_DISABLED] is set. *)
Definition dispatch (disabled : bool) (client : option string) (clock : Q) (m : t)
  : result verdict * t :=
  if disabled then (Ok Forwarded, m)
  else
    let ip := default "unknown" client in
    match call_time clock with
    | Raise e => (Raise e, m)
    | Ok now =>
        let kept := List.filter (recent (window m) now) (default [] (store m !! ip)) in
        if (limit m <=? Z.of_nat (length kept))%Z
        then (Ok TooManyRequests, mk (limit m) (window m) (<[ip := kept]> (store m)))
        else (Ok Forwarded,
              mk (limit m) (window m) (<[ip := (kept ++ [now])%list]> (store m)))
    end.

(** A run of the enabled middleware over a list of requests (address,
    clock reading), oldest first: what each request got, in order, and the
    final state. *)
Fixpoint serve (requests : list (string * Q)) (m : t)
  : list (result verdict) * t :=
  match requests with
  | [] => ([], m)
  | (ip, clock) :: rest =>
      let (v, m') := dispatch false (Some ip) clock m in
      let (vs, m'') := serve rest m' in
      (v :: vs, m'')
  end.

End RateLimit.

(** ** [chaos-scripts/chaos_master.py] *)

Module Chaos.

Definition GARBAGE_LOG_PATH : string := "/var/log/garbage.log".

(** How the script ends: with an exit code, or after the shell commands
    it has run. *)
Inductive outcome : Type :=
| Exit (code : Z)
| Ran (commands : list string).

Definition choices : list string := ["oom"; "disk-fill"; "kill-nginx"].

Definition trigger_oom : list string :=
  ["stress-ng --vm 1 --vm-bytes 95% --vm-populate --timeout 600s &"].

Definition trigger_disk_fill : list string :=
  ["dd if=/dev/zero of=" ++ GARBAGE_LOG_PATH ++ " bs=1M count=10000"].

Definition kill_nginx : list string := ["systemctl stop nginx"].

(** The script's main part, for the value given to [--mode] (if any) and
    the effective user id. *)
Definition main (mode : option string) (euid : Z) : outcome :=
  match mode with
  | None => Exit 2
  | Some m =>
      if negb (existsb (String.eqb m) choices) then Exit 2
      else if negb (euid =? 0)%Z then Exit 1
      else if String.eqb m "oom" then Ran trigger_oom
      else if String.eqb m "disk-fill" then Ran trigger_disk_fill
      else if String.eqb m "kill-nginx" then Ran kill_nginx
      else Ran []
  end.

End Chaos.

(** ** More inputs for the examples *)

(** The message of the handler's test for a state other than [ALARM]. *)
Definition ok_message : string :=
  "{" ++ quoted "NewStateValue" ++ ": " ++ quoted "OK" ++ ", "
  ++ quoted "AlarmName" ++ ": " ++ quoted "Test" ++ ", "
  ++ quoted "Trigger" ++ ": {" ++ quoted "Dimensions" ++ ": []}}".

Definition ok_alarm : alarm :=
  {| AlarmName := Some "Test"; AlarmDescription := None;
     NewStateValue := Some "OK";
     Trigger := Some {| Dimensions := Some [] |};
     Region := None; AWSAccountId := None; AlarmArn := None |}.

(** A CPU alarm on two hosts of a group: its name is in no category. *)
Definition cpu_message : string :=
  "{" ++ quoted "AlarmName" ++ ":" ++ quoted "CPU-High" ++ ","
  ++ quoted "AlarmDescription" ++ ":" ++ quoted "" ++ ","
  ++ quoted "NewStateValue" ++ ":" ++ quoted "ALARM" ++ ","
  ++ quoted "Region" ++ ":" ++ quoted "ap-south-1" ++ ","
  ++ quoted "AWSAccountId" ++ ":" ++ quoted "123456789012" ++ ","
  ++ quoted "Trigger" ++ ":{" ++ quoted "Dimensions" ++ ":[{"
  ++ quoted "name" ++ ":" ++ quoted "AutoScalingGroupName" ++ ","
  ++ quoted "value" ++ ":" ++ quoted "sre-demo-asg" ++ "}]}}".

Definition cpu_alarm : alarm :=
  alarm_with "CPU-High"
    [ {| name := "AutoScalingGroupName"; value := "sre-demo-asg" |} ].

(** The message of the handler's test for an alarm without a known
    dimension. *)
Definition stray_message : string :=
  "{" ++ quoted "NewStateValue" ++ ": " ++ quoted "ALARM" ++ ", "
  ++ quoted "AlarmName" ++ ": " ++ quoted "Disk-Critical" ++ ", "
  ++ quoted "AlarmDescription" ++ ": " ++ quoted "" ++ ", "
  ++ quoted "Trigger" ++ ": {" ++ quoted "Dimensions" ++ ": [{"
  ++ quoted "name" ++ ": " ++ quoted "UnknownDim" ++ ", "
  ++ quoted "value" ++ ": " ++ quoted "x" ++ "}]}}".

Definition stray_alarm : alarm :=
  {| AlarmName := Some "Disk-Critical"; AlarmDescription := Some "";
     NewStateValue := Some "ALARM";
     Trigger := Some {| Dimensions := Some [ {| name := "UnknownDim"; value := "x" |} ] |};
     Region := None; AWSAccountId := None; AlarmArn := None |}.

Definition switchboard : library :=
  scripted_library
    [ (ok_message, ok_alarm); (cpu_message, cpu_alarm); (stray_message, stray_alarm);
      (group_message, group_alarm); (memory_message, memory_alarm) ].

(** The fleet with two members of the group in service. *)
Definition wide_fleet : backend :=
  {| describe_auto_scaling_groups := fun _ _ =>
       Answer [ {| Instances :=
                     [ {| InstanceId := "i-1"; LifecycleState := "InService" |};
                       {| InstanceId := "i-2"; LifecycleState := "InService" |} ] |} ];
     describe_target_health := fun _ _ => Fault "unreachable";
     list_buckets := fun _ =>
       Answer ["billing-exports"; "sre-incident-logs-archive-7f3a"; "sre-incident-logs-archive-old"];
     send_command := fun _ _ _ => Answer "cmd-1";
     get_command_invocation := fun _ _ _ => Answer succeeded;
     urlopen := fun _ _ _ _ => UrlFault "unreachable";
     clock := ticking |}.

(** A string without a colon. *)
Fixpoint colon_free (s : string) : bool :=
  match s with
  | EmptyString => true
  | String c s' => negb (Ascii.eqb c ":") && colon_free s'
  end.

(** The disk fallback for a bucket. *)
Definition disk_fallback (bucket : string) : json :=
  suggestion
    "Disk usage critical. Archiving garbage.log to S3 and clearing file to free space."
    ("export PATH=$PATH:/usr/local/bin; aws s3 cp /var/log/garbage.log s3://"
     ++ bucket ++ "/garbage.log-$(date +%s) && > /var/log/garbage.log").

Definition nginx_fallback : json :=
  suggestion "Nginx service is down. Restarting service to restore availability."
             "systemctl restart nginx".

(** A target-group alarm that carries no account id of its own, only its
    ARN. *)
Definition arn_alarm : alarm :=
  {| AlarmName := Some "Nginx-Unhealthy"; AlarmDescription := None;
     NewStateValue := Some "ALARM";
     Trigger := Some {| Dimensions :=
                          Some [ {| name := "TargetGroup";
                                    value := "targetgroup/sre-demo-tg/42f85d5ede20f6d3" |} ] |};
     Region := Some "ap-south-1"; AWSAccountId := None;
     AlarmArn := Some "arn:aws:cloudwatch:ap-south-1:123456789012:alarm:Nginx-Unhealthy" |}.

(** The same alarm with neither an account id nor an ARN. *)
Definition anonymous_alarm : alarm :=
  {| AlarmName := Some "Nginx-Unhealthy"; AlarmDescription := None;
     NewStateValue := Some "ALARM";
     Trigger := Some {| Dimensions :=
                          Some [ {| name := "TargetGroup";
                                    value := "targetgroup/sre-demo-tg/42f85d5ede20f6d3" |} ] |};
     Region := Some "ap-south-1"; AWSAccountId := None; AlarmArn := None |}.

(** A computation that sends at most [k] remote commands, whatever the
    state it starts from and however it ends. *)
Definition sends_at_most {A} (k : nat) (m : M A) : Prop :=
  ∀ w, (count_calls is_send (trace (snd (m w)))
        <= count_calls is_send (trace w) + k)%nat.

(** The incident id that the handler makes for a target when it reads the
    clock at tick [n]. *)
Definition incident_id_at (B : backend) (n : nat) (alarm_name instance_id : string)
  : string :=
  Py.str_of_Z (Z.quot (clock B n) 1000000) ++ "_" ++ alarm_name ++ "_" ++ instance_id.

Definition terminal_statuses : list string := ["completed"; "failed"; "timeout"].

(** [counts.get(s, 0)] on a dictionary of counters. *)
Fixpoint count_of (s : string) (counts : list (string * nat)) : nat :=
  match counts with
  | [] => 0%nat
  | (k, n) :: rest => if String.eqb k s then n else count_of s rest
  end.

(** The status under which the statistics count an item. *)
Definition counted_status (i : Item.t) : string := default "unknown" (Item.status i).

(** Descending by the sort key: the key of the later item is not above
    the key of the earlier one. *)
Definition newer_first (a b : Item.t) : Prop :=
  String.leb (created_key b) (created_key a) = true.

(** The dashboard's table with three incidents. *)
Definition busy_desk : world :=
  mk_world
    (<["i1" := stats_item "i1" "completed" "2024-01-15T10:00:00Z" "2024-01-15T10:05:00Z"]>
       (<["i2" := stats_item "i2" "failed" "2024-01-15T10:20:00Z" "2024-01-15T10:30:00Z"]>
          {[ "i3" := stats_item "i3" "completed" "2024-01-15T10:10:00Z"
                       "2024-01-15T10:12:00Z" ]}))
    0 [] [].

(** A group whose hosts are all on their way in or out, and an account in
    which the group does not exist. *)
Definition idle_fleet : backend :=
  {| describe_auto_scaling_groups := fun _ _ =>
       Answer [ {| Instances :=
                     [ {| InstanceId := "i-1"; LifecycleState := "Pending" |};
                       {| InstanceId := "i-2"; LifecycleState := "Terminating" |} ] |} ];
     describe_target_health := fun _ _ => Fault "unreachable";
     list_buckets := fun _ => Fault "AccessDenied";
     send_command := fun _ _ _ => Answer "cmd-1";
     get_command_invocation := fun _ _ _ => Answer succeeded;
     urlopen := fun _ _ _ _ => UrlFault "unreachable";
     clock := ticking |}.

Definition no_fleet : backend :=
  {| describe_auto_scaling_groups := fun _ _ => Answer [];
     describe_target_health := fun _ _ => Fault "unreachable";
     list_buckets := fun _ => Fault "AccessDenied";
     send_command := fun _ _ _ => Answer "cmd-1";
     get_command_invocation := fun _ _ _ => Answer succeeded;
     urlopen := fun _ _ _ _ => UrlFault "unreachable";
     clock := ticking |}.

(** *** A run of the rate limiter *)

(** Three requests in a second from one address, and one a minute
    later. *)
Definition burst : list (string * Q) :=
  [("10.0.0.7", 100); ("10.0.0.7", 100.2); ("10.0.0.7", 100.4); ("10.0.0.7", 161)]%Q.

(** *** The duration of the post-incident report *)

(** The block of [get_incident_report] that computes [duration_str] from
    the item's [created_at] and [updated_at], each [Unknown] when the
    item has none:
    [mins, secs = divmod(int(diff), 60)] and [f"{mins}m {secs}s"], or
    [N/A] when a time is unknown or anything raises. *)
(** [int(x)] on a float: the integer part, rounding towards zero. *)
Definition int_of_float (x : Q) : Z := Z.quot (Qnum x) (Zpos (Qden x)).

Definition report_duration (L : library) (created updated : string) : string :=
  if negb (String.eqb created "Unknown") && negb (String.eqb updated "Unknown") then
    match parse_timestamp L created with
    | None => "N/A"
    | Some t1 =>
        match parse_timestamp L updated with
        | None => "N/A"
        | Some t2 =>
            match datetime_sub t2 t1 with
            | None => "N/A"
            | Some us =>
                let diff := total_seconds us in
                let n := int_of_float diff in
                let mins := (n / 60)%Z in
                let secs := (n mod 60)%Z in
                Py.str_of_Z mins ++ "m " ++ Py.str_of_Z secs ++ "s"
            end
        end
    end
  else "N/A".

(** An incident written by the handler for an advisor answer whose
    command is the empty string: the suggestion is stored as it is. *)
Definition unadvised_desk : world :=
  snd (write_incident stuck_executor calendar "inc-1" "Disk-Critical-ASG" "" "i-123"
         "92% used" (JStr "") (JStr "Disk is full.") "pending_approval" empty_world).

(** *** Operations on one incident *)

(** The operations of the code that change a stored incident. *)
Inductive operation : Type :=
| HandlerUpdate (status output : string)
| Approve (custom_command : option string)
| Reject
| Remediate (instance_id : string) (command : json)
| Append (event detail : string).

(** The state after an operation on the incident [id]: after
    [update_incident_status] of the handler, [approve_incident],
    [reject_incident], the task [_execute_remediation], or
    [_append_timeline] of the dashboard. *)
Definition perform (B : backend) (L : library) (id : string) (op : operation)
    (w : world) : world :=
  match op with
  | HandlerUpdate st out => snd (update_incident_status B L id st out w)
  | Approve cc => snd (approve_incident B L id cc w)
  | Reject => snd (reject_incident B L id w)
  | Remediate host command => snd (_execute_remediation B L id host command w)
  | Append ev d => snd (_append_timeline B L id ev d w)
  end.

Definition perform_all (B : backend) (L : library) (id : string)
    (ops : list operation) (w : world) : world :=
  foldl (fun w op => perform B L id op w) w ops.

(** [updated_at] of the incident is the clock reading number [n], one of
    the readings made so far. *)
Definition updated_at_reading (B : backend) (L : library) (id : string) (w : world)
    (n : nat) : Prop :=
  attribute Item.updated_at id w = Some (stamp B L n) ∧ (n <= tick w)%nat.

(** The last entry of the timeline stored under a key. *)
Definition last_entry (id : string) (w : world) : option timeline_entry :=
  attribute Item.timeline id w ≫= last.

(** A suggestion service that answers every request with the HTTP error
    503 and a body that is not UTF-8. *)
Definition garbled : backend :=
  {| describe_auto_scaling_groups := fun _ _ => Fault "unreachable";
     describe_target_health := fun _ _ => Fault "unreachable";
     list_buckets := fun _ => Fault "AccessDenied";
     send_command := fun _ _ _ => Answer "cmd-1";
     get_command_invocation := fun _ _ _ => Answer succeeded;
     urlopen := fun _ _ _ _ => HttpError 503 (BodyBytes None);
     clock := ticking |}.


(** The item that [write_incident] hands to [put_item] when it reads the
    clock at tick [n]. *)
Definition written_item (B : backend) (L : library)
    (id name desc host diag : string) (sug reason : json) (st : string) (n : nat)
  : Item.t :=
  let now := stamp B L n in
  Item.mk id (Some name) (Some desc) (Some host) (Some diag)
    (Some (or_empty sug)) (Some (or_empty reason)) (Some st) (Some now) (Some now)
    (Some "") None
    (Some [ mk_entry "created" now ("Incident created from alarm: " ++ name);
            mk_entry "diagnostics" now "Diagnostics executed successfully";
            mk_entry "ai_analysis" now "AI generated remediation plan" ]).

(** The two values of the advisor, as they are written, can be
    serialised. *)
Definition advice_storable (sug reason : json) : bool :=
  Json.storable (or_empty sug) && Json.storable (or_empty reason).



(** A text within a JSON string: its quotes are escaped. *)
Definition escaped (s : string) : string :=
  Py.replace dq (String (ascii_of_nat 92) dq) s.

(** The generated text of an advisor that gives a number for a command,
    the answer of the service that carries it, and [json.loads] on the
    two. *)
Definition numeric_advice : string :=
  "{" ++ quoted "reasoning" ++ ": " ++ quoted "wait" ++ ", " ++ quoted "command"
  ++ ": 1.5}".

Definition numeric_answer : string :=
  "{" ++ quoted "candidates" ++ ":[{" ++ quoted "content" ++ ":{" ++ quoted "parts"
  ++ ":[{" ++ quoted "text" ++ ":" ++ quoted (escaped numeric_advice) ++ "}]}}]}".

Definition numeric_loads (s : string) : option json :=
  if String.eqb s numeric_answer then Some (envelope_json numeric_advice)
  else if String.eqb s numeric_advice then
    Some (JObj [("reasoning", JStr "wait"); ("command", JFloat (Finite 1.5))])
  else None.

Definition numeric_library : library :=
  {| json_loads := numeric_loads;
     loads_alarm := fun _ => None;
     isoformat := fun d => render_second (second_of d);
     fromisoformat := parse_second;
     compensated_sum := true |}.

(** The service that gives this answer, next to an executor on which
    every command succeeds at once. *)
Definition numeric_adviser : backend :=
  {| describe_auto_scaling_groups := fun _ _ => Fault "unreachable";
     describe_target_health := fun _ _ => Fault "unreachable";
     list_buckets := fun _ => Fault "AccessDenied";
     send_command := fun _ _ _ => Answer "cmd-1";
     get_command_invocation := fun _ _ _ => Answer succeeded;
     urlopen := fun _ _ _ _ => HttpOk (Some numeric_answer);
     clock := ticking |}.

(** ** The alarm payload as JSON

    The records [alarm], [trigger] and [dimension] describe a
    notification of the shape that CloudWatch sends.  The two places where
    [get_target_instances] reads the payload outside any [try] are
    embedded here on the JSON value itself, of whatever shape. *)

Module Raw.

(** The characters of a string. *)
Fixpoint characters (s : string) : list string :=
  match s with
  | EmptyString => []
  | String c s' =>
      match s' with
      | String c' _ =>
          if Py.is_continuation c' then
            match characters s' with
            | w :: ws => String c w :: ws
            | [] => [String c EmptyString]
            end
          else String c EmptyString :: characters s'
      | EmptyString => [String c EmptyString]
      end
  end.

(** [for d in v]: the elements that the loop takes from a value; a
    [TypeError] for a value that is not iterable. *)
Definition iterate (v : json) : result (list json) :=
  match v with
  | JArr l => Ok l
  | JObj l => Ok (JStr <$> (fst <$> l))
  | JStr s => Ok (JStr <$> characters s)
  | _ => Raise TypeError
  end.

(** [d[k]] for a string [k]: a [KeyError] for an object without the key, a
    [TypeError] for a value that is not an object. *)
Definition subscript (k : string) (d : json) : result json :=
  match d with
  | JObj l =>
      match Json.assoc k l with
      | Some v => Ok v
      | None => Raise (KeyError k)
      end
  | _ => Raise TypeError
  end.

(** Whether a value can be the key of a dictionary. *)
Definition hashable (v : json) : bool :=
  match v with
  | JArr _ | JObj _ => false
  | _ => true
  end.

(** [{d["name"]: d["value"] for d in ds}], added to [m].  An entry whose
    key is not a string is not kept: the code looks up strings only. *)
Fixpoint comprehension (ds : list json) (m : gmap string json)
  : result (gmap string json) :=
  match ds with
  | [] => Ok m
  | d :: ds' =>
      match subscript "name" d with
      | Raise e => Raise e
      | Ok n =>
          match subscript "value" d with
          | Raise e => Raise e
          | Ok v =>
              if hashable n then
                comprehension ds' (match n with JStr s => <[s := v]> m | _ => m end)
              else Raise TypeError
          end
      end
  end.

(** Lines 61 to 63: [trigger = alarm_data.get("Trigger", {})] and the
    dictionary of [trigger.get("Dimensions", [])]. *)
Definition dimensions (alarm_data : json) : result (gmap string json) :=
  match alarm_data with
  | JObj fields =>
      match default (JObj []) (Json.assoc "Trigger" fields) with
      | JObj trigger =>
          match iterate (default (JArr []) (Json.assoc "Dimensions" trigger)) with
          | Ok ds => comprehension ds ∅
          | Raise e => Raise e
          end
      | _ => Raise AttributeError
      end
  | _ => Raise AttributeError
  end.

(** Truth value of the result of [d.get(k)]. *)
Definition truthy_opt (o : option json) : bool :=
  match o with Some v => Json.truthy v | None => false end.

(** Lines 88 to 93: the account id for a target-group lookup. *)
Definition find_account_id (alarm_data : json) : result (option json) :=
  match alarm_data with
  | JObj fields =>
      let account_id := Json.assoc "AWSAccountId" fields in
      if negb (truthy_opt account_id) then
        match Json.assoc "AlarmArn" fields with
        | Some (JStr arn) =>
            Ok (match nth_error (Py.split ":" arn) 4 with
                | Some a => Some (JStr a)
                | None => account_id
                end)
        | Some _ => Raise AttributeError
        | None => Ok account_id
        end
      else Ok account_id
  | _ => Raise AttributeError
  end.

End Raw.

(** The JSON object that an alarm record stands for. *)
Definition optional (k : string) (v : option json) : list (string * json) :=
  match v with Some x => [(k, x)] | None => [] end.

Definition encode_dimension (d : dimension) : json :=
  JObj [("name", JStr (name d)); ("value", JStr (value d))].

Definition encode_trigger (t : trigger) : json :=
  JObj (optional "Dimensions"
          ((fun ds => JArr (encode_dimension <$> ds)) <$> Dimensions t)).

Definition alarm_fields (a : alarm) : list (string * json) :=
  (optional "AlarmName" (JStr <$> AlarmName a)
   ++ optional "AlarmDescription" (JStr <$> AlarmDescription a)
   ++ optional "NewStateValue" (JStr <$> NewStateValue a)
   ++ optional "Trigger" (encode_trigger <$> Trigger a)
   ++ optional "Region" (JStr <$> Region a)
   ++ optional "AWSAccountId" (JStr <$> AWSAccountId a)
   ++ optional "AlarmArn" (JStr <$> AlarmArn a))%list.

Definition encode_alarm (a : alarm) : json := JObj (alarm_fields a).

(** An element of the dimension list with what [get_target_instances]
    reads from it: an object with a [name] that can be a key and a
    [value]. *)
Definition dimension_shaped (d : json) : Prop :=
  ∃ l n v, d = JObj l ∧ Json.assoc "name" l = Some n ∧ Raw.hashable n = true
           ∧ Json.assoc "value" l = Some v.

(** Payloads on which the code raises: a trigger that is null, dimensions
    that are null, a dimension without a value, and, for a target group,
    an ARN that is null. *)
Definition null_trigger_payload : json :=
  JObj [("AlarmName", JStr "Disk-Critical"); ("Trigger", JNull)].

Definition null_dimensions_payload : json :=
  JObj [("AlarmName", JStr "Disk-Critical"); ("Trigger", JObj [("Dimensions", JNull)])].

Definition valueless_dimension_payload : json :=
  JObj [("AlarmName", JStr "Disk-Critical");
        ("Trigger", JObj [("Dimensions", JArr [JObj [("name", JStr "InstanceId")]])])].

Definition null_arn_payload : json :=
  JObj [("AlarmName", JStr "Nginx-Unhealthy");
        ("Trigger",
         JObj [("Dimensions",
                JArr [JObj [("name", JStr "TargetGroup");
                            ("value", JStr "targetgroup/sre-demo-tg/42f85d5ede20f6d3")]])]);
        ("AlarmArn", JNull)].

(** * Target resolution *)

(** C1, counterexample.  An alarm that carries the host dimension [i-1]
    together with a group dimension is not resolved to [i-1]: the group is
    looked up first and its in-service member [i-2] is returned. *)
Lemma host_dimension_shadowed_by_group :
  alarm_dimensions host_and_group_alarm !! "InstanceId" = Some "i-1"
  ∧ fst (get_target_instances fleet plain_environ host_and_group_alarm empty_world)
    = Ok ["i-2"]
  ∧ fst (get_target_instances fleet plain_environ host_and_group_alarm empty_world)
    ≠ Ok ["i-1"].
Proof. split; [|split]; vm_compute; [reflexivity | reflexivity | discriminate]. Qed.

Section RawPayload.

Local Open Scope list_scope.

Lemma assoc_optional (k k' : string) (v : option json) (l : list (string * json)) :
  Json.assoc k (optional k' v ++ l)
  = if String.eqb k k'
    then match v with Some x => Some x | None => Json.assoc k l end
    else Json.assoc k l.
Proof. destruct v; simpl; destruct (String.eqb k k'); reflexivity. Qed.

Lemma assoc_optional_last (k k' : string) (v : option json) :
  Json.assoc k (optional k' v) = if String.eqb k k' then v else None.
Proof. destruct v; simpl; destruct (String.eqb k k'); reflexivity. Qed.

Lemma assoc_trigger (a : alarm) :
  Json.assoc "Trigger" (alarm_fields a) = encode_trigger <$> Trigger a.
Proof.
  unfold alarm_fields. rewrite !assoc_optional, assoc_optional_last. simpl.
  destruct (Trigger a); reflexivity.
Qed.

Lemma assoc_account_id (a : alarm) :
  Json.assoc "AWSAccountId" (alarm_fields a) = JStr <$> AWSAccountId a.
Proof.
  unfold alarm_fields. rewrite !assoc_optional, assoc_optional_last. simpl.
  destruct (AWSAccountId a); reflexivity.
Qed.

Lemma assoc_arn (a : alarm) :
  Json.assoc "AlarmArn" (alarm_fields a) = JStr <$> AlarmArn a.
Proof.
  unfold alarm_fields. rewrite !assoc_optional, assoc_optional_last. reflexivity.
Qed.

Lemma comprehension_encoded (ds : list dimension) :
  ∀ m, Raw.comprehension (encode_dimension <$> ds) m
       = Ok (foldl (fun m d => <[name d := JStr (value d)]> m) m ds).
Proof.
  induction ds as [|d ds IH]; intros m; [reflexivity|].
  rewrite fmap_cons. cbn. apply IH.
Qed.

Lemma foldl_encoded (ds : list dimension) :
  ∀ m : gmap string string,
    foldl (fun m d => <[name d := JStr (value d)]> m) (JStr <$> m) ds
    = JStr <$> foldl (fun m d => <[name d := value d]> m) m ds.
Proof.
  induction ds as [|d ds IH]; intros m; [reflexivity|].
  simpl. rewrite <- fmap_insert. apply IH.
Qed.

(** On the payload of an alarm record the dictionary of the dimensions is
    built without an exception, and is the one of the record. *)
Lemma raw_dimensions_encoded (a : alarm) :
  Raw.dimensions (encode_alarm a) = Ok (JStr <$> alarm_dimensions a).
Proof.
  unfold Raw.dimensions, encode_alarm, alarm_dimensions, dimensions_dict.
  rewrite assoc_trigger.
  destruct (Trigger a) as [[[ds|]]|]; cbn; try (rewrite fmap_empty; reflexivity).
  rewrite comprehension_encoded. rewrite <- (fmap_empty JStr), foldl_encoded.
  reflexivity.
Qed.

Lemma raw_account_encoded (a : alarm) :
  Raw.find_account_id (encode_alarm a) = Ok (JStr <$> find_account_id a).
Proof.
  unfold Raw.find_account_id, encode_alarm, find_account_id, account_of_arn.
  rewrite assoc_account_id, assoc_arn.
  destruct (AWSAccountId a) as [[|c acct]|]; cbn;
    destruct (AlarmArn a) as [arn|]; cbn; try reflexivity;
    destruct (Py.split ":" arn) as [|? [|? [|? [|? [|? ?]]]]]; reflexivity.
Qed.

Lemma comprehension_shaped (ds : list json) :
  ∀ m m', Raw.comprehension ds m = Ok m' → Forall dimension_shaped ds.
Proof.
  induction ds as [|d ds IH]; intros m m' Hrun; [constructor|].
  cbn [Raw.comprehension] in Hrun.
  destruct d as [| | | | | |l]; try discriminate Hrun.
  unfold Raw.subscript in Hrun.
  destruct (Json.assoc "name" l) as [n|] eqn:Hn; [|discriminate Hrun].
  destruct (Json.assoc "value" l) as [v|] eqn:Hv; [|discriminate Hrun].
  destruct (Raw.hashable n) eqn:Hh; [|discriminate Hrun].
  constructor; [|exact (IH _ _ Hrun)].
  exists l, n, v. auto.
Qed.

(** C1, as amended.  On a notification of the shape that CloudWatch sends
    the dictionary of the dimensions and the account id are read without
    an exception, and resolution checks the dimensions in the order group,
    target group, host, the first non-empty one winning: a group dimension
    gives the in-service members of the first group returned; without it,
    a target-group dimension whose account id is known gives the targets
    that are not healthy and whose id starts with [i-]; without either, a
    host dimension gives that single host.  A failed lookup gives the
    empty list.  On other payloads resolution can raise: the dimensions
    are read only from a payload that is an object, whose trigger, if it
    has one, is an object, and whose dimensions, if there are any, can be
    iterated and are objects with a name and a value; and the account id
    is not found, with an [AttributeError], when it has to be taken from
    an ARN that is not a string. *)
Theorem get_target_instances_order (B : backend) (E : environ) (a : alarm) (w : world) :
  let dims := alarm_dimensions a in
  let run := fst (get_target_instances B E a w) in
  (Raw.dimensions (encode_alarm a) = Ok (JStr <$> dims)
   ∧ Raw.find_account_id (encode_alarm a) = Ok (JStr <$> find_account_id a))
  ∧ (∀ asg, dims !! "AutoScalingGroupName" = Some asg → asg ≠ "" →
       run = Ok match describe_auto_scaling_groups B (tick w) asg with
                | Answer (g :: _) =>
                    InstanceId <$> filter (fun i => in_service i = true) (Instances g)
                | Answer [] => []
                | Fault _ => []
                end)
  ∧ (∀ tg account_id,
       Py.truthy_opt (dims !! "AutoScalingGroupName") = false →
       dims !! "TargetGroup" = Some tg → tg ≠ "" →
       find_account_id a = Some account_id → account_id ≠ "" →
       let region := default (default "ap-south-1" (AWS_REGION E)) (Region a) in
       run = Ok match describe_target_health B (tick w)
                        (target_group_arn region account_id tg) with
                | Answer ds =>
                    TargetId <$> filter (fun d => unhealthy_instance d = true) ds
                | Fault _ => []
                end)
  ∧ (∀ host,
       Py.truthy_opt (dims !! "AutoScalingGroupName") = false →
       Py.truthy_opt (dims !! "TargetGroup") = false →
       dims !! "InstanceId" = Some host → host ≠ "" →
       run = Ok [host])
  ∧ (∀ payload m,
       Raw.dimensions payload = Ok m →
       ∃ fields trigger ds,
         payload = JObj fields
         ∧ default (JObj []) (Json.assoc "Trigger" fields) = JObj trigger
         ∧ Raw.iterate (default (JArr []) (Json.assoc "Dimensions" trigger)) = Ok ds
         ∧ Forall dimension_shaped ds)
  ∧ (∀ fields arn,
       Raw.truthy_opt (Json.assoc "AWSAccountId" fields) = false →
       Json.assoc "AlarmArn" fields = Some arn → (∀ s, arn ≠ JStr s) →
       Raw.find_account_id (JObj fields) = Raise AttributeError).
Proof.
  intros dims run. subst run. unfold get_target_instances.
  fold dims. split; [|split; [|split; [|split; [|split]]]].
  - split; [apply raw_dimensions_encoded | apply raw_account_encoded].
  - intros asg Hasg Hne. rewrite Hasg. simpl.
    destruct asg as [|c asg']; [congruence|]. simpl.
    unfold bind, ask, ret; simpl.
    destruct (describe_auto_scaling_groups B _ _) as [[|g gs]|]; reflexivity.
  - intros tg acct Hno Htg Hne Hacct Hane. rewrite Hno, Htg, Hacct.
    destruct tg as [|c tg']; [congruence|].
    destruct acct as [|c' acct']; [congruence|]. simpl.
    unfold get_unhealthy_targets, target_group_arn, bind, ask, ret; simpl.
    destruct (describe_target_health B _ _); reflexivity.
  - intros host Hno Hnotg Hhost Hne. rewrite Hno, Hnotg, Hhost.
    destruct host as [|c host']; [congruence|]. reflexivity.
  - intros payload m Hrun. unfold Raw.dimensions in Hrun.
    destruct payload as [| | | | | |fields]; try discriminate Hrun.
    destruct (default (JObj []) (Json.assoc "Trigger" fields))
      as [| | | | | |trigger] eqn:Htrigger; try discriminate Hrun.
    destruct (Raw.iterate (default (JArr []) (Json.assoc "Dimensions" trigger)))
      as [ds|e] eqn:Hds; [|discriminate Hrun].
    exists fields, trigger, ds. repeat split; try assumption.
    exact (comprehension_shaped _ _ _ Hrun).
  - intros fields arn Hacct Harn Hnot. unfold Raw.find_account_id.
    rewrite Hacct, Harn. simpl.
    destruct arn; try reflexivity. now contradiction (Hnot s).
Qed.

End RawPayload.

(** C1, witness: the three kinds of alarm on the scripted fleet, and a
    payload whose ARN is null. *)
Lemma get_target_instances_order_witness :
  fst (get_target_instances fleet plain_environ group_alarm empty_world) = Ok ["i-2"]
  ∧ fst (get_target_instances fleet plain_environ target_group_alarm empty_world)
    = Ok ["i-9"]
  ∧ fst (get_target_instances fleet plain_environ host_alarm empty_world) = Ok ["i-1"]
  ∧ Raw.find_account_id null_arn_payload = Raise AttributeError.
Proof.
  split; [|split; [|split]].
  - exact (proj1 (proj2 (get_target_instances_order fleet plain_environ group_alarm
                           empty_world))
             "sre-demo-asg" eq_refl ltac:(discriminate)).
  - exact (proj1 (proj2 (proj2 (get_target_instances_order fleet plain_environ
                                  target_group_alarm empty_world)))
             "targetgroup/sre-demo-tg/42f85d5ede20f6d3" "123456789012"
             eq_refl eq_refl ltac:(discriminate) eq_refl ltac:(discriminate)).
  - exact (proj1 (proj2 (proj2 (proj2 (get_target_instances_order fleet plain_environ
                                         host_alarm empty_world))))
             "i-1" eq_refl eq_refl eq_refl ltac:(discriminate)).
  - unfold null_arn_payload.
    apply (proj2 (proj2 (proj2 (proj2 (proj2
             (get_target_instances_order fleet plain_environ host_alarm empty_world)))))
             _ JNull); [reflexivity | reflexivity | intros s; discriminate].
Defined.

(** Payloads on which the dictionary of the dimensions is not built: a
    null trigger, null dimensions, and a dimension without a value. *)
Example dimensions_of_other_payloads :
  Raw.dimensions null_trigger_payload = Raise AttributeError
  ∧ Raw.dimensions null_dimensions_payload = Raise TypeError
  ∧ Raw.dimensions valueless_dimension_payload = Raise (KeyError "value")
  ∧ Raw.dimensions (JArr []) = Raise AttributeError.
Proof. repeat split. Qed.

(** * The operator gateway *)

Section Gateway.

Variable B : backend.
Variable L : library.

Lemma approve_incident_pending (id : string) (cc : option string) (w : world)
    (it : Item.t) (host : string) (command : json) :
  table w !! id = Some it →
  Item.status it = Some "pending_approval" →
  Item.instance_id it = Some host →
  chosen_command cc it = Some command →
  approve_incident B L id cc w
  = (Ok executing_response,
     mk_world (<[id := approved_item B L cc command (tick w) it]> (table w))
       (S (S (tick w))) (ReadClock :: ReadClock :: trace w)
       (tasks w ++ [ {| task_incident := id; task_instance := host;
                        task_command := command |} ])).
Proof.
  intros Hit Hst Hhost Hcmd.
  unfold approve_incident, bind, get_item. rewrite Hit, Hst. simpl.
  rewrite Hcmd. simpl. rewrite Hhost. simpl.
  unfold create_task, ret. simpl.
  rewrite lookup_insert_eq, insert_insert_eq, Hit. simpl.
  unfold approved_item, approve_update, stamp.
  destruct (Py.truthy_opt cc); reflexivity.
Qed.

(** C4.  [approve_incident] answers 404 for an unknown id and 400, with
    the current status in the message, for an incident whose status is not
    [pending_approval]; in both cases the table, the trace and the task
    list are those before the call. *)
Theorem approve_incident_refusals (id : string) (cc : option string) (w : world) :
  (table w !! id = None →
   approve_incident B L id cc w = (Raise (HTTPException 404 "Incident not found"), w))
  ∧ (∀ it st, table w !! id = Some it → Item.status it = Some st →
       st ≠ "pending_approval" →
       approve_incident B L id cc w
       = (Raise (HTTPException 400 ("Cannot approve: status is '" ++ st ++ "'")), w)).
Proof.
  split.
  - intros Hnone. unfold approve_incident, bind, get_item. rewrite Hnone. reflexivity.
  - intros it st Hit Hst Hne. unfold approve_incident, bind, get_item.
    rewrite Hit, Hst.
    destruct (String.eqb_spec st "pending_approval") as [->|_]; [congruence|].
    reflexivity.
Qed.

(** C2, on the code.  [reject_incident] does not look the incident up: for
    an id that is not in the table it answers [rejected] all the same, and
    leaves a new item under that id whose only attributes are the status
    [rejected], the time of the update and a one-entry timeline. *)
Theorem reject_incident_unknown_id (id : string) (w : world) :
  table w !! id = None →
  reject_incident B L id w
  = (Ok rejected_response,
     mk_world
       (<[id := Item.mk id None None None None None None (Some "rejected") None
                  (Some (stamp B L (tick w))) None None
                  (Some [mk_entry "rejected" (stamp B L (S (tick w)))
                           "Operator rejected remediation"])]> (table w))
       (S (S (S (tick w))))
       (Broadcast id "rejected" None :: ReadClock :: ReadClock :: trace w)
       (tasks w)).
Proof.
  intros Hnone. unfold reject_incident, bind. simpl.
  rewrite lookup_insert_eq, insert_insert_eq, Hnone. reflexivity.
Qed.

(** What [reject_incident] does in general: the status becomes [rejected]
    whatever it was, one timeline entry is appended, and neither a command
    is sent nor a task created. *)
Lemma reject_incident_effect (id : string) (w : world) :
  let it := default (Item.blank id) (table w !! id) in
  reject_incident B L id w
  = (Ok rejected_response,
     mk_world
       (<[id := Item.set_timeline
                  (default [] (Item.timeline it)
                   ++ [mk_entry "rejected" (stamp B L (S (tick w)))
                         "Operator rejected remediation"])
                  (Item.set_updated_at (stamp B L (tick w))
                     (Item.set_status "rejected" it))]> (table w))
       (S (S (S (tick w))))
       (Broadcast id "rejected" None :: ReadClock :: ReadClock :: trace w)
       (tasks w)).
Proof.
  intros it. unfold reject_incident, bind. simpl.
  rewrite lookup_insert_eq, insert_insert_eq. reflexivity.
Qed.

End Gateway.

(** C4, witness: approving an unknown id, and approving an incident that
    is already executing. *)
Lemma approve_incident_refusals_witness :
  approve_incident stuck_executor calendar "inc-2" None desk
  = (Raise (HTTPException 404 "Incident not found"), desk)
  ∧ (let w := mk_world {[ "inc-1" := Item.set_status "executing" pending_item ]} 5 [] [] in
     approve_incident stuck_executor calendar "inc-1" None w
     = (Raise (HTTPException 400 "Cannot approve: status is 'executing'"), w)).
Proof.
  split.
  - exact (proj1 (approve_incident_refusals stuck_executor calendar "inc-2" None desk)
             eq_refl).
  - exact (proj2 (approve_incident_refusals stuck_executor calendar "inc-1" None
                    (mk_world {[ "inc-1" := Item.set_status "executing" pending_item ]}
                       5 [] []))
             (Item.set_status "executing" pending_item) "executing"
             eq_refl eq_refl ltac:(discriminate)).
Defined.

(** C2, witness: rejecting [inc-2], which the table does not have. *)
Lemma reject_incident_unknown_id_witness :
  fst (reject_incident stuck_executor calendar "inc-2" desk) = Ok rejected_response
  ∧ attribute Item.status "inc-2"
      (snd (reject_incident stuck_executor calendar "inc-2" desk)) = Some "rejected".
Proof.
  rewrite (reject_incident_unknown_id stuck_executor calendar "inc-2" desk eq_refl).
  split; reflexivity.
Defined.

(** * The background remediation task *)

Section Remediation.

Variable B : backend.
Variable L : library.
Variables id host cid : string.

Local Open Scope nat_scope.

Lemma remediation_poll_running (attempts : nat) :
  ∀ w, (∀ j, j < attempts → still_running (poll_reply B cid host (tick w) j) = true) →
  ∃ tr, remediation_poll B L attempts id host cid w
        = (Ok false, mk_world (table w) (tick w + 2 * attempts) (tr ++ trace w) (tasks w))
        ∧ count_calls is_send tr = 0.
Proof.
  induction attempts as [|n IH]; intros w Hrun.
  - exists []. destruct w. simpl. rewrite Nat.add_0_r. split; reflexivity.
  - pose proof (Hrun 0 ltac:(lia)) as H0. unfold poll_reply in H0.
    rewrite Nat.mul_0_r, Nat.add_0_r in H0.
    set (w2 := mk_world (table w) (S (S (tick w)))
                 (GetCommandInvocation cid host :: Sleep 2 :: trace w) (tasks w)).
    destruct (IH w2) as [tr [Heq Hcount]].
    { intros j Hj. specialize (Hrun (S j) ltac:(lia)). unfold poll_reply in *.
      simpl tick. replace (S (S (tick w)) + 2 * j) with (tick w + 2 * S j) by lia.
      exact Hrun. }
    exists (tr ++ [GetCommandInvocation cid host; Sleep 2%Z])%list. split.
    + cbn [remediation_poll]. unfold bind at 1. simpl.
      unfold bind at 1. simpl. fold w2.
      destruct (get_command_invocation B (S (tick w)) cid host) as [inv|msg].
      * simpl in H0. apply negb_true_iff in H0. rewrite H0.
        rewrite Heq. simpl. rewrite <- app_assoc. simpl.
        do 2 f_equal. lia.
      * rewrite Heq. simpl. rewrite <- app_assoc. simpl. do 2 f_equal. lia.
    + unfold count_calls in *. rewrite List.filter_app, length_app, Hcount. reflexivity.
Qed.

Lemma remediation_poll_terminal (attempts : nat) :
  ∀ w k inv, k < attempts →
  (∀ j, j < k → still_running (poll_reply B cid host (tick w) j) = true) →
  poll_reply B cid host (tick w) k = Answer inv → terminal (Status inv) = true →
  ∃ tr, remediation_poll B L attempts id host cid w
        = (Ok true,
           mk_world
             (<[id := outcome_item B L (final_status_of inv) (output_of inv)
                        (tick w + 2 * k + 2) (stored id w)]> (table w))
             (tick w + 2 * k + 5) (tr ++ trace w) (tasks w))
        ∧ count_calls is_send tr = 0.
Proof.
  induction attempts as [|n IH]; intros w k inv Hk Hrun Hat Hterm; [lia|].
  set (w2 := mk_world (table w) (S (S (tick w)))
               (GetCommandInvocation cid host :: Sleep 2 :: trace w) (tasks w)).
  destruct k as [|k].
  - unfold poll_reply in Hat. rewrite Nat.mul_0_r, Nat.add_0_r in Hat.
    eexists (_ :: _ :: _ :: [GetCommandInvocation cid host; Sleep 2%Z]). split.
    + cbn [remediation_poll]. unfold bind at 1. simpl.
      unfold bind at 1. simpl. rewrite Hat, Hterm.
      unfold bind, write_outcome, _append_timeline, broadcast, datetime_now, ask,
        update_item, ret. simpl.
      rewrite lookup_insert_eq, insert_insert_eq. simpl.
      unfold outcome_item, stored, stamp.
      replace (tick w + 0 + 2) with (S (S (tick w))) by lia.
      replace (tick w + 0 + 5) with (S (S (S (S (S (tick w)))))) by lia.
      reflexivity.
    + reflexivity.
  - pose proof (Hrun 0 ltac:(lia)) as H0. unfold poll_reply in H0.
    rewrite Nat.mul_0_r, Nat.add_0_r in H0.
    destruct (IH w2 k inv) as [tr [Heq Hcount]]; [lia | | | exact Hterm |].
    { intros j Hj. specialize (Hrun (S j) ltac:(lia)). unfold poll_reply in *.
      simpl tick. replace (S (S (tick w)) + 2 * j) with (tick w + 2 * S j) by lia.
      exact Hrun. }
    { unfold poll_reply in *. simpl tick.
      replace (S (S (tick w)) + 2 * k) with (tick w + 2 * S k) by lia. exact Hat. }
    exists (tr ++ [GetCommandInvocation cid host; Sleep 2%Z])%list. split.
    + cbn [remediation_poll]. unfold bind at 1. simpl.
      unfold bind at 1. simpl. fold w2.
      assert (Hgoal : remediation_poll B L n id host cid w2
                      = (Ok true,
                         mk_world
                           (<[id := outcome_item B L (final_status_of inv) (output_of inv)
                                      (tick w + 2 * S k + 2) (stored id w)]> (table w))
                           (tick w + 2 * S k + 5)
                           ((tr ++ [GetCommandInvocation cid host; Sleep 2%Z]) ++ trace w)
                           (tasks w))).
      { rewrite Heq. unfold stored. simpl tick. simpl table. simpl trace. simpl tasks.
        rewrite <- app_assoc.
        replace (S (S (tick w)) + 2 * k + 2) with (tick w + 2 * S k + 2) by lia.
        replace (S (S (tick w)) + 2 * k + 5) with (tick w + 2 * S k + 5) by lia.
        reflexivity. }
      destruct (get_command_invocation B (S (tick w)) cid host) as [inv0|msg].
      * simpl in H0. apply negb_true_iff in H0. rewrite H0. exact Hgoal.
      * exact Hgoal.
    + unfold count_calls in *. rewrite List.filter_app, length_app, Hcount. reflexivity.
Qed.

End Remediation.

Section Task.

Variable B : backend.
Variable L : library.
Variables id host : string.
Variable command : json.

Local Open Scope nat_scope.

Lemma execute_remediation_fault (w : world) (e : string) :
  send_command B (tick w) host [command] = Fault e →
  ∃ tr, _execute_remediation B L id host command w
        = (Ok tt,
           mk_world (<[id := outcome_item B L "failed" e (S (tick w)) (stored id w)]>
                       (table w))
             (tick w + 4) (tr ++ SendCommand host [command] :: trace w) (tasks w))
        ∧ count_calls is_send tr = 0.
Proof.
  intros Hsend. exists [Broadcast id "failed" (Some e); ReadClock; ReadClock].
  split; [|reflexivity].
  unfold _execute_remediation. unfold bind at 1. unfold ask at 1.
  cbv beta iota. rewrite Hsend.
  unfold bind, write_outcome, _append_timeline, broadcast, datetime_now, ask,
    update_item, ret. simpl.
  rewrite lookup_insert_eq, insert_insert_eq. simpl.
  unfold outcome_item, stored, stamp.
  replace (tick w + 4) with (S (S (S (S (tick w))))) by lia.
  reflexivity.
Qed.

Lemma execute_remediation_terminal (w : world) (cid : string) (k : nat)
    (inv : invocation) :
  send_command B (tick w) host [command] = Answer cid →
  k < 60 →
  (∀ j, j < k → still_running (poll_reply B cid host (S (tick w)) j) = true) →
  poll_reply B cid host (S (tick w)) k = Answer inv →
  terminal (Status inv) = true →
  ∃ tr, _execute_remediation B L id host command w
        = (Ok tt,
           mk_world (<[id := outcome_item B L (final_status_of inv) (output_of inv)
                               (tick w + 2 * k + 3) (stored id w)]> (table w))
             (tick w + 2 * k + 6) (tr ++ SendCommand host [command] :: trace w)
             (tasks w))
        ∧ count_calls is_send tr = 0.
Proof.
  intros Hsend Hk Hrun Hat Hterm.
  set (w1 := mk_world (table w) (S (tick w)) (SendCommand host [command] :: trace w)
               (tasks w)).
  destruct (remediation_poll_terminal B L id host cid 60 w1 k inv Hk Hrun Hat Hterm)
    as [tr [Heq Hcount]].
  exists tr. split; [|exact Hcount].
  unfold _execute_remediation. unfold bind at 1. unfold ask at 1.
  cbv beta iota. rewrite Hsend.
  fold w1. unfold bind at 1. rewrite Heq. unfold ret, stored, w1.
  cbn [table tick trace tasks].
  replace (S (tick w) + 2 * k + 2) with (tick w + 2 * k + 3) by lia.
  replace (S (tick w) + 2 * k + 5) with (tick w + 2 * k + 6) by lia.
  reflexivity.
Qed.

Lemma execute_remediation_timeout (w : world) (cid : string) :
  send_command B (tick w) host [command] = Answer cid →
  (∀ j, j < 60 → still_running (poll_reply B cid host (S (tick w)) j) = true) →
  ∃ tr, _execute_remediation B L id host command w
        = (Ok tt,
           mk_world (<[id := timeout_item B L (tick w + 121) (stored id w)]> (table w))
             (tick w + 124) (tr ++ SendCommand host [command] :: trace w) (tasks w))
        ∧ count_calls is_send tr = 0.
Proof.
  intros Hsend Hrun.
  set (w1 := mk_world (table w) (S (tick w)) (SendCommand host [command] :: trace w)
               (tasks w)).
  destruct (remediation_poll_running B L id host cid 60 w1 Hrun) as [tr [Heq Hcount]].
  exists (Broadcast id "timeout" None :: ReadClock :: ReadClock :: tr)%list.
  split; [|exact Hcount].
  unfold _execute_remediation. unfold bind at 1. unfold ask at 1.
  cbv beta iota. rewrite Hsend.
  fold w1. unfold bind at 1. rewrite Heq.
  unfold bind, _append_timeline, broadcast, datetime_now, ask, update_item, ret.
  simpl.
  rewrite lookup_insert_eq, insert_insert_eq.
  unfold timeout_item, stored, stamp. simpl.
  replace (S (tick w + 120)) with (tick w + 121) by lia.
  replace (S (S (S (tick w + 121)))) with (tick w + 124) by lia.
  reflexivity.
Qed.

End Task.

(** * Approval *)

Section Approval.

Variable B : backend.
Variable L : library.

Local Open Scope nat_scope.

(** Within a budget of polls, either all of them find the command still
    running or there is a first one that does not. *)
Lemma first_terminal_poll (f : nat → bool) (n : nat) :
  (∀ j, j < n → f j = true)
  ∨ (∃ k, k < n ∧ (∀ j, j < k → f j = true) ∧ f k = false).
Proof.
  induction n as [|n [IH|[k [Hk [Hrun Hat]]]]].
  - left. intros j Hj. lia.
  - destruct (f n) eqn:Hn.
    + left. intros j Hj. destruct (decide (j = n)) as [->|]; [exact Hn|].
      apply IH. lia.
    + right. exists n. split; [lia|]. split; [exact IH | exact Hn].
  - right. exists k. split; [lia|]. split; assumption.
Qed.

Lemma still_running_false (r : reply invocation) :
  still_running r = false → ∃ inv, r = Answer inv ∧ terminal (Status inv) = true.
Proof.
  destruct r as [inv|msg]; simpl; [|discriminate].
  intros H. exists inv. split; [reflexivity|]. now apply negb_false_iff in H.
Qed.

Lemma chosen_command_dispatched (cc : option string) (it : Item.t) (sug : json) :
  Item.ai_suggestion it = Some sug →
  chosen_command cc it = Some (dispatched_command cc sug).
Proof.
  intros Hsug. unfold chosen_command, dispatched_command.
  destruct cc as [[|c s]|]; simpl; try exact Hsug; reflexivity.
Qed.

(** C5, as amended.  Approving a pending incident answers [executing]
    after two writes and no remote call: the status is [executing], the
    command (the override if a non-empty one is given, the stored
    suggestion otherwise) is kept as [custom_command] only for an
    override, an [approved] entry ends the timeline, and one background
    task is created for that command.  Whenever it runs, the task sends
    exactly that command once and never raises; it writes [failed] with
    the error text when the send fails, [completed] (on [Success]) or
    [failed] (on another terminal status) with the output when a poll
    among the 60 finds a terminal status, and [timeout] with the
    remediation output left as it was when none does. *)
Theorem approve_then_remediate (id : string) (cc : option string) (w : world)
    (it : Item.t) (host : string) (sug : json) :
  table w !! id = Some it →
  Item.status it = Some "pending_approval" →
  Item.instance_id it = Some host →
  Item.ai_suggestion it = Some sug →
  let command := dispatched_command cc sug in
  (∃ w', approve_incident B L id cc w = (Ok executing_response, w')
     ∧ attribute Item.status id w' = Some "executing"
     ∧ attribute Item.custom_command id w'
       = (if Py.truthy_opt cc then Some command else Item.custom_command it)
     ∧ attribute Item.timeline id w'
       = Some (default [] (Item.timeline it)
               ++ [mk_entry "approved" (stamp B L (S (tick w)))
                     (approved_detail (Py.truthy_opt cc))])%list
     ∧ tasks w' = (tasks w ++ [remediation_task id host command])%list
     ∧ count_calls is_send (trace w') = count_calls is_send (trace w))
  ∧ (∀ w2, ∃ w3 tr,
       _execute_remediation B L id host command w2 = (Ok tt, w3)
       ∧ trace w3 = (tr ++ SendCommand host [command] :: trace w2)%list
       ∧ count_calls is_send tr = 0
       ∧ match send_command B (tick w2) host [command] with
         | Fault e =>
             attribute Item.status id w3 = Some "failed"
             ∧ attribute Item.remediation_output id w3 = Some e
         | Answer cid =>
             (∀ k inv, k < 60 →
                (∀ j, j < k → still_running (poll_reply B cid host (S (tick w2)) j) = true) →
                poll_reply B cid host (S (tick w2)) k = Answer inv →
                terminal (Status inv) = true →
                attribute Item.status id w3
                = Some (if String.eqb (Status inv) "Success" then "completed" else "failed")
                ∧ attribute Item.remediation_output id w3 = Some (output_of inv))
             ∧ ((∀ j, j < 60 →
                   still_running (poll_reply B cid host (S (tick w2)) j) = true) →
                attribute Item.status id w3 = Some "timeout"
                ∧ attribute Item.remediation_output id w3
                  = attribute Item.remediation_output id w2)
         end).
Proof.
  intros Hit Hst Hhost Hsug command. split.
  - eexists. split.
    + apply (approve_incident_pending B L id cc w it host command Hit Hst Hhost).
      now apply chosen_command_dispatched.
    + unfold attribute. simpl. rewrite lookup_insert_eq. simpl.
      unfold approve_update. destruct (Py.truthy_opt cc); simpl; auto.
  - intros w2.
    destruct (send_command B (tick w2) host [command]) as [cid|e] eqn:Hsend.
    + destruct (first_terminal_poll
                  (fun j => still_running (poll_reply B cid host (S (tick w2)) j)) 60)
        as [Hrun|[k [Hk [Hrun Hat]]]].
      * destruct (execute_remediation_timeout B L id host command w2 cid Hsend Hrun)
          as [tr [Heq Hcount]].
        eexists. exists tr. split; [exact Heq|]. split; [reflexivity|].
        split; [exact Hcount|]. split.
        -- intros k inv Hk _ Hat Hterm. specialize (Hrun k Hk).
           rewrite Hat in Hrun. simpl in Hrun. rewrite Hterm in Hrun. discriminate.
        -- intros _. unfold attribute, stored. simpl. rewrite lookup_insert_eq. simpl.
           split; [reflexivity|]. destruct (table w2 !! id); reflexivity.
      * apply still_running_false in Hat. destruct Hat as [inv [Hat Hterm]].
        destruct (execute_remediation_terminal B L id host command w2 cid k inv
                    Hsend Hk Hrun Hat Hterm) as [tr [Heq Hcount]].
        eexists. exists tr. split; [exact Heq|]. split; [reflexivity|].
        split; [exact Hcount|]. split.
        -- intros k' inv' Hk' Hrun' Hat' Hterm'.
           assert (k' = k) as ->.
           { destruct (Nat.lt_trichotomy k' k) as [Hlt|[Heq'|Hgt]]; [|exact Heq'|].
             - specialize (Hrun k' Hlt). rewrite Hat' in Hrun. simpl in Hrun.
               rewrite Hterm' in Hrun. discriminate.
             - specialize (Hrun' k Hgt). rewrite Hat in Hrun'. simpl in Hrun'.
               rewrite Hterm in Hrun'. discriminate. }
           rewrite Hat in Hat'. injection Hat' as <-.
           unfold attribute. simpl. rewrite lookup_insert_eq. simpl.
           split; reflexivity.
        -- intros Hall. specialize (Hall k Hk). rewrite Hat in Hall. simpl in Hall.
           rewrite Hterm in Hall. discriminate.
    + destruct (execute_remediation_fault B L id host command w2 e Hsend)
        as [tr [Heq Hcount]].
      eexists. exists tr. split; [exact Heq|]. split; [reflexivity|].
      split; [exact Hcount|]. unfold attribute. simpl. rewrite lookup_insert_eq.
      split; reflexivity.
Qed.

End Approval.

(** C5, counterexample.  On an executor whose command never finishes, the
    task created by approving [inc-1] ends with the status [timeout],
    neither [completed] nor [failed], and writes no remediation output. *)
Lemma approved_remediation_times_out :
  let w1 := snd (approve_incident stuck_executor calendar "inc-1" None desk) in
  let w2 := snd (_execute_remediation stuck_executor calendar "inc-1" "i-123"
                   (JStr "echo fixed") w1) in
  tasks w1 = [remediation_task "inc-1" "i-123" (JStr "echo fixed")]
  ∧ attribute Item.status "inc-1" w2 = Some "timeout"
  ∧ attribute Item.remediation_output "inc-1" w2
    = attribute Item.remediation_output "inc-1" desk.
Proof. vm_compute. repeat split. Qed.

(** On an executor whose command succeeds at the second poll, the same
    task ends with the status [completed], the output of the command and a
    [completed] entry at the end of the timeline. *)
Example approved_remediation_completes :
  let w1 := snd (approve_incident (executor 10) calendar "inc-1" None desk) in
  let w2 := snd (_execute_remediation (executor 10) calendar "inc-1" "i-123"
                   (JStr "echo fixed") w1) in
  attribute Item.status "inc-1" w1 = Some "executing"
  ∧ attribute Item.status "inc-1" w2 = Some "completed"
  ∧ attribute Item.remediation_output "inc-1" w2 = Some "fixed"
  ∧ (event <$> default [] (attribute Item.timeline "inc-1" w2))
    = ["created"; "diagnostics"; "ai_analysis"; "approved"; "completed"]
  ∧ count_calls is_poll (trace w2) = 2%nat.
Proof. vm_compute. repeat split. Qed.

(** C5, witness: approving [inc-1] without an override. *)
Lemma approve_then_remediate_witness :
  ∃ w', approve_incident (executor 20) calendar "inc-1" None desk
        = (Ok executing_response, w')
        ∧ attribute Item.status "inc-1" w' = Some "executing"
        ∧ attribute Item.custom_command "inc-1" w' = None
        ∧ attribute Item.timeline "inc-1" w'
          = Some (default [] (Item.timeline pending_item)
                  ++ [mk_entry "approved" (render_second 6)
                        "AI-suggested command approved"])%list
        ∧ tasks w' = [remediation_task "inc-1" "i-123" (JStr "echo fixed")]
        ∧ count_calls is_send (trace w') = 0%nat.
Proof.
  exact (proj1 (approve_then_remediate (executor 20) calendar "inc-1" None desk
                  pending_item "i-123" (JStr "echo fixed")
                  eq_refl eq_refl eq_refl eq_refl)).
Defined.

(** C10, counterexample.  The handler stores the empty string for an
    advisor answer whose command is empty; approving that incident with
    an empty override creates the task with the empty command, and the
    task sends it to the host. *)
Lemma empty_override_dispatches_empty_command :
  let w1 := snd (approve_incident stuck_executor calendar "inc-1" (Some "")
                   unadvised_desk) in
  attribute Item.status "inc-1" unadvised_desk = Some "pending_approval"
  ∧ attribute Item.ai_suggestion "inc-1" unadvised_desk = Some (JStr "")
  ∧ fst (approve_incident stuck_executor calendar "inc-1" (Some "") unadvised_desk)
    = Ok executing_response
  ∧ tasks w1 = [remediation_task "inc-1" "i-123" (JStr "")]
  ∧ In (SendCommand "i-123" [JStr ""])
       (trace (snd (_execute_remediation (executor 0) calendar "inc-1" "i-123"
                      (JStr "") w1))).
Proof.
  vm_compute. repeat split; try reflexivity. right. right. right. right. right. left.
  reflexivity.
Qed.

Section EmptyOverride.

Variable B : backend.
Variable L : library.

(** C10, as amended.  An empty override is an absent one: [approve_incident]
    gives the same answer and the same state for [custom_command = ""] as
    for no [custom_command]; on a pending incident the task it creates
    carries the stored suggestion, whatever it is, the [custom_command]
    attribute of the item is left as it was, and the timeline entry says
    that the suggested command was approved. *)
Theorem approve_empty_override (id : string) (w : world) :
  approve_incident B L id (Some "") w = approve_incident B L id None w
  ∧ (∀ it host sug,
       table w !! id = Some it →
       Item.status it = Some "pending_approval" →
       Item.instance_id it = Some host →
       Item.ai_suggestion it = Some sug →
       ∃ w', approve_incident B L id (Some "") w = (Ok executing_response, w')
             ∧ tasks w' = (tasks w ++ [remediation_task id host sug])%list
             ∧ attribute Item.custom_command id w' = Item.custom_command it
             ∧ attribute Item.timeline id w'
               = Some (default [] (Item.timeline it)
                       ++ [mk_entry "approved" (stamp B L (S (tick w)))
                             "AI-suggested command approved"])%list).
Proof.
  split; [reflexivity|].
  intros it host sug Hit Hst Hhost Hsug.
  eexists. split.
  - apply (approve_incident_pending B L id (Some "") w it host sug Hit Hst Hhost).
    exact Hsug.
  - unfold attribute. simpl. rewrite lookup_insert_eq. repeat split.
Qed.

End EmptyOverride.

(** C10, witness: [inc-1] approved with an empty override. *)
Lemma approve_empty_override_witness :
  ∃ w', approve_incident stuck_executor calendar "inc-1" (Some "") desk
        = (Ok executing_response, w')
        ∧ tasks w' = [remediation_task "inc-1" "i-123" (JStr "echo fixed")]
        ∧ attribute Item.custom_command "inc-1" w' = None
        ∧ attribute Item.timeline "inc-1" w'
          = Some (default [] (Item.timeline pending_item)
                  ++ [mk_entry "approved" (render_second 6)
                        "AI-suggested command approved"])%list.
Proof.
  exact (proj2 (approve_empty_override stuck_executor calendar "inc-1" desk)
           pending_item "i-123" (JStr "echo fixed") eq_refl eq_refl eq_refl eq_refl).
Defined.

(** * The time of the last update *)

(** C3, counterexample.  Five seconds after [inc-1] was written, a timeline
    entry is appended to it: the timeline changes, and [updated_at] still
    shows the time of the earlier write, not the time of this one. *)
Lemma timeline_append_keeps_updated_at :
  let w' := snd (_append_timeline stuck_executor calendar "inc-1" "note"
                   "Operator looked at it" desk) in
  attribute Item.timeline "inc-1" w' ≠ attribute Item.timeline "inc-1" desk
  ∧ attribute Item.updated_at "inc-1" w' = Some "2024-01-15T10:00:00+00:00"
  ∧ attribute Item.updated_at "inc-1" desk = Some "2024-01-15T10:00:00+00:00"
  ∧ stamp stuck_executor calendar (tick desk) = "2024-01-15T10:00:05+00:00".
Proof. vm_compute. repeat split. discriminate. Qed.

Section UpdatedAt.

Variable B : backend.
Variable L : library.

Local Open Scope nat_scope.

(** The last entry of the timeline under a key that was just written. *)
Ltac last_entry_written :=
  unfold last_entry, attribute; simpl; rewrite lookup_insert_eq;
  unfold timeout_item, outcome_item; simpl; rewrite last_snoc; reflexivity.

(** The task ends with [updated_at] at the reading of its status write
    and a timeline entry stamped with the next reading. *)
Lemma execute_remediation_stamps (id host : string) (command : json) (w : world) :
  ∃ n, tick w < n ∧ S n < tick (snd (_execute_remediation B L id host command w))
       ∧ attribute Item.updated_at id (snd (_execute_remediation B L id host command w))
         = Some (stamp B L n)
       ∧ timestamp <$> last_entry id (snd (_execute_remediation B L id host command w))
         = Some (stamp B L (S n)).
Proof.
  destruct (send_command B (tick w) host [command]) as [cid|msg] eqn:Hsend.
  - destruct (first_terminal_poll
                (fun j => still_running (poll_reply B cid host (S (tick w)) j)) 60)
      as [Hrun|[k [Hk [Hrun Hat]]]].
    + destruct (execute_remediation_timeout B L id host command w cid Hsend Hrun)
        as [tr [Heq _]].
      rewrite Heq. exists (tick w + 121). cbn [snd tick].
      split; [lia|]. split; [lia|]. split.
      * unfold attribute. simpl. now rewrite lookup_insert_eq.
      * last_entry_written.
    + apply still_running_false in Hat. destruct Hat as [inv [Hat Hterm]].
      destruct (execute_remediation_terminal B L id host command w cid k inv
                  Hsend Hk Hrun Hat Hterm) as [tr [Heq _]].
      rewrite Heq. exists (tick w + 2 * k + 3). cbn [snd tick].
      split; [lia|]. split; [lia|]. split.
      * unfold attribute. simpl. now rewrite lookup_insert_eq.
      * last_entry_written.
  - destruct (execute_remediation_fault B L id host command w msg Hsend)
      as [tr [Heq _]].
    rewrite Heq. exists (S (tick w)). cbn [snd tick].
    split; [lia|]. split; [lia|]. split.
    + unfold attribute. simpl. now rewrite lookup_insert_eq.
    + last_entry_written.
Qed.

(** An approval, refused or not, leaves [updated_at] at the reading it
    was at or moves it to the reading of its write. *)
Lemma approve_incident_reading (id : string) (cc : option string) (w : world) (m : nat) :
  updated_at_reading B L id w m →
  ∃ n, updated_at_reading B L id (snd (approve_incident B L id cc w)) n ∧ m ≤ n.
Proof.
  intros [Hat Hle]. unfold approve_incident, bind, get_item. cbn [fst snd].
  destruct (table w !! id) as [it|] eqn:Hit;
    [|exists m; repeat split; [exact Hat | exact Hle | lia]].
  destruct (Item.status it) as [st|];
    [|exists m; repeat split; [exact Hat | exact Hle | lia]].
  destruct (negb (String.eqb st "pending_approval"));
    [exists m; repeat split; [exact Hat | exact Hle | lia]|].
  unfold datetime_now, bind, ask, ret. cbn [fst snd tick table trace tasks].
  destruct (chosen_command cc it) as [command|].
  - exists (tick w). unfold updated_at_reading, attribute, raise.
    destruct (Item.instance_id it); simpl;
      rewrite lookup_insert_eq; simpl; rewrite lookup_insert_eq; simpl;
      unfold approve_update, stamp; destruct (Py.truthy_opt cc); simpl;
      (split; [split; [reflexivity | lia] | lia]).
  - exists m. unfold raise. cbn [snd]. split; [split|lia].
    + exact Hat.
    + simpl. lia.
Qed.

Lemma perform_reading (id : string) (op : operation) (w : world) (m : nat) :
  updated_at_reading B L id w m →
  ∃ n, updated_at_reading B L id (perform B L id op w) n ∧ m ≤ n.
Proof.
  intros Hm. pose proof Hm as [Hat Hle].
  destruct op as [st out|cc| |host command|ev d]; cbn [perform].
  - exists (tick w). split; [split|lia].
    + unfold attribute. simpl. now rewrite lookup_insert_eq.
    + simpl. lia.
  - now apply approve_incident_reading.
  - exists (tick w). rewrite reject_incident_effect. split; [split|lia].
    + unfold attribute. simpl. now rewrite lookup_insert_eq.
    + simpl. lia.
  - destruct (execute_remediation_stamps id host command w) as [n [Hn [Htick [Hup _]]]].
    exists n. split; [split|lia]; [exact Hup | lia].
  - exists m. split; [split|lia].
    + unfold attribute in *. simpl. rewrite lookup_insert_eq. simpl.
      destruct (table w !! id); exact Hat.
    + simpl. lia.
Qed.

Lemma perform_all_reading (id : string) (ops : list operation) :
  ∀ w m, updated_at_reading B L id w m →
         ∃ n, updated_at_reading B L id (perform_all B L id ops w) n ∧ m ≤ n.
Proof.
  induction ops as [|op ops IH]; intros w m Hm.
  - exists m. split; [exact Hm | lia].
  - destruct (perform_reading id op w m Hm) as [n1 [H1 Hle1]].
    destruct (IH _ n1 H1) as [n [Hn Hle]].
    exists n. split; [exact Hn | lia].
Qed.

(** C3, as amended.  Every write of a status sets [updated_at] to the
    clock reading of that write: the status update of the handler, the
    terminal write of the dashboard, a rejection, an approval, and the
    write of the background task, whichever of [failed], [completed] and
    [timeout] it ends with.  In the dashboard the timeline entry of an
    operation is appended right after its status write, stamped with the
    next clock reading.  A timeline append by itself leaves [updated_at]
    as it was.  Along any sequence of these operations [updated_at] stays
    the reading of a write, a later write standing for a later reading:
    with a clock that does not go back, it does not go back. *)
Theorem updated_at_follows_status_writes (id : string) (w : world) :
  (∀ st out,
     attribute Item.updated_at id (snd (update_incident_status B L id st out w))
     = Some (stamp B L (tick w)))
  ∧ (∀ st out,
       attribute Item.updated_at id (snd (write_outcome B L id st out w))
       = Some (stamp B L (tick w)))
  ∧ (attribute Item.updated_at id (snd (reject_incident B L id w))
     = Some (stamp B L (tick w))
     ∧ timestamp <$> last_entry id (snd (reject_incident B L id w))
       = Some (stamp B L (S (tick w))))
  ∧ (∀ cc it host command,
       table w !! id = Some it → Item.status it = Some "pending_approval" →
       Item.instance_id it = Some host → chosen_command cc it = Some command →
       attribute Item.updated_at id (snd (approve_incident B L id cc w))
       = Some (stamp B L (tick w))
       ∧ timestamp <$> last_entry id (snd (approve_incident B L id cc w))
         = Some (stamp B L (S (tick w))))
  ∧ (∀ host command,
       let w' := snd (_execute_remediation B L id host command w) in
       ∃ n, tick w < n
            ∧ attribute Item.updated_at id w' = Some (stamp B L n)
            ∧ timestamp <$> last_entry id w' = Some (stamp B L (S n)))
  ∧ (∀ host command cid,
       send_command B (tick w) host [command] = Answer cid →
       (∀ j, j < 60 → still_running (poll_reply B cid host (S (tick w)) j) = true) →
       let w' := snd (_execute_remediation B L id host command w) in
       attribute Item.status id w' = Some "timeout"
       ∧ attribute Item.updated_at id w' = Some (stamp B L (tick w + 121)))
  ∧ (∀ ev d,
       attribute Item.updated_at id (snd (_append_timeline B L id ev d w))
       = attribute Item.updated_at id w)
  ∧ (∀ ops m,
       updated_at_reading B L id w m →
       ∃ n, updated_at_reading B L id (perform_all B L id ops w) n
            ∧ m ≤ n
            ∧ ((∀ a b, a ≤ b → (clock B a <= clock B b)%Z) →
               (clock B m <= clock B n)%Z)).
Proof.
  split; [|split; [|split; [|split; [|split; [|split; [|split]]]]]].
  - intros st out. unfold attribute. simpl. now rewrite lookup_insert_eq.
  - intros st out. unfold attribute. simpl. now rewrite lookup_insert_eq.
  - rewrite reject_incident_effect. cbn [snd]. split.
    + unfold attribute. simpl. now rewrite lookup_insert_eq.
    + last_entry_written.
  - intros cc it host command Hit Hst Hhost Hcmd.
    rewrite (approve_incident_pending B L id cc w it host command Hit Hst Hhost Hcmd).
    cbn [snd]. split.
    + unfold attribute. simpl. rewrite lookup_insert_eq. simpl.
      unfold approve_update. now destruct (Py.truthy_opt cc).
    + unfold last_entry, attribute. simpl. rewrite lookup_insert_eq. simpl.
      now rewrite last_snoc.
  - intros host command w'. subst w'.
    destruct (execute_remediation_stamps id host command w) as [n [Hn [_ [Hup Hlast]]]].
    exists n. auto.
  - intros host command cid Hsend Hrun w'. subst w'.
    destruct (execute_remediation_timeout B L id host command w cid Hsend Hrun)
      as [tr [Heq _]].
    rewrite Heq. unfold attribute. simpl. rewrite lookup_insert_eq. split; reflexivity.
  - intros ev d. unfold attribute. simpl. rewrite lookup_insert_eq. simpl.
    now destruct (table w !! id).
  - intros ops m Hm. destruct (perform_all_reading id ops w m Hm) as [n [Hn Hle]].
    exists n. split; [exact Hn|]. split; [exact Hle|]. intros Hclock. now apply Hclock.
Qed.

End UpdatedAt.

(** C3, witness: the approval of [inc-1], five seconds after its
    creation, and its rejection after that. *)
Lemma updated_at_follows_status_writes_witness :
  (attribute Item.updated_at "inc-1"
     (snd (approve_incident stuck_executor calendar "inc-1" None desk))
   = Some "2024-01-15T10:00:05+00:00"
   ∧ timestamp <$> last_entry "inc-1"
                     (snd (approve_incident stuck_executor calendar "inc-1" None desk))
     = Some "2024-01-15T10:00:06+00:00")
  ∧ ∃ n, updated_at_reading stuck_executor calendar "inc-1"
           (perform_all stuck_executor calendar "inc-1" [Approve None; Reject] desk) n
         ∧ (0 <= n)%nat
         ∧ (ticking 0 <= ticking n)%Z.
Proof.
  split.
  - exact (proj1 (proj2 (proj2 (proj2
             (updated_at_follows_status_writes stuck_executor calendar "inc-1" desk))))
             None pending_item "i-123" (JStr "echo fixed")
             eq_refl eq_refl eq_refl eq_refl).
  - destruct (proj2 (proj2 (proj2 (proj2 (proj2 (proj2 (proj2
               (updated_at_follows_status_writes stuck_executor calendar "inc-1" desk)))))))
               [Approve None; Reject] 0%nat) as [n [Hn [Hle Hclock]]].
    + split; [reflexivity | simpl; lia].
    + exists n. split; [exact Hn|]. split; [exact Hle|]. apply Hclock.
      intros a b Hab. simpl. unfold ticking. lia.
Defined.

(** * Bounded polling *)

Section Polling.

Variable B : backend.
Variable L : library.
Variables cid host : string.

Local Open Scope nat_scope.

Lemma slept_app (l1 l2 : list call) : slept (l1 ++ l2) = (slept l1 + slept l2)%Z.
Proof.
  induction l1 as [|c l1 IH]; [reflexivity|].
  destruct c; simpl; rewrite ?IH; try reflexivity.
  unfold slept in *. simpl. fold (slept l1). lia.
Qed.

Lemma waited_polls (k : nat) :
  count_calls is_poll (waited cid host k) = k
  ∧ count_calls is_send (waited cid host k) = 0
  ∧ count_calls is_advisor_call (waited cid host k) = 0
  ∧ slept (waited cid host k) = (2 * Z.of_nat k)%Z.
Proof.
  induction k as [|k [IHp [IHs [IHa IHz]]]]; [repeat split|].
  cbn [waited]. rewrite slept_app, IHz.
  unfold count_calls in *.
  rewrite !List.filter_app, !length_app, IHp, IHs, IHa. simpl.
  repeat split; lia.
Qed.

Lemma poll_running (retries : nat) :
  ∀ w, (∀ j, j < retries → still_running (probe B cid host (tick w) j) = true) →
  poll B retries cid host w
  = (Ok None,
     mk_world (table w) (tick w + 2 * retries) (waited cid host retries ++ trace w)
       (tasks w)).
Proof.
  induction retries as [|n IH]; intros w Hrun.
  - destruct w. simpl. rewrite Nat.add_0_r. reflexivity.
  - pose proof (Hrun 0 ltac:(lia)) as H0. unfold probe in H0.
    rewrite Nat.mul_0_r, Nat.add_0_r in H0.
    set (w2 := mk_world (table w) (S (S (tick w)))
                 (Sleep 2 :: GetCommandInvocation cid host :: trace w) (tasks w)).
    assert (Heq : poll B n cid host w2
                  = (Ok None,
                     mk_world (table w) (tick w + 2 * S n)
                       (waited cid host (S n) ++ trace w) (tasks w))).
    { rewrite (IH w2).
      - simpl tick. simpl table. simpl trace. simpl tasks. cbn [waited].
        rewrite <- app_assoc. simpl app.
        replace (S (S (tick w)) + 2 * n) with (tick w + 2 * S n) by lia. reflexivity.
      - intros j Hj. specialize (Hrun (S j) ltac:(lia)). unfold probe in *.
        simpl tick. replace (S (S (tick w)) + 2 * j) with (tick w + 2 * S j) by lia.
        exact Hrun. }
    cbn [poll]. unfold bind at 1. simpl.
    destruct (get_command_invocation B (tick w) cid host) as [inv|msg].
    + simpl in H0. apply negb_true_iff in H0. rewrite H0.
      unfold bind at 1. simpl. exact Heq.
    + unfold bind at 1. simpl. exact Heq.
Qed.

Lemma poll_terminal (retries : nat) :
  ∀ w k inv, k < retries →
  (∀ j, j < k → still_running (probe B cid host (tick w) j) = true) →
  probe B cid host (tick w) k = Answer inv → terminal (Status inv) = true →
  poll B retries cid host w
  = (Ok (Some inv),
     mk_world (table w) (tick w + 2 * k + 1)
       (GetCommandInvocation cid host :: waited cid host k ++ trace w) (tasks w)).
Proof.
  induction retries as [|n IH]; intros w k inv Hk Hrun Hat Hterm; [lia|].
  destruct k as [|k].
  - unfold probe in Hat. rewrite Nat.mul_0_r, Nat.add_0_r in Hat.
    cbn [poll]. unfold bind at 1. simpl. rewrite Hat, Hterm. unfold ret. simpl.
    replace (tick w + 0 + 1) with (S (tick w)) by lia. reflexivity.
  - pose proof (Hrun 0 ltac:(lia)) as H0. unfold probe in H0.
    rewrite Nat.mul_0_r, Nat.add_0_r in H0.
    set (w2 := mk_world (table w) (S (S (tick w)))
                 (Sleep 2 :: GetCommandInvocation cid host :: trace w) (tasks w)).
    assert (Heq : poll B n cid host w2
                  = (Ok (Some inv),
                     mk_world (table w) (tick w + 2 * S k + 1)
                       (GetCommandInvocation cid host :: waited cid host (S k) ++ trace w)
                       (tasks w))).
    { rewrite (IH w2 k inv); [| lia | | | exact Hterm].
      - simpl tick. simpl table. simpl trace. simpl tasks. cbn [waited].
        rewrite <- app_assoc. simpl app.
        replace (S (S (tick w)) + 2 * k + 1) with (tick w + 2 * S k + 1) by lia.
        reflexivity.
      - intros j Hj. specialize (Hrun (S j) ltac:(lia)). unfold probe in *.
        simpl tick. replace (S (S (tick w)) + 2 * j) with (tick w + 2 * S j) by lia.
        exact Hrun.
      - unfold probe in *. simpl tick.
        replace (S (S (tick w)) + 2 * k) with (tick w + 2 * S k) by lia. exact Hat. }
    cbn [poll]. unfold bind at 1. simpl.
    destruct (get_command_invocation B (tick w) cid host) as [inv0|msg].
    + simpl in H0. apply negb_true_iff in H0. rewrite H0.
      unfold bind at 1. simpl. exact Heq.
    + unfold bind at 1. simpl. exact Heq.
Qed.

End Polling.

Section Waiting.

Variable B : backend.
Variable L : library.

Local Open Scope nat_scope.

(** C8.  [wait_for_command] always returns, after at most 60 polls and at
    most 120 seconds of sleep, and writes nothing: without a handle it
    returns [None] at once, with no poll; with a handle it returns the
    first terminal invocation that one of the 60 polls finds and [None]
    when none does.  For [None] the handler records the status [timeout],
    with the output [Command timed out], and reports [timeout]. *)
Theorem wait_for_command_bounded (command_id : option string) (host : string)
    (w : world) :
  (Py.truthy_opt command_id = false →
   wait_for_command B command_id host w = (Ok None, w))
  ∧ (∀ cid, command_id = Some cid → cid ≠ "" →
       (∀ k inv, k < 60 →
          (∀ j, j < k → still_running (probe B cid host (tick w) j) = true) →
          probe B cid host (tick w) k = Answer inv → terminal (Status inv) = true →
          wait_for_command B command_id host w
          = (Ok (Some inv),
             mk_world (table w) (tick w + 2 * k + 1)
               (GetCommandInvocation cid host :: waited cid host k ++ trace w)
               (tasks w)))
       ∧ ((∀ j, j < 60 → still_running (probe B cid host (tick w) j) = true) →
          wait_for_command B command_id host w
          = (Ok None,
             mk_world (table w) (tick w + 120) (waited cid host 60 ++ trace w)
               (tasks w))))
  ∧ (∃ r w' tr,
       wait_for_command B command_id host w = (Ok r, w')
       ∧ table w' = table w ∧ trace w' = (tr ++ trace w)%list
       ∧ count_calls is_poll tr ≤ 60 ∧ (slept tr ≤ 120)%Z)
  ∧ (∀ id w0, ∃ w1,
       finalize B L id host None w0 = (Ok (timeout_result host), w1)
       ∧ attribute Item.status id w1 = Some "timeout"
       ∧ attribute Item.remediation_output id w1 = Some "Command timed out").
Proof.
  assert (Hcases : ∀ cid, command_id = Some cid → cid ≠ "" →
            wait_for_command B command_id host w = poll B 60 cid host w).
  { intros cid -> Hne. destruct cid; [congruence|]. reflexivity. }
  split; [|split; [|split]].
  - intros Hno. unfold wait_for_command. rewrite Hno. reflexivity.
  - intros cid Hcid Hne. rewrite (Hcases cid Hcid Hne). split.
    + intros k inv Hk Hrun Hat Hterm. now apply poll_terminal.
    + intros Hrun. now rewrite poll_running.
  - destruct (Py.truthy_opt command_id) eqn:Htruthy.
    + destruct command_id as [cid|]; [|discriminate].
      assert (Hne : cid ≠ "") by (intros ->; discriminate).
      rewrite (Hcases cid eq_refl Hne).
      destruct (first_terminal_poll
                  (fun j => still_running (probe B cid host (tick w) j)) 60)
        as [Hrun|[k [Hk [Hrun Hat]]]].
      * rewrite (poll_running B cid host 60 w Hrun).
        do 2 eexists. exists (waited cid host 60).
        destruct (waited_polls cid host 60) as [Hp [_ [_ Hz]]].
        repeat split; [rewrite Hp; lia | rewrite Hz; lia].
      * apply still_running_false in Hat. destruct Hat as [inv [Hat Hterm]].
        rewrite (poll_terminal B cid host 60 w k inv Hk Hrun Hat Hterm).
        do 2 eexists. exists (GetCommandInvocation cid host :: waited cid host k)%list.
        destruct (waited_polls cid host k) as [Hp [_ [_ Hz]]].
        repeat split.
        -- unfold count_calls in *. simpl. rewrite Hp. lia.
        -- unfold slept in *. simpl. rewrite Hz. lia.
    + unfold wait_for_command. rewrite Htruthy. simpl.
      exists None, w, []. split; [reflexivity|]. split; [reflexivity|].
      split; [reflexivity|]. split; [unfold count_calls; simpl; lia|].
      unfold slept; simpl; lia.
  - intros id w0. eexists. split; [reflexivity|].
    unfold attribute. simpl. rewrite lookup_insert_eq. split; reflexivity.
Qed.

End Waiting.

(** C8, witness: no handle; a command that succeeds at the third poll; a
    command that never finishes. *)
Lemma wait_for_command_bounded_witness :
  wait_for_command stuck_executor None "i-123" desk = (Ok None, desk)
  ∧ fst (wait_for_command (executor 9) (Some "cmd-1") "i-123" desk) = Ok (Some succeeded)
  ∧ fst (wait_for_command stuck_executor (Some "cmd-1") "i-123" desk) = Ok None.
Proof.
  split; [|split].
  - exact (proj1 (wait_for_command_bounded stuck_executor calendar None "i-123" desk)
             eq_refl).
  - rewrite (proj1 (proj1 (proj2 (wait_for_command_bounded (executor 9) calendar
                                    (Some "cmd-1") "i-123" desk))
                      "cmd-1" eq_refl ltac:(discriminate))
               2%nat succeeded ltac:(lia)
               ltac:(intros [|[|j]] Hj; [reflexivity | reflexivity | lia])
               eq_refl eq_refl).
    reflexivity.
  - rewrite (proj2 (proj1 (proj2 (wait_for_command_bounded stuck_executor calendar
                                    (Some "cmd-1") "i-123" desk))
                      "cmd-1" eq_refl ltac:(discriminate))
               ltac:(intros j Hj; reflexivity)).
    reflexivity.
Defined.

(** The whole handler in auto mode, on an executor whose commands never
    finish: the incident is written as [executing] and ends as
    [timeout]. *)
Example auto_mode_records_timeout :
  let run := lambda_handler stuck_executor pager auto_environ memory_event empty_world in
  fst run = Ok {| statusCode := 200; body := BodyResults [timeout_result "i-1"] |}
  ∧ attribute Item.status "1705312800_Memory-High_i-1" (snd run) = Some "timeout"
  ∧ count_calls is_poll (trace (snd run)) = 120%nat
  ∧ count_calls is_send (trace (snd run)) = 2%nat.
Proof. vm_compute. repeat split. Qed.

(** * Alarm handling *)

Section Alarm.

Variable B : backend.
Variable L : library.
Variable E : environ.

Local Open Scope nat_scope.

(** Target resolution only reads: it writes nothing, sends no command and
    does not consult the advisor. *)
Lemma get_target_instances_quiet (a : alarm) (w : world) :
  ∃ tr, snd (get_target_instances B E a w)
        = mk_world (table w) (tick w + length tr) (tr ++ trace w) (tasks w)
        ∧ count_calls is_send tr = 0
        ∧ count_calls is_advisor_call tr = 0.
Proof.
  assert (Hnone : ∀ hosts : list string,
            ∃ tr, snd (ret hosts w)
                  = mk_world (table w) (tick w + length tr) (tr ++ trace w) (tasks w)
                  ∧ count_calls is_send tr = 0 ∧ count_calls is_advisor_call tr = 0).
  { intros hosts. exists []. destruct w. simpl. rewrite Nat.add_0_r. repeat split. }
  unfold get_target_instances.
  destruct (Py.truthy_opt (alarm_dimensions a !! "AutoScalingGroupName")).
  - eexists [_]. unfold bind, ask. simpl.
    destruct (describe_auto_scaling_groups B _ _) as [[|g gs]|]; simpl;
      (split; [f_equal; lia | split; reflexivity]).
  - destruct (Py.truthy_opt (alarm_dimensions a !! "TargetGroup")).
    + destruct (negb _); [apply Hnone|].
      eexists [_]. unfold get_unhealthy_targets, bind, ask. simpl.
      destruct (describe_target_health B _ _); simpl;
        (split; [f_equal; lia | split; reflexivity]).
    + destruct (Py.truthy_opt _); apply Hnone.
Qed.

(** C6.  When the alarm resolves to one host, its name is classified and
    the send of the diagnostic commands gives no handle (the send raises,
    or the handle is empty), the handler answers 200 with an empty list of
    results: the table is as before, the diagnostic send is the only
    command sent (there is no second try), and the advisor has not
    run. *)
Theorem failed_dispatch_skips_target (event : lambda_event) (msg : string)
    (rest : list string) (a : alarm) (host : string) (cmds : list string)
    (ty : string) (w w1 : world) :
  Records event = msg :: rest →
  loads_alarm L msg = Some a →
  default "ALARM" (NewStateValue a) = "ALARM" →
  get_target_instances B E a w = (Ok [host], w1) →
  classify (default "Unknown" (AlarmName a)) = Some (cmds, ty) →
  Py.truthy_opt (handle_of (send_command B (S (tick w1)) host (JStr <$> cmds))) = false →
  ∃ w', lambda_handler B L E event w
        = (Ok {| statusCode := 200; body := BodyResults [] |}, w')
        ∧ table w' = table w
        ∧ trace w' = SendCommand host (JStr <$> cmds) :: ReadClock :: trace w1
        ∧ count_calls is_send (trace w') = S (count_calls is_send (trace w))
        ∧ count_calls is_advisor_call (trace w')
          = count_calls is_advisor_call (trace w).
Proof.
  intros Hrec Hloads Hstate Hres Hclass Hsend.
  destruct (get_target_instances_quiet a w) as [tr [Hw1 [Hs Ha]]].
  rewrite Hres in Hw1. simpl in Hw1.
  eexists. split.
  - unfold lambda_handler. rewrite Hrec, Hloads, Hstate. simpl.
    unfold bind at 1. rewrite Hres.
    unfold bind at 1. cbn [handle_targets].
    unfold bind at 1. unfold handle_target.
    unfold bind at 1. unfold time_time, ask at 1. cbv beta iota. rewrite Hclass.
    unfold bind at 1. unfold send_ssm_command, bind at 1, ask at 1. cbv beta iota.
    cbn [tick].
    destruct (send_command B (S (tick w1)) host (JStr <$> cmds)) as [c|e];
      simpl in Hsend; unfold ret at 1; cbv beta iota;
      [change (Py.truthy_opt (Some c)) with (Py.truthy c); rewrite Hsend|];
      reflexivity.
  - rewrite Hw1. cbn [table trace]. split; [reflexivity|]. split; [reflexivity|].
    unfold count_calls in *. simpl. rewrite !List.filter_app, !length_app, Hs, Ha.
    split; reflexivity.
Qed.

End Alarm.

(** C6, witness: a group alarm on the scripted fleet, where the group
    resolves to [i-2] and commands cannot be sent. *)
Lemma failed_dispatch_skips_target_witness :
  ∃ w', lambda_handler fleet fleet_pager plain_environ group_event empty_world
        = (Ok {| statusCode := 200; body := BodyResults [] |}, w')
        ∧ table w' = ∅
        ∧ trace w'
          = [ SendCommand "i-2" [JStr "df -h /"; JStr "ls -lRh /var/log/ | head -n 20"];
              ReadClock; DescribeAutoScalingGroups "sre-demo-asg" ]
        ∧ count_calls is_send (trace w') = 1%nat
        ∧ count_calls is_advisor_call (trace w') = 0%nat.
Proof.
  exact (failed_dispatch_skips_target fleet fleet_pager plain_environ group_event
           group_message [] group_alarm "i-2"
           ["df -h /"; "ls -lRh /var/log/ | head -n 20"] "Disk Critical"
           empty_world
           (mk_world ∅ 1 [DescribeAutoScalingGroups "sre-demo-asg"] [])
           eq_refl eq_refl eq_refl eq_refl eq_refl eq_refl).
Defined.

(** * The remediation advisor *)


Section Advisor.

Variable B : backend.
Variable L : library.
Variable E : environ.



End Advisor.


(** An HTTP error of the service with a body that is not UTF-8 makes
    [ask_genai] raise, with a valid key and whatever the issue type. *)
Example advisor_raises_on_unreadable_error :
  fst (ask_genai garbled calendar keyed_environ "Mem: 97% used" "Memory Exhaustion"
         empty_world) = Raise UnicodeDecodeError.
Proof. vm_compute. reflexivity. Qed.

(** A generated text that is JSON but not an object is returned all the
    same, and the handler, which reads it as a dictionary, raises. *)
Example handler_raises_on_array_answer :
  fst (ask_genai (chatty "[]") calendar keyed_environ "Mem: 97% used"
         "Memory Exhaustion" empty_world) = Ok (JArr [])
  ∧ fst (handle_target (chatty_executor "[]") calendar keyed_environ
           "Memory-High" "" "i-1" empty_world)
    = Raise AttributeError.
Proof. vm_compute. split; reflexivity. Qed.

(** * Statistics *)

(** C9, counterexample.  For two completed incidents, one resolved in
    five minutes and one with equal timestamps, the success rate is 100,
    not the ratio 2/2 = 1, and the mean resolution time is 300 seconds,
    the equal-timestamp incident being left out, not the mean 150 of the
    two resolution times (300 and 0 seconds). *)
Lemma success_rate_is_a_percentage :
  let s := incident_stats calendar two_completed in
  success_rate s = 100%Q
  ∧ (inject_Z (Z.of_nat (completed_count two_completed))
     / inject_Z (Z.of_nat (resolved_count two_completed)) == 1)%Q
  ∧ ¬ (success_rate s == 1)%Q
  ∧ Forall2 Qeq (omap (duration calendar) two_completed) [300%Q; 0%Q]
  ∧ avg_mttr_seconds s = 300%Q
  ∧ (mean (omap (duration calendar) two_completed) == 150)%Q
  ∧ ¬ (avg_mttr_seconds s == 150)%Q.
Proof.
  cbv zeta. split; [vm_compute; reflexivity|]. split; [vm_compute; reflexivity|].
  split; [vm_compute; discriminate|].
  split; [repeat constructor; vm_compute; reflexivity|].
  split; [vm_compute; reflexivity|]. split; [vm_compute; reflexivity|].
  vm_compute; discriminate.
Qed.

Section FloatFacts.

Local Open Scope Q_scope.

Lemma pow2_pos (z : Z) : 0 < 2 ^ z.
Proof. apply Qpower_0_lt. reflexivity. Qed.

Lemma pow2_nat (n : Z) : (0 <= n)%Z -> 2 ^ n == inject_Z (2 ^ n).
Proof. intros Hn. now rewrite (Zpower_Qpower 2 n Hn). Qed.

Lemma frac_lt (x z : Z) (y w : positive) :
  (x * Zpos w < z * Zpos y)%Z -> x # y < z # w.
Proof. intros H. unfold Qlt. simpl. exact H. Qed.

Lemma pow2_quot (a b : Z) :
  (0 <= a)%Z -> (0 <= b)%Z -> 2 ^ (a - b) == (2 ^ a)%Z # Z.to_pos (2 ^ b).
Proof.
  intros Ha Hb. rewrite Qpower_minus by discriminate.
  rewrite (pow2_nat a Ha), (pow2_nat b Hb).
  rewrite (Qmake_Qdiv (2 ^ a) (Z.to_pos (2 ^ b))).
  rewrite Z2Pos.id by (apply Z.pow_pos_nonneg; lia). reflexivity.
Qed.

Lemma ilog2_spec (q : Q) :
  ~ q == 0 -> 2 ^ Float.ilog2 q <= Qabs q ∧ Qabs q < 2 ^ (Float.ilog2 q + 1).
Proof.
  intros Hq. destruct q as [n d].
  assert (Hn : (0 < Z.abs n)%Z).
  { unfold Qeq in Hq. simpl in Hq. lia. }
  unfold Float.ilog2. cbn [Qnum Qden].
  set (a := Z.log2 (Z.abs n)). set (b := Z.log2 (Zpos d)).
  destruct (Z.log2_spec (Z.abs n) Hn) as [Ha1 Ha2].
  destruct (Z.log2_spec (Zpos d) ltac:(lia)) as [Hb1 Hb2].
  fold a in Ha1, Ha2. fold b in Hb1, Hb2.
  assert (Ha : (0 <= a)%Z) by apply Z.log2_nonneg.
  assert (Hb : (0 <= b)%Z) by apply Z.log2_nonneg.
  assert (Habs : Qabs (n # d) = Z.abs n # d) by reflexivity.
  assert (Hpa : (0 < 2 ^ a)%Z) by (apply Z.pow_pos_nonneg; lia).
  assert (Hpb : (0 < 2 ^ b)%Z) by (apply Z.pow_pos_nonneg; lia).
  assert (Hup : Qabs (n # d) < 2 ^ (a - b + 1)).
  { replace (a - b + 1)%Z with (a + 1 - b)%Z by lia.
    rewrite (pow2_quot (a + 1) b) by lia. rewrite Habs. apply frac_lt.
    rewrite Z2Pos.id by lia. replace (Z.succ a) with (a + 1)%Z in Ha2 by lia.
    apply Z.lt_le_trans with (2 ^ (a + 1) * 2 ^ b)%Z;
      [apply Z.mul_lt_mono_pos_r; lia | apply Z.mul_le_mono_nonneg_l; lia]. }
  assert (Hlow : 2 ^ (a - b - 1) < Qabs (n # d)).
  { replace (a - b - 1)%Z with (a - (b + 1))%Z by lia.
    rewrite (pow2_quot a (b + 1)) by lia. rewrite Habs. apply frac_lt.
    rewrite Z2Pos.id by (apply Z.pow_pos_nonneg; lia).
    replace (Z.succ b) with (b + 1)%Z in Hb2 by lia.
    apply Z.lt_le_trans with (2 ^ a * 2 ^ (b + 1))%Z;
      [apply Z.mul_lt_mono_pos_l; lia | apply Z.mul_le_mono_nonneg_r; lia]. }
  destruct (Qle_bool (2 ^ (a - b)) (Qabs (n # d))) eqn:Hle.
  - apply Qle_bool_iff in Hle. split; [exact Hle | exact Hup].
  - split.
    + apply Qlt_le_weak. exact Hlow.
    + replace (a - b - 1 + 1)%Z with (a - b)%Z by lia.
      apply Qnot_le_lt. intros Hc. apply Qle_bool_iff in Hc. congruence.
Qed.

Lemma round_half_even_spec (x : Q) :
  inject_Z (round_half_even x) - x <= 1 # 2 ∧ x - inject_Z (round_half_even x) <= 1 # 2.
Proof.
  unfold round_half_even.
  pose proof (Qfloor_le x) as Hf. pose proof (Qlt_floor x) as Hc.
  rewrite inject_Z_plus in Hc. change (inject_Z 1) with 1 in Hc.
  set (f := Qfloor x) in *.
  destruct (Qcompare_spec (x - inject_Z f) (1 # 2)) as [He|Hl|Hg].
  - destruct (Z.even f);
      [|rewrite inject_Z_plus; change (inject_Z 1) with 1]; split; lra.
  - split; lra.
  - rewrite inject_Z_plus. change (inject_Z 1) with 1. split; lra.
Qed.

Lemma round_eq (q : Q) :
  ~ q == 0 ->
  Float.round q
  == inject_Z (round_half_even (q / 2 ^ (Float.ilog2 q - 52))) * 2 ^ (Float.ilog2 q - 52).
Proof.
  intros Hq. unfold Float.round.
  destruct (Qeq_bool q 0) eqn:H0; [apply Qeq_bool_iff in H0; contradiction|].
  apply Qred_correct.
Qed.

(** The scaled value of a positive [q] is at least [2^52]. *)
Lemma scaled_large (q : Q) :
  0 < q -> 4503599627370496 <= q / 2 ^ (Float.ilog2 q - 52).
Proof.
  intros Hq.
  assert (Hne : ~ q == 0) by lra.
  destruct (ilog2_spec q Hne) as [Hlow _].
  rewrite Qabs_pos in Hlow by lra.
  set (k := Float.ilog2 q) in *.
  pose proof (pow2_pos (k - 52)) as Hp.
  apply Qle_shift_div_l; [exact Hp|].
  assert (Hk : 2 ^ k == 4503599627370496 * 2 ^ (k - 52)).
  { replace k with (52 + (k - 52))%Z at 1 by lia.
    rewrite Qpower_plus by discriminate. reflexivity. }
  rewrite <- Hk. exact Hlow.
Qed.

Lemma round_bounds (q : Q) :
  0 <= q ->
  q * (1 - Float.unit_roundoff) <= Float.round q ∧ Float.round q <= q * (1 + Float.unit_roundoff).
Proof.
  intros Hq0. destruct (Qeq_dec q 0) as [Hz|Hne].
  - assert (Hr : Float.round q == 0).
    { unfold Float.round. apply Qeq_bool_iff in Hz. rewrite Hz. reflexivity. }
    rewrite Hr, Hz. split; lra.
  - assert (Hq : 0 < q) by lra.
    rewrite (round_eq q Hne).
    pose proof (scaled_large q Hq) as Hbig.
    set (p := 2 ^ (Float.ilog2 q - 52)) in *.
    assert (Hp : 0 < p) by apply pow2_pos.
    set (y := q / p) in *.
    assert (Hqy : q == y * p) by (unfold y; field; lra).
    destruct (round_half_even_spec y) as [H1 H2].
    set (m := inject_Z (round_half_even y)) in *.
    unfold Float.unit_roundoff.
    assert (Hm1 : y * (1 - (1 # 9007199254740992)) <= m) by lra.
    assert (Hm2 : m <= y * (1 + (1 # 9007199254740992))) by lra.
    split.
    + rewrite Hqy.
      setoid_replace (y * p * (1 - (1 # 9007199254740992)))
        with (y * (1 - (1 # 9007199254740992)) * p) using relation Qeq by ring.
      apply Qmult_le_compat_r; lra.
    + rewrite Hqy.
      setoid_replace (y * p * (1 + (1 # 9007199254740992)))
        with (y * (1 + (1 # 9007199254740992)) * p) using relation Qeq by ring.
      apply Qmult_le_compat_r; lra.
Qed.

Lemma round_pos (q : Q) : 0 < q -> 0 < Float.round q.
Proof.
  intros Hq. destruct (round_bounds q ltac:(lra)) as [Hl _].
  unfold Float.unit_roundoff in Hl. lra.
Qed.

Lemma round_nonpos (q : Q) : q <= 0 -> Float.round q <= 0.
Proof.
  intros Hq. destruct (Qeq_dec q 0) as [Hz|Hne].
  - unfold Float.round. apply Qeq_bool_iff in Hz. rewrite Hz. lra.
  - assert (Hlt : q < 0) by lra.
    rewrite (round_eq q Hne).
    destruct (ilog2_spec q Hne) as [Hlow _].
    rewrite Qabs_neg in Hlow by lra.
    set (k := Float.ilog2 q) in *.
    pose proof (pow2_pos (k - 52)) as Hp.
    set (p := 2 ^ (k - 52)) in *.
    destruct (round_half_even_spec (q / p)) as [H1 _].
    assert (Hy : q / p < 0).
    { apply Qlt_shift_div_r; lra. }
    assert (Hk : 2 ^ k == 4503599627370496 * p).
    { unfold p. replace k with (52 + (k - 52))%Z at 1 by lia.
      rewrite Qpower_plus by discriminate. reflexivity. }
    assert (Hy2 : q / p <= - (4503599627370496)).
    { apply Qle_shift_div_r; [exact Hp|]. lra. }
    set (m := inject_Z (round_half_even (q / p))) in *.
    assert (Hm : m <= 0) by lra.
    setoid_replace 0 with (0 * p) using relation Qeq by ring.
    apply Qmult_le_compat_r; lra.
Qed.

(** The success rate of the code is within a twentieth, and the errors of
    four roundings to doubles, of the exact percentage. *)
Lemma success_rate_accuracy (c r : nat) :
  (0 < r)%nat -> (c <= r)%nat ->
  Qabs (round1 (Float.mul (Float.div (inject_Z (Z.of_nat c)) (inject_Z (Z.of_nat r))) 100)
        - 100 * (inject_Z (Z.of_nat c) / inject_Z (Z.of_nat r)))
  <= (1 # 20) + (1 # 10000000000000).
Proof.
  intros Hr Hc.
  set (x := inject_Z (Z.of_nat c) / inject_Z (Z.of_nat r)).
  assert (Hrq : 0 < inject_Z (Z.of_nat r)).
  { unfold Qlt. simpl. lia. }
  assert (Hx0 : 0 <= x).
  { unfold x. apply Qle_shift_div_l; [exact Hrq|]. rewrite Qmult_0_l.
    unfold Qle. simpl. lia. }
  assert (Hx1 : x <= 1).
  { unfold x. apply Qle_shift_div_r; [exact Hrq|]. rewrite Qmult_1_l.
    unfold Qle. simpl. lia. }
  unfold Float.mul, Float.div, round1. fold x.
  destruct (round_bounds x Hx0) as [Ha1 Ha2].
  set (a := Float.round x) in *.
  assert (Ha0 : 0 <= a) by (unfold Float.unit_roundoff in Ha1; lra).
  destruct (round_bounds (a * 100) ltac:(lra)) as [Hb1 Hb2].
  set (b := Float.round (a * 100)) in *.
  assert (Hb0 : 0 <= b) by (unfold Float.unit_roundoff in Hb1; lra).
  destruct (round_half_even_spec (b * 10)) as [Hn1 Hn2].
  set (n := round_half_even (b * 10)) in *.
  assert (Hn0 : 0 <= inject_Z n).
  { assert (Hlt : -1 < inject_Z n) by lra.
    unfold Qlt in Hlt. unfold Qle. simpl in *. lia. }
  destruct (round_bounds (inject_Z n / 10)) as [Hs1 Hs2].
  { apply Qle_shift_div_l; lra. }
  set (t := inject_Z n / 10) in *.
  assert (Ht : inject_Z n == 10 * t) by (unfold t; field).
  set (s := Float.round t) in *.
  unfold Float.unit_roundoff in *.
  apply Qabs_Qle_condition. split; lra.
Qed.

Lemma round_half_even_le (x : Q) (n : Z) :
  x <= inject_Z n -> (round_half_even x <= n)%Z.
Proof.
  intros Hx. unfold round_half_even.
  pose proof (Qfloor_le x) as Hf.
  assert (Hfn : (Qfloor x <= n)%Z).
  { rewrite <- (Qfloor_Z n). now apply Qfloor_resp_le. }
  set (f := Qfloor x) in *.
  assert (Hstep : 0 < x - inject_Z f -> (f + 1 <= n)%Z).
  { intros Hpos. assert (Hlt : inject_Z f < inject_Z n) by lra.
    unfold Qlt in Hlt. simpl in Hlt. lia. }
  destruct (Qcompare_spec (x - inject_Z f) (1 # 2)) as [He|Hl|Hg].
  - destruct (Z.even f); [exact Hfn|]. apply Hstep. lra.
  - exact Hfn.
  - apply Hstep. lra.
Qed.

Lemma round_half_even_ge (x : Q) (n : Z) :
  inject_Z n <= x -> (n <= round_half_even x)%Z.
Proof.
  intros Hx. unfold round_half_even.
  assert (Hfn : (n <= Qfloor x)%Z).
  { rewrite <- (Qfloor_Z n). now apply Qfloor_resp_le. }
  set (f := Qfloor x) in *.
  destruct (x - inject_Z f ?= 1 # 2); [destruct (Z.even f)| |]; lia.
Qed.

Lemma pow2_le (a b : Z) : (a <= b)%Z -> 2 ^ a <= 2 ^ b.
Proof.
  intros Hab. replace b with (a + (b - a))%Z by lia.
  rewrite Qpower_plus by discriminate.
  pose proof (pow2_pos a) as Ha.
  assert (H1 : 1 <= 2 ^ (b - a)).
  { rewrite (pow2_nat (b - a)) by lia.
    assert (Hz : (1 <= 2 ^ (b - a))%Z) by (apply Z.lt_pred_le, Z.pow_pos_nonneg; lia).
    unfold Qle. simpl. lia. }
  setoid_replace (2 ^ a) with (2 ^ a * 1) using relation Qeq at 1 by ring.
  apply Qmult_le_l; assumption.
Qed.

(** A positive number below an integer of at most 53 bits is not rounded
    above it. *)
Lemma round_le_int (q : Q) (b : Z) :
  0 < q -> q <= inject_Z b -> (b <= 2 ^ 53)%Z -> Float.round q <= inject_Z b.
Proof.
  intros Hq Hqb Hb.
  assert (Hne : ~ q == 0) by lra.
  destruct (ilog2_spec q Hne) as [Hlow _].
  rewrite Qabs_pos in Hlow by lra.
  rewrite (round_eq q Hne).
  remember (Float.ilog2 q) as k eqn:Heqk. clear Heqk.
  assert (Hk : (k <= 53)%Z).
  { destruct (Z.le_gt_cases k 53%Z) as [Hle|Hgt]; [exact Hle|].
    pose proof (pow2_le 54%Z k ltac:(lia)) as H54.
    assert (Hb' : inject_Z b <= 9007199254740992).
    { unfold Qle. simpl. lia. }
    assert (H54' : 2 ^ 54 == 18014398509481984) by reflexivity.
    lra. }
  destruct (Z.eq_dec k 53%Z) as [H53|Hn53].
  - (* q = b = 2^53 *)
    assert (Hb' : inject_Z b <= 9007199254740992) by (unfold Qle; simpl; lia).
    assert (Hp53 : 2 ^ 53 == 9007199254740992) by reflexivity.
    subst k. change (53 - 52)%Z with 1%Z.
    assert (Hq53 : q == 9007199254740992) by lra.
    assert (Hb53 : inject_Z b == 9007199254740992) by lra.
    rewrite Hb53.
    assert (Hs : q / 2 ^ 1 == inject_Z 4503599627370496).
    { rewrite Hq53. reflexivity. }
    pose proof (round_half_even_le _ _ (proj2 (Qle_lteq _ _) (or_intror Hs))) as Hr.
    assert (Hr' : inject_Z (round_half_even (q / 2 ^ 1)) <= 4503599627370496).
    { unfold Qle, inject_Z. cbn [Qnum Qden]. lia. }
    change (2 ^ 1) with 2 in *. lra.
  - set (e := (k - 52)%Z).
    assert (He : (e <= 0)%Z) by (unfold e; lia).
    pose proof (pow2_pos e) as Hp.
    assert (Hinv : / 2 ^ e == inject_Z (2 ^ (- e))).
    { rewrite <- Qpower_opp. apply pow2_nat. lia. }
    assert (Hs : q / 2 ^ e <= inject_Z (b * 2 ^ (- e))).
    { rewrite inject_Z_mult, <- Hinv. unfold Qdiv.
      apply Qmult_le_compat_r; [exact Hqb|]. apply Qinv_le_0_compat. lra. }
    pose proof (round_half_even_le _ _ Hs) as Hr.
    assert (Hr' : inject_Z (round_half_even (q / 2 ^ e)) <= inject_Z b * / 2 ^ e).
    { rewrite Hinv, <- inject_Z_mult. unfold Qle. simpl. lia. }
    setoid_replace (inject_Z b) with (inject_Z b * / 2 ^ e * 2 ^ e) using relation Qeq
      by (field; lra).
    apply Qmult_le_compat_r; lra.
Qed.

Lemma round_nonneg (q : Q) : 0 <= q -> 0 <= Float.round q.
Proof.
  intros Hq. destruct (round_bounds q Hq) as [Hl _].
  unfold Float.unit_roundoff in Hl. lra.
Qed.

Lemma round_range (q : Q) (b : Z) :
  0 <= q -> q <= inject_Z b -> (b <= 2 ^ 53)%Z ->
  0 <= Float.round q ∧ Float.round q <= inject_Z b.
Proof.
  intros Hq Hqb Hb. split; [now apply round_nonneg|].
  destruct (Qeq_dec q 0) as [Hz|Hne].
  - unfold Float.round. apply Qeq_bool_iff in Hz. rewrite Hz. lra.
  - apply round_le_int; [lra | exact Hqb | exact Hb].
Qed.

Lemma round1_range (x : Q) (b : Z) :
  0 <= x -> x <= inject_Z b -> (b <= 2 ^ 49)%Z ->
  0 <= round1 x ∧ round1 x <= inject_Z b.
Proof.
  intros Hx Hxb Hb. unfold round1.
  assert (Hlow : (0 <= round_half_even (x * 10))%Z).
  { apply round_half_even_ge. change (inject_Z 0) with 0. lra. }
  assert (Hhigh : (round_half_even (x * 10) <= b * 10)%Z).
  { apply round_half_even_le. rewrite inject_Z_mult. change (inject_Z 10) with 10. lra. }
  set (n := round_half_even (x * 10)) in *.
  apply round_range.
  - apply Qle_shift_div_l; [reflexivity|]. unfold Qle. simpl. lia.
  - apply Qle_shift_div_r; [reflexivity|]. unfold Qle. simpl. lia.
  - lia.
Qed.

Lemma round_zero (q : Q) : q == 0 -> Float.round q = 0.
Proof.
  intros Hz. unfold Float.round. apply Qeq_bool_iff in Hz. now rewrite Hz.
Qed.

Lemma Qred_inject_Z (n : Z) : Qred (inject_Z n) = inject_Z n.
Proof.
  unfold Qred, inject_Z.
  pose proof (Z.ggcd_gcd n 1) as Hg. pose proof (Z.ggcd_correct_divisors n 1) as Hd.
  destruct (Z.ggcd n 1) as [g [aa bb]]. simpl in *. rewrite Z.gcd_1_r in Hg. subst g.
  destruct Hd as [Ha Hb]. replace aa with n by lia. replace bb with 1%Z by lia.
  reflexivity.
Qed.

(** A positive integer below [2^53] is a double. *)
Lemma round_of_int (q : Q) (n : Z) :
  (0 < n)%Z -> (n < 2 ^ 53)%Z -> q == inject_Z n -> Float.round q = inject_Z n.
Proof.
  intros Hn0 Hn Hq.
  assert (Hpos : 0 < inject_Z n) by (unfold Qlt; simpl; lia).
  assert (Hne : ~ q == 0) by lra.
  unfold Float.round.
  destruct (Qeq_bool q 0) eqn:H0; [apply Qeq_bool_iff in H0; contradiction|].
  rewrite <- (Qred_inject_Z n).
  apply Qred_complete.
  destruct (ilog2_spec q Hne) as [Hlow _].
  rewrite Qabs_pos in Hlow by lra.
  remember (Float.ilog2 q) as k eqn:Heqk. clear Heqk.
  assert (Hk : (k <= 52)%Z).
  { destruct (Z.le_gt_cases k 52%Z) as [Hle|Hgt]; [exact Hle|].
    pose proof (pow2_le 53%Z k ltac:(lia)) as H53.
    assert (Hb' : inject_Z n < 9007199254740992) by (unfold Qlt; simpl; lia).
    assert (H53' : 2 ^ 53 == 9007199254740992) by reflexivity.
    lra. }
  set (e := (k - 52)%Z).
  assert (He : (e <= 0)%Z) by (unfold e; lia).
  pose proof (pow2_pos e) as Hp.
  assert (Hinv : / 2 ^ e == inject_Z (2 ^ (- e))).
  { rewrite <- Qpower_opp. apply pow2_nat. lia. }
  assert (Hs : q / 2 ^ e == inject_Z (n * 2 ^ (- e))).
  { rewrite inject_Z_mult, <- Hinv, Hq. reflexivity. }
  assert (Hr : round_half_even (q / 2 ^ e) = (n * 2 ^ (- e))%Z).
  { apply Z.le_antisymm.
    - apply round_half_even_le. rewrite Hs. apply Qle_refl.
    - apply round_half_even_ge. rewrite Hs. apply Qle_refl. }
  rewrite Hr, inject_Z_mult, <- Hinv. field. lra.
Qed.

Lemma round1_hundred : round1 (inject_Z 100) = 100.
Proof. vm_compute. reflexivity. Qed.

End FloatFacts.

Section Statistics.

Variable L : library.

Lemma sum_counts_incr (s : string) (counts : list (string * nat)) :
  sum_counts (incr s counts) = S (sum_counts counts).
Proof.
  induction counts as [|[k n] rest IH]; [reflexivity|].
  simpl. destruct (String.eqb k s); simpl; [lia|]. rewrite IH. lia.
Qed.

Lemma count_statuses_sum (items : list Item.t) :
  sum_counts (count_statuses items) = length items.
Proof.
  unfold count_statuses.
  assert (H : ∀ acc, sum_counts
                      (foldl (fun counts i =>
                                incr (default "unknown" (Item.status i)) counts)
                         acc items)
                    = (sum_counts acc + length items)%nat).
  { induction items as [|i items IH]; intros acc; simpl; [lia|].
    rewrite IH, sum_counts_incr. lia. }
  now rewrite H.
Qed.

Lemma resolved_partition (items : list Item.t) :
  resolved_count items
  = (count_if (has_status "completed") items + count_if (has_status "failed") items
     + count_if (has_status "rejected") items)%nat.
Proof.
  unfold resolved_count, count_if, has_status, status_in.
  induction items as [|i items IH]; [reflexivity|].
  simpl in *. destruct (Item.status i) as [s|]; [|exact IH]. simpl in *.
  destruct (String.eqb_spec s "completed") as [->|Hc]; simpl in *; [lia|].
  destruct (String.eqb_spec s "failed") as [->|Hf]; simpl in *; [lia|].
  destruct (String.eqb_spec s "rejected") as [->|Hr]; simpl in *; lia.
Qed.

Lemma filter_filter_length {A} (p q : A → bool) (l : list A) :
  (∀ x, p x = true → q x = true) →
  length (List.filter p (List.filter q l)) = length (List.filter p l).
Proof.
  intros Hpq. induction l as [|x l IH]; [reflexivity|].
  simpl. destruct (q x) eqn:Hq; simpl.
  - destruct (p x); simpl; now rewrite IH.
  - destruct (p x) eqn:Hp; [|exact IH]. apply Hpq in Hp. congruence.
Qed.

Lemma mttr_value_measured (i : Item.t) :
  mttr_value L i = if measured L i then duration L i else None.
Proof.
  unfold mttr_value, measured, duration.
  destruct (status_in ["completed"; "failed"] i); [|reflexivity]. simpl.
  destruct (Py.truthy_opt (Item.created_at i)); [|reflexivity]. simpl.
  destruct (Py.truthy_opt (Item.updated_at i)); [|reflexivity]. simpl.
  destruct (parse_timestamp L (default "" (Item.created_at i))); [|reflexivity]. simpl.
  destruct (parse_timestamp L (default "" (Item.updated_at i))) as [u|]; [|reflexivity].
  simpl. destruct (datetime_sub u d); [|reflexivity]. simpl.
  destruct (Qlt_le_dec 0 (total_seconds z)); reflexivity.
Qed.

Lemma mttr_values_measured (items : list Item.t) :
  mttr_values L items = omap (duration L) (List.filter (measured L) items).
Proof.
  unfold mttr_values. induction items as [|i items IH]; [reflexivity|].
  change (omap (mttr_value L) (i :: items))
    with (match mttr_value L i with
          | Some d => d :: omap (mttr_value L) items
          | None => omap (mttr_value L) items
          end).
  rewrite mttr_value_measured, IH. cbn [List.filter].
  destruct (measured L i); reflexivity.
Qed.

Lemma mttr_float_value (i : Item.t) :
  mttr_float L i = Float.round <$> mttr_value L i.
Proof.
  unfold mttr_float, mttr_value, float_seconds.
  destruct (status_in ["completed"; "failed"] i && Py.truthy_opt (Item.created_at i)
            && Py.truthy_opt (Item.updated_at i)); [|reflexivity].
  destruct (parse_timestamp L (default "" (Item.created_at i))) as [c|]; [|reflexivity].
  destruct (parse_timestamp L (default "" (Item.updated_at i))) as [u|]; [|reflexivity].
  simpl. destruct (datetime_sub u c) as [us|]; [|reflexivity]. simpl.
  destruct (Qlt_le_dec 0 (Float.round (total_seconds us))) as [Hf|Hf],
           (Qlt_le_dec 0 (total_seconds us)) as [He|He]; try reflexivity.
  - pose proof (round_nonpos _ He) as Hn. exfalso. lra.
  - pose proof (round_pos _ He) as Hp. exfalso. lra.
Qed.

Lemma mttr_floats_values (items : list Item.t) :
  mttr_floats L items = Float.round <$> mttr_values L items.
Proof.
  unfold mttr_floats, mttr_values. induction items as [|i items IH]; [reflexivity|].
  change (omap (mttr_float L) (i :: items))
    with (match mttr_float L i with
          | Some d => d :: omap (mttr_float L) items
          | None => omap (mttr_float L) items
          end).
  change (omap (mttr_value L) (i :: items))
    with (match mttr_value L i with
          | Some d => d :: omap (mttr_value L) items
          | None => omap (mttr_value L) items
          end).
  rewrite mttr_float_value, IH. destruct (mttr_value L i); reflexivity.
Qed.

Lemma float_success_rate_resolved (items : list Item.t) :
  float_success_rate items = float_success_rate (List.filter is_resolved items).
Proof.
  unfold float_success_rate, resolved_count, completed_count, count_if.
  rewrite !filter_filter_length; [reflexivity| |];
    intros x; unfold is_resolved, status_in; destruct (Item.status x); try easy;
    simpl; intros H; try exact H.
  apply orb_true_iff in H as [H|H]; [|discriminate]. now rewrite H.
Qed.

Lemma completed_le_resolved (items : list Item.t) :
  (completed_count items <= resolved_count items)%nat.
Proof.
  unfold completed_count, resolved_count, count_if.
  rewrite <- (filter_filter_length (status_in ["completed"])
                (status_in ["completed"; "failed"; "rejected"])).
  - apply List.filter_length_le.
  - intros x. unfold status_in. destruct (Item.status x); [|discriminate].
    simpl. intros H. apply orb_true_iff in H as [H|H]; [|discriminate]. now rewrite H.
Qed.

(** C9, as amended.  For a table of [N] items the statistics give the
    total [N] and per-status counts that sum to [N] (an item without a
    status counting as [unknown]); the number of resolved incidents, which
    are the completed, the failed and the rejected ones; a success rate
    that depends on the resolved incidents only, is 0 when there are
    none, and otherwise is [completed / resolved * 100] computed in
    floats and rounded to one decimal, which is within 0.05 and a float
    error of the exact percentage; and a mean resolution time that is 0
    when no incident counts for it, and otherwise the float sum of the
    resolution times, divided by their number and rounded to one
    decimal, the resolution times being those, as floats, of the
    incidents that are completed or failed and have two valid timestamps
    and a positive resolution time. *)
Theorem incident_stats_aggregate (w : world) :
  let items := snd <$> map_to_list (table w) in
  let s := incident_stats L items in
  let resolved := resolved_count items in
  let completed := completed_count items in
  let times := omap (duration L) (List.filter (measured L) items) in
  fst (get_incident_stats L w) = Ok s
  ∧ total s = size (table w)
  ∧ sum_counts (status_counts s) = size (table w)
  ∧ total_resolved s = resolved
  ∧ resolved
    = (count_if (has_status "completed") items + count_if (has_status "failed") items
       + count_if (has_status "rejected") items)%nat
  ∧ completed = count_if (has_status "completed") items
  ∧ success_rate s = round1 (float_success_rate items)
  ∧ float_success_rate items = float_success_rate (List.filter is_resolved items)
  ∧ (resolved = 0%nat → success_rate s = 0%Q)
  ∧ ((0 < resolved)%nat →
     float_success_rate items
     = Float.mul (Float.div (inject_Z (Z.of_nat completed))
                            (inject_Z (Z.of_nat resolved))) 100
     ∧ (Qabs (success_rate s
              - 100 * (inject_Z (Z.of_nat completed) / inject_Z (Z.of_nat resolved)))
        <= (1 # 20) + (1 # 10000000000000))%Q)
  ∧ avg_mttr_seconds s = round1 (float_avg_mttr L items)
  ∧ mttr_floats L items = Float.round <$> times
  ∧ (times = [] → avg_mttr_seconds s = 0%Q)
  ∧ (times ≠ [] →
     float_avg_mttr L items
     = Float.div (Float.sum (compensated_sum L) (Float.round <$> times))
                 (Float.of_int (Z.of_nat (length times)))).
Proof.
  intros items s resolved completed times.
  assert (Hlen : length items = size (table w)).
  { unfold items. now rewrite length_fmap, length_map_to_list. }
  assert (Htimes : mttr_floats L items = Float.round <$> times).
  { rewrite mttr_floats_values. unfold times. now rewrite mttr_values_measured. }
  split; [reflexivity|]. split; [exact Hlen|].
  split; [simpl; now rewrite count_statuses_sum|].
  split; [reflexivity|]. split; [apply resolved_partition|].
  split; [reflexivity|]. split; [reflexivity|].
  split; [apply float_success_rate_resolved|]. split.
  { intros H0. simpl. unfold float_success_rate. fold resolved. now rewrite H0. }
  split.
  { intros Hpos.
    assert (Heq : float_success_rate items
                  = Float.mul (Float.div (inject_Z (Z.of_nat completed))
                                         (inject_Z (Z.of_nat resolved))) 100).
    { unfold float_success_rate. fold resolved completed.
      destruct (Nat.ltb_spec 0 resolved) as [_|Hle]; [reflexivity|lia]. }
    split; [exact Heq|]. simpl success_rate. rewrite Heq.
    apply success_rate_accuracy; [exact Hpos | apply completed_le_resolved]. }
  split; [reflexivity|]. split; [exact Htimes|].
  simpl avg_mttr_seconds. unfold float_avg_mttr. rewrite Htimes. split.
  - intros ->. reflexivity.
  - intros Hne. destruct times as [|d l]; [congruence|].
    rewrite !fmap_cons. cbn [length]. rewrite length_fmap. reflexivity.
Qed.

End Statistics.

(** C9, witness: the table of the dashboard's statistics test. *)
Lemma incident_stats_aggregate_witness :
  let items := snd <$> map_to_list (table stats_desk) in
  (Qabs (success_rate (incident_stats calendar items)
         - 100 * (inject_Z (Z.of_nat (completed_count items))
                  / inject_Z (Z.of_nat (resolved_count items))))
   <= (1 # 20) + (1 # 10000000000000))%Q
  ∧ float_avg_mttr calendar items
    = Float.div (Float.sum (compensated_sum calendar)
                   (Float.round
                      <$> omap (duration calendar)
                            (List.filter (measured calendar) items)))
                (Float.of_int
                   (Z.of_nat (length (omap (duration calendar)
                                        (List.filter (measured calendar) items))))).
Proof.
  split.
  - exact (proj2 (proj1 (proj2 (proj2 (proj2 (proj2 (proj2 (proj2 (proj2 (proj2 (proj2
             (incident_stats_aggregate calendar stats_desk))))))))))
             ltac:(vm_compute; lia))).
  - exact (proj2 (proj2 (proj2 (proj2 (proj2 (proj2 (proj2 (proj2 (proj2 (proj2
             (proj2 (proj2 (proj2
             (incident_stats_aggregate calendar stats_desk)))))))))))))
             ltac:(vm_compute; discriminate)).
Defined.

(** The statistics of that table: two incidents, one completed and one
    failed, a success rate of 50 percent and a mean resolution time of
    450 seconds. *)
Example stats_of_the_dashboard_test :
  fst (get_incident_stats calendar stats_desk)
  = Ok {| total := 2; status_counts := [("completed", 1%nat); ("failed", 1%nat)];
          avg_mttr_seconds := 450; success_rate := 50; total_resolved := 2 |}.
Proof. vm_compute. reflexivity. Qed.

(** With 23 completed among 80 resolved incidents the exact percentage
    is 28.75; the floats give 28.749999999999996 and the success rate is
    the double nearest to 28.7. *)
Example success_rate_of_23_in_80 :
  let items := (repeat (stats_item "c" "completed" "" "") 23%nat
                ++ repeat (stats_item "f" "failed" "" "") 57%nat)%list in
  success_rate (incident_stats calendar items) = Float.round (287 # 10)
  ∧ (100 * (23 / 80) == 2875 # 100)%Q
  ∧ (float_success_rate items < 2875 # 100)%Q.
Proof. vm_compute. repeat split. Qed.

(** * Further properties of the alarm handler *)

Section HandlerEdges.

Variable B : backend.
Variable L : library.
Variable E : environ.

Local Open Scope nat_scope.
Local Open Scope list_scope.

(** X1.  An event whose alarm is in a state other than [ALARM] is answered
    with 200 and [Ignored: not in ALARM state]; the handler resolves no
    target and makes no call at all: the state is the one before. *)
Theorem non_alarm_state_ignored (event : lambda_event) (msg : string)
    (rest : list string) (a : alarm) (st : string) (w : world) :
  Records event = msg :: rest →
  loads_alarm L msg = Some a →
  NewStateValue a = Some st → st ≠ "ALARM" →
  lambda_handler B L E event w
  = (Ok {| statusCode := 200; body := BodyText "Ignored: not in ALARM state" |}, w).
Proof.
  intros Hrec Hloads Hst Hne. unfold lambda_handler. rewrite Hrec, Hloads, Hst.
  simpl. destruct (String.eqb_spec st "ALARM") as [->|_]; [congruence|]. reflexivity.
Qed.

(** X2.  When the alarm resolves to no host, the handler answers 400 with
    [No targets found]: it has sent no command, read no clock, consulted
    no advisor and written nothing. *)
Theorem no_targets_reported (event : lambda_event) (msg : string)
    (rest : list string) (a : alarm) (w w1 : world) :
  Records event = msg :: rest →
  loads_alarm L msg = Some a →
  default "ALARM" (NewStateValue a) = "ALARM" →
  get_target_instances B E a w = (Ok [], w1) →
  lambda_handler B L E event w
  = (Ok {| statusCode := 400; body := BodyJsonString "No targets found" |}, w1)
  ∧ table w1 = table w
  ∧ count_calls is_send (trace w1) = count_calls is_send (trace w)
  ∧ count_calls is_advisor_call (trace w1) = count_calls is_advisor_call (trace w).
Proof.
  intros Hrec Hloads Hstate Hres.
  destruct (get_target_instances_quiet B E a w) as [tr [Hw1 [Hs Ha]]].
  rewrite Hres in Hw1. simpl in Hw1. split.
  - unfold lambda_handler. rewrite Hrec, Hloads, Hstate. simpl.
    unfold bind at 1. rewrite Hres. reflexivity.
  - rewrite Hw1. cbn [table trace]. split; [reflexivity|].
    unfold count_calls in *. rewrite !List.filter_app, !length_app, Hs, Ha.
    split; reflexivity.
Qed.

(** The loop over the targets for an alarm whose name is in no category:
    one clock reading per target, and nothing else. *)
Lemma handle_targets_unclassified (alarm_name alarm_desc : string) :
  classify alarm_name = None →
  ∀ targets results w,
    handle_targets B L E alarm_name alarm_desc targets results w
    = (Ok results,
       mk_world (table w) (tick w + length targets)
         (replicate (length targets) ReadClock ++ trace w) (tasks w)).
Proof.
  intros Hclass targets. induction targets as [|t targets IH]; intros results w.
  - destruct w. simpl. rewrite Nat.add_0_r. reflexivity.
  - cbn [handle_targets]. unfold bind at 1. unfold handle_target.
    unfold bind at 1. unfold time_time, ask at 1. cbv beta iota. rewrite Hclass.
    unfold ret at 1. cbv beta iota. rewrite IH. cbn [table tick trace tasks length].
    replace (S (tick w) + length targets) with (tick w + S (length targets)) by lia.
    replace (replicate (length targets) ReadClock ++ ReadClock :: trace w)
      with (replicate (S (length targets)) ReadClock ++ trace w); [reflexivity|].
    change (ReadClock :: trace w) with ([ReadClock] ++ trace w).
    rewrite app_assoc. f_equal.
    change [ReadClock] with (replicate 1 ReadClock).
    rewrite <- replicate_add. f_equal. lia.
Qed.

(** X3.  An alarm whose name contains none of [Disk], [Nginx], [Service]
    and [Memory] is skipped for every target it resolves to: the handler
    answers 200 with an empty list of results, having sent no command,
    consulted no advisor and written no incident. *)
Theorem unclassified_alarm_skipped (event : lambda_event) (msg : string)
    (rest : list string) (a : alarm) (targets : list string) (w w1 : world) :
  Records event = msg :: rest →
  loads_alarm L msg = Some a →
  default "ALARM" (NewStateValue a) = "ALARM" →
  get_target_instances B E a w = (Ok targets, w1) → targets ≠ [] →
  classify (default "Unknown" (AlarmName a)) = None →
  ∃ w', lambda_handler B L E event w
        = (Ok {| statusCode := 200; body := BodyResults [] |}, w')
        ∧ table w' = table w
        ∧ trace w' = replicate (length targets) ReadClock ++ trace w1
        ∧ count_calls is_send (trace w') = count_calls is_send (trace w)
        ∧ count_calls is_advisor_call (trace w')
          = count_calls is_advisor_call (trace w).
Proof.
  intros Hrec Hloads Hstate Hres Hne Hclass.
  destruct (get_target_instances_quiet B E a w) as [tr [Hw1 [Hs Ha]]].
  rewrite Hres in Hw1. simpl in Hw1.
  assert (Hcount : ∀ p n, p ReadClock = false →
            count_calls p (replicate n ReadClock) = 0).
  { intros p n Hp. unfold count_calls. induction n as [|n IHn]; [reflexivity|].
    simpl. now rewrite Hp. }
  eexists. split.
  - unfold lambda_handler. rewrite Hrec, Hloads, Hstate. simpl.
    unfold bind at 1. rewrite Hres. destruct targets as [|t ts]; [congruence|].
    unfold bind at 1. rewrite (handle_targets_unclassified _ _ Hclass). reflexivity.
  - cbn [table trace]. rewrite Hw1. cbn [table trace]. split; [reflexivity|].
    split; [reflexivity|].
    unfold count_calls in *. rewrite !List.filter_app, !length_app, Hs, Ha.
    rewrite !Hcount by reflexivity. split; reflexivity.
Qed.

End HandlerEdges.

(** X1, witness: the event of the handler's own test. *)
Lemma non_alarm_state_ignored_witness :
  lambda_handler fleet switchboard plain_environ {| Records := [ok_message] |}
    empty_world
  = (Ok {| statusCode := 200; body := BodyText "Ignored: not in ALARM state" |},
     empty_world).
Proof.
  exact (non_alarm_state_ignored fleet switchboard plain_environ
           {| Records := [ok_message] |} ok_message [] ok_alarm "OK" empty_world
           eq_refl eq_refl eq_refl ltac:(discriminate)).
Defined.

(** X2, witness: an alarm whose only dimension is not a known one. *)
Lemma no_targets_reported_witness :
  lambda_handler fleet switchboard plain_environ {| Records := [stray_message] |}
    empty_world
  = (Ok {| statusCode := 400; body := BodyJsonString "No targets found" |}, empty_world).
Proof.
  exact (proj1 (no_targets_reported fleet switchboard plain_environ
                  {| Records := [stray_message] |} stray_message [] stray_alarm
                  empty_world empty_world eq_refl eq_refl eq_refl eq_refl)).
Defined.

(** X3, witness: a CPU alarm on a group with two members in service. *)
Lemma unclassified_alarm_skipped_witness :
  ∃ w', lambda_handler wide_fleet switchboard plain_environ
          {| Records := [cpu_message] |} empty_world
        = (Ok {| statusCode := 200; body := BodyResults [] |}, w')
        ∧ table w' = ∅
        ∧ trace w' = [ReadClock; ReadClock; DescribeAutoScalingGroups "sre-demo-asg"]
        ∧ count_calls is_send (trace w') = 0%nat
        ∧ count_calls is_advisor_call (trace w') = 0%nat.
Proof.
  exact (unclassified_alarm_skipped wide_fleet switchboard plain_environ
           {| Records := [cpu_message] |} cpu_message [] cpu_alarm ["i-1"; "i-2"]
           empty_world (mk_world ∅ 1 [DescribeAutoScalingGroups "sre-demo-asg"] [])
           eq_refl eq_refl eq_refl eq_refl ltac:(discriminate) eq_refl).
Defined.

Section HandlerHelpers.

Variable B : backend.

Local Open Scope nat_scope.

(** X4.  Every issue type that the classification of an alarm produces has
    its own entry in the fallback table: a disk alarm gets the archive
    command for the bucket found, an Nginx or service alarm the restart of
    Nginx, a memory alarm the [pkill] command; the [No remediation found]
    echo is never the fallback of a classified alarm. *)
Theorem classified_issue_has_fallback (alarm_name : string) (cmds : list string)
    (ty : string) (w : world) :
  classify alarm_name = Some (cmds, ty) →
  (ty = "Disk Critical"
   ∧ fst (fallback_remediation B ty w)
     = Ok (disk_fallback (bucket_of (list_buckets B (tick w)))))
  ∨ (ty = "Nginx Down" ∧ fst (fallback_remediation B ty w) = Ok nginx_fallback)
  ∨ (ty = "Memory Exhaustion" ∧ fst (fallback_remediation B ty w) = Ok memory_fallback).
Proof.
  unfold classify. intros Hclass.
  destruct (Py.contains "Disk" alarm_name).
  - injection Hclass as <- <-. left. split; [reflexivity|].
    unfold fallback_remediation, get_log_bucket, bind, log, ask, bucket_of. simpl.
    destruct (list_buckets B (tick w)); reflexivity.
  - destruct (Py.contains "Nginx" alarm_name || Py.contains "Service" alarm_name).
    + injection Hclass as <- <-. right. left. split; reflexivity.
    + destruct (Py.contains "Memory" alarm_name); [|discriminate].
      injection Hclass as <- <-. right. right. split; reflexivity.
Qed.

(** X5.  Whatever the bucket listing answers, listing error included, the
    bucket name that [get_log_bucket] returns starts with
    [sre-incident-logs-archive]; when the listing has such a bucket, it is
    the first one of the listing. *)
Theorem log_bucket_has_archive_prefix (w : world) :
  ∃ bucket w',
    get_log_bucket B w = (Ok bucket, w')
    ∧ Py.startswith "sre-incident-logs-archive" bucket = true
    ∧ table w' = table w
    ∧ (∀ before name after,
         list_buckets B (tick w) = Answer (before ++ name :: after)%list →
         Forall (fun n => Py.startswith "sre-incident-logs-archive" n = false) before →
         Py.startswith "sre-incident-logs-archive" name = true →
         bucket = name).
Proof.
  unfold get_log_bucket, bind, ask. simpl.
  destruct (list_buckets B (tick w)) as [names|e]; simpl.
  - do 2 eexists. split; [reflexivity|]. split; [|split; [reflexivity|]].
    + unfold first_archive_bucket.
      destruct (List.find _ names) as [b|] eqn:Hfind; [|reflexivity].
      apply List.find_some in Hfind. exact (proj2 Hfind).
    + intros before name after Heq Hbefore Hname. injection Heq as ->.
      unfold first_archive_bucket. clear w.
      induction before as [|b before IH]; simpl.
      * now rewrite Hname.
      * inversion Hbefore as [|? ? Hb Hrest]; subst. rewrite Hb. now apply IH.
  - do 2 eexists. split; [reflexivity|]. split; [reflexivity|].
    split; [reflexivity|]. intros before name after Heq. discriminate.
Qed.

End HandlerHelpers.

(** X5, witness: the first archive bucket of a listing of three. *)
Lemma log_bucket_has_archive_prefix_witness :
  fst (get_log_bucket wide_fleet empty_world) = Ok "sre-incident-logs-archive-7f3a".
Proof.
  destruct (log_bucket_has_archive_prefix wide_fleet empty_world)
    as [bucket [w' [Heq [_ [_ H]]]]].
  rewrite Heq. simpl. f_equal.
  apply (H ["billing-exports"] "sre-incident-logs-archive-7f3a"
           ["sre-incident-logs-archive-old"]).
  - reflexivity.
  - repeat constructor.
  - reflexivity.
Defined.

(** X4, witness: the three categories, by an alarm name of each. *)
Lemma classified_issue_has_fallback_witness :
  fst (fallback_remediation wide_fleet "Disk Critical" empty_world)
  = Ok (disk_fallback "sre-incident-logs-archive-7f3a")
  ∧ fst (fallback_remediation wide_fleet "Nginx Down" empty_world) = Ok nginx_fallback
  ∧ fst (fallback_remediation wide_fleet "Memory Exhaustion" empty_world)
    = Ok memory_fallback.
Proof.
  split; [|split].
  - destruct (classified_issue_has_fallback wide_fleet "Disk-Critical-ASG"
                ["df -h /"; "ls -lRh /var/log/ | head -n 20"] "Disk Critical"
                empty_world eq_refl) as [[_ H]|[[H _]|[H _]]];
      [exact H | discriminate H | discriminate H].
  - destruct (classified_issue_has_fallback wide_fleet "Service-Unhealthy"
                ["systemctl status nginx"; "journalctl -u nginx -n 20"] "Nginx Down"
                empty_world eq_refl) as [[H _]|[[_ H]|[H _]]];
      [discriminate H | exact H | discriminate H].
  - destruct (classified_issue_has_fallback wide_fleet "Memory-High"
                ["free -m"; "ps aux --sort=-%mem | head -n 10"] "Memory Exhaustion"
                empty_world eq_refl) as [[H _]|[[H _]|[_ H]]];
      [discriminate H | discriminate H | exact H].
Defined.

(** A bucket listing with two archive buckets: the first one is taken. *)
Example log_bucket_of_the_listing :
  fst (get_log_bucket wide_fleet empty_world) = Ok "sre-incident-logs-archive-7f3a"
  ∧ fst (get_log_bucket fleet empty_world) = Ok "sre-incident-logs-archive".
Proof. split; reflexivity. Qed.

(** * Further properties of target resolution *)

(** X6.  In the dictionary of the dimensions a name stands for the value of
    the last dimension of the list that carries it, and a name that no
    dimension carries is absent. *)
Theorem dimensions_last_wins (ds : list dimension) (n : string) :
  dimensions_dict ds !! n = value <$> last (filter (fun d => name d = n) ds).
Proof.
  unfold dimensions_dict. induction ds as [|d ds IH] using rev_ind; [reflexivity|].
  rewrite foldl_app. simpl. rewrite filter_app.
  destruct (decide (name d = n)) as [Heq|Hne].
  - rewrite filter_cons_True by exact Heq. rewrite filter_nil, last_snoc.
    subst n. now rewrite lookup_insert_eq.
  - rewrite lookup_insert_ne by exact Hne.
    rewrite filter_cons_False by exact Hne. rewrite filter_nil, app_nil_r. exact IH.
Qed.

(** A dimension given twice: the second value is the one looked up. *)
Example dimension_given_twice :
  dimensions_dict [ {| name := "InstanceId"; value := "i-1" |};
                    {| name := "TargetGroup"; value := "tg" |};
                    {| name := "InstanceId"; value := "i-2" |} ] !! "InstanceId"
  = Some "i-2".
Proof. reflexivity. Qed.

Section AccountId.

Variable B : backend.
Variable E : environ.

Lemma split_field (field rest : string) :
  colon_free field = true →
  Py.split ":" (field ++ ":" ++ rest) = field :: Py.split ":" rest.
Proof.
  induction field as [|c field IH]; intros Hfree; [reflexivity|].
  simpl in Hfree. apply andb_true_iff in Hfree as [Hc Hfree].
  apply negb_true_iff in Hc. simpl. rewrite Hc.
  change (Py.split ":" (field ++ String ":" rest))
    with (Py.split ":" (field ++ ":" ++ rest)).
  now rewrite (IH Hfree).
Qed.

(** X7.  When the alarm carries no account id of its own, the account id is
    the fifth colon-separated field of its ARN. *)
Theorem account_id_read_from_arn (a : alarm) (p0 p1 p2 p3 account rest : string) :
  Py.truthy_opt (AWSAccountId a) = false →
  AlarmArn a
  = Some (p0 ++ ":" ++ p1 ++ ":" ++ p2 ++ ":" ++ p3 ++ ":" ++ account ++ ":" ++ rest) →
  colon_free p0 = true → colon_free p1 = true → colon_free p2 = true →
  colon_free p3 = true → colon_free account = true →
  find_account_id a = Some account.
Proof.
  intros Hnone Harn H0 H1 H2 H3 H4. unfold find_account_id.
  rewrite Hnone, Harn. simpl. unfold account_of_arn.
  rewrite (split_field p0), (split_field p1), (split_field p2), (split_field p3),
    (split_field account) by assumption.
  reflexivity.
Qed.

(** X8.  A target-group alarm for which no account id is found, because it
    has none and its ARN is absent or has fewer than five fields, resolves
    to no host, and the health of the target group is not asked for: the
    state is the one before. *)
Theorem target_group_without_account (a : alarm) (w : world) :
  Py.truthy_opt (alarm_dimensions a !! "AutoScalingGroupName") = false →
  Py.truthy_opt (alarm_dimensions a !! "TargetGroup") = true →
  Py.truthy_opt (AWSAccountId a) = false →
  match AlarmArn a with
  | Some arn => (length (Py.split ":" arn) <= 4)%nat
  | None => True
  end →
  get_target_instances B E a w = (Ok [], w).
Proof.
  intros Hasg Htg Hacct Harn. unfold get_target_instances.
  rewrite Hasg, Htg. unfold find_account_id. rewrite Hacct. simpl.
  destruct (AlarmArn a) as [arn|].
  - unfold account_of_arn.
    destruct (nth_error (Py.split ":" arn) 4) eqn:Hnth.
    + assert (4 < length (Py.split ":" arn))%nat
        by (apply nth_error_Some; congruence).
      lia.
    + rewrite Hacct. reflexivity.
  - rewrite Hacct. reflexivity.
Qed.

End AccountId.

(** X7, witness: the ARN of a CloudWatch alarm. *)
Lemma account_id_read_from_arn_witness :
  find_account_id arn_alarm = Some "123456789012".
Proof.
  exact (account_id_read_from_arn arn_alarm "arn" "aws" "cloudwatch" "ap-south-1"
           "123456789012" "alarm:Nginx-Unhealthy"
           eq_refl eq_refl eq_refl eq_refl eq_refl eq_refl eq_refl).
Defined.

(** X8, witness: a target-group alarm without account id and ARN. *)
Lemma target_group_without_account_witness :
  get_target_instances fleet plain_environ anonymous_alarm empty_world
  = (Ok [], empty_world).
Proof.
  exact (target_group_without_account fleet plain_environ anonymous_alarm empty_world
           eq_refl eq_refl eq_refl I).
Defined.

(** With the ARN, the same alarm resolves to the unhealthy instance of the
    target group. *)
Example target_group_alarm_with_arn :
  fst (get_target_instances fleet plain_environ arn_alarm empty_world) = Ok ["i-9"].
Proof. reflexivity. Qed.

(** * Further properties of the incident workflow *)

Section Sends.

Local Open Scope nat_scope.

Lemma bind_inv {A C} (m : M A) (k : A → M C) (w w' : world) (c : C) :
  bind m k w = (Ok c, w') → ∃ a w1, m w = (Ok a, w1) ∧ k a w1 = (Ok c, w').
Proof.
  unfold bind. destruct (m w) as [[a|e] w1]; [eauto|discriminate].
Qed.

Lemma sends_weaken {A} (j k : nat) (m : M A) :
  j <= k → sends_at_most j m → sends_at_most k m.
Proof. intros Hle H w. specialize (H w). lia. Qed.

Lemma sends_ret {A} (a : A) : sends_at_most 0 (ret a).
Proof. intros w. simpl. lia. Qed.

Lemma sends_raise {A} (e : exn) : sends_at_most 0 (@raise A e).
Proof. intros w. simpl. lia. Qed.

Lemma sends_bind {A C} (j k : nat) (m : M A) (f : A → M C) :
  sends_at_most j m → (∀ a, sends_at_most k (f a)) → sends_at_most (j + k) (bind m f).
Proof.
  intros Hm Hf w. specialize (Hm w). unfold bind.
  destruct (m w) as [[a|e] w1]; simpl in *.
  - specialize (Hf a w1). lia.
  - lia.
Qed.

Lemma sends_ask {A} (c : call) (oracle : nat → A) :
  sends_at_most (if is_send c then 1 else 0) (ask c oracle).
Proof.
  intros w. unfold ask, count_calls. simpl. destruct (is_send c); simpl; lia.
Qed.

Lemma sends_log (line : string) : sends_at_most 0 (log line).
Proof. intros w. unfold count_calls. simpl. lia. Qed.

Lemma sends_put_item (i : Item.t) : sends_at_most 0 (put_item i).
Proof. intros w. unfold put_item. destruct (forallb _ _); simpl; lia. Qed.

Lemma sends_swallow (k : nat) (m : M unit) :
  sends_at_most k m → sends_at_most k (swallow m).
Proof.
  intros Hm w. specialize (Hm w). unfold swallow.
  destruct (m w) as [[a|e] w1]; exact Hm.
Qed.









Lemma sends_update_item (id : string) (f : Item.t → Item.t) :
  sends_at_most 0 (update_item id f).
Proof. intros w. simpl. lia. Qed.

End Sends.

Section Workflow.

Variable B : backend.
Variable L : library.
Variable E : environ.

Local Open Scope nat_scope.

Lemma sends_sleep (s : Z) : sends_at_most 0 (sleep s).
Proof. apply (sends_ask (Sleep s)). Qed.

Lemma sends_datetime_now : sends_at_most 0 (datetime_now B).
Proof.
  apply (sends_bind 0 0); [apply (sends_ask ReadClock)|]. intros t. apply sends_ret.
Qed.

Lemma sends_poll (retries : nat) (cid host : string) :
  sends_at_most 0 (poll B retries cid host).
Proof.
  induction retries as [|n IH]; [apply sends_ret|].
  cbn [poll]. apply (sends_bind 0 0); [apply (sends_ask (GetCommandInvocation _ _))|].
  intros [resp|e].
  - destruct (terminal (Status resp)); [apply sends_ret|].
    apply (sends_bind 0 0); [apply sends_sleep | intros _; exact IH].
  - apply (sends_bind 0 0); [apply sends_sleep | intros _; exact IH].
Qed.

Lemma sends_wait_for_command (cid : option string) (host : string) :
  sends_at_most 0 (wait_for_command B cid host).
Proof.
  unfold wait_for_command. destruct (negb _); [apply sends_ret | apply sends_poll].
Qed.

Lemma sends_get_log_bucket : sends_at_most 0 (get_log_bucket B).
Proof.
  apply (sends_bind 0 0); [apply (sends_ask ListBuckets)|].
  intros [names|e]; apply sends_ret.
Qed.

Lemma sends_fallback_remediation (ty : string) :
  sends_at_most 0 (fallback_remediation B ty).
Proof.
  unfold fallback_remediation. apply (sends_bind 0 0); [apply sends_log|]. intros _.
  destruct (Py.contains "Disk" ty).
  - apply (sends_bind 0 0); [apply sends_get_log_bucket | intros b; apply sends_ret].
  - destruct (Py.contains "Nginx" ty); [apply sends_ret|].
    destruct (Py.contains "Memory" ty); apply sends_ret.
Qed.

Lemma sends_ask_genai (ctx ty : string) : sends_at_most 0 (ask_genai B L E ctx ty).
Proof.
  unfold ask_genai. destruct (_ || _); [apply sends_fallback_remediation|].
  apply (sends_bind 0 0); [apply sends_get_log_bucket|]. intros bucket.
  apply (sends_bind 0 0); [apply (sends_ask (Urlopen _ _ _))|].
  intros [[text|]|code [|[body|]]|msg];
    try apply sends_fallback_remediation; try apply sends_raise.
  destruct (json_loads L text ≫= generated_text) as [[| | | |g| |]|];
    try apply sends_fallback_remediation.
  destruct (json_loads L (clean g)); [apply sends_ret | apply sends_fallback_remediation].
Qed.

Lemma sends_write_incident (id name desc host diag : string) (sug reason : json)
    (st : string) :
  sends_at_most 0 (write_incident B L id name desc host diag sug reason st).
Proof.
  unfold write_incident. apply sends_swallow.
  apply (sends_bind 0 0); [apply sends_datetime_now|].
  intros d. apply sends_put_item.
Qed.

(** What [write_incident] does: it never raises, reads the clock once, and
    stores the item when boto3 can serialise the two values of the
    advisor; when it cannot, the table is the one before. *)
Lemma write_incident_run (id name desc host diag : string) (sug reason : json)
    (st : string) (w : world) :
  write_incident B L id name desc host diag sug reason st w
  = (Ok tt,
     mk_world
       (if advice_storable sug reason
        then <[id := written_item B L id name desc host diag sug reason st (tick w)]>
               (table w)
        else table w)
       (S (tick w)) (ReadClock :: trace w) (tasks w)).
Proof.
  unfold write_incident, swallow, bind, datetime_now, ask, ret, put_item,
    advice_storable, item_values. simpl. rewrite andb_true_r.
  destruct (Json.storable (or_empty sug) && Json.storable (or_empty reason));
    reflexivity.
Qed.










Lemma sends_send_ssm_command (host : string) (cmds : list json) :
  sends_at_most 1 (send_ssm_command B host cmds).
Proof.
  unfold send_ssm_command. apply (sends_bind 1 0); [apply (sends_ask (SendCommand _ _))|].
  intros [c|e]; apply sends_ret.
Qed.

Lemma sends_finalize (id host : string) (r : option invocation) :
  sends_at_most 0 (finalize B L id host r).
Proof.
  assert (Hupd : ∀ st out, sends_at_most 0 (update_incident_status B L id st out)).
  { intros st out. apply (sends_bind 0 0); [apply sends_datetime_now|].
    intros d. apply sends_update_item. }
  destruct r as [r|]; simpl; (apply (sends_bind 0 0); [apply Hupd|]);
    intros _; apply sends_ret.
Qed.



(** X10.  In auto mode the handler sends at most two commands for a
    target, the diagnostic one and the remediation.  When it reports a
    result for the target, the reported status is [completed], [failed] or
    [timeout], and it is the status that the table holds for the incident,
    next to a remediation output: no incident that the handler reports is
    left in status [executing]. *)
Theorem auto_mode_ends_terminal (alarm_name alarm_desc host : string) (w : world) :
  APPROVAL_MODE E = false →
  sends_at_most 2 (handle_target B L E alarm_name alarm_desc host)
  ∧ (∀ res w', handle_target B L E alarm_name alarm_desc host w = (Ok (Some res), w') →
       let id := incident_id_at B (tick w) alarm_name host in
       res_instance res = host
       ∧ In (res_status res) terminal_statuses
       ∧ attribute Item.status id w' = Some (res_status res)
       ∧ is_Some (attribute Item.remediation_output id w')).
Proof.
  intros Hmode. split.
  - unfold handle_target. rewrite Hmode.
    apply (sends_bind 0 2); [apply (sends_ask ReadClock)|]. intros t.
    destruct (classify alarm_name) as [[cmds ty]|];
      [|apply (sends_weaken 0); [lia|apply sends_ret]].
    apply (sends_bind 1 1); [apply sends_send_ssm_command|]. intros cmd_id.
    destruct (negb _); [apply (sends_weaken 0); [lia|apply sends_ret]|].
    apply (sends_bind 0 1); [apply sends_sleep|]. intros _.
    apply (sends_bind 0 1); [apply sends_wait_for_command|]. intros r.
    apply (sends_bind 0 1); [apply sends_ask_genai|]. intros ai.
    destruct ai; try (apply (sends_weaken 0); [lia|apply sends_raise]).
    apply (sends_bind 0 1); [apply sends_write_incident|]. intros _.
    apply (sends_bind 1 0); [apply sends_send_ssm_command|]. intros fix_id.
    apply (sends_bind 0 0); [apply sends_wait_for_command|]. intros fix_result.
    apply (sends_bind 0 0); [apply sends_finalize|]. intros res. apply sends_ret.
  - intros res w' Hrun id. unfold handle_target in Hrun. rewrite Hmode in Hrun.
    apply bind_inv in Hrun as [t [w1 [Ht Hrun]]].
    unfold time_time, ask in Ht. injection Ht as <- <-.
    destruct (classify alarm_name) as [[cmds ty]|]; [|discriminate].
    apply bind_inv in Hrun as [cmd_id [w2 [Hsend Hrun]]].
    destruct (negb _); [discriminate|].
    apply bind_inv in Hrun as [u [w3 [Hsleep Hrun]]].
    apply bind_inv in Hrun as [r [w4 [Hwait Hrun]]].
    apply bind_inv in Hrun as [ai [w5 [Hai Hrun]]].
    destruct ai; try discriminate.
    apply bind_inv in Hrun as [u' [w6 [Hwrite Hrun]]].
    apply bind_inv in Hrun as [fix_id [w7 [Hfix Hrun]]].
    apply bind_inv in Hrun as [fix_result [w8 [Hwait' Hrun]]].
    apply bind_inv in Hrun as [res0 [w9 [Hfin Hrun]]].
    injection Hrun as <- <-.
    unfold terminal_statuses.
    destruct fix_result as [inv|]; unfold finalize, update_incident_status, bind,
      datetime_now, ask, update_item, ret in Hfin; simpl in Hfin;
      injection Hfin as <- <-; unfold attribute; cbn [table];
      rewrite lookup_insert_eq; simpl.
    + destruct (String.eqb (Status inv) "Success"); repeat split; simpl; eauto.
    + repeat split; simpl; eauto.
Qed.

End Workflow.



(** An advisor that gives the number 1.5 for a command: the handler
    reports the incident as waiting for approval, and the table has
    nothing under its id. *)
Example reported_incident_not_stored :
  let run := handle_target numeric_adviser numeric_library keyed_environ
               "Memory-High" "" "i-1" empty_world in
  fst run = Ok (Some {| res_instance := "i-1"; res_status := "pending_approval";
                        res_incident_id := Some "1705312800_Memory-High_i-1" |})
  ∧ table (snd run) = ∅.
Proof. vm_compute. split; reflexivity. Qed.

(** X10, witness: the same alarm in auto mode. *)
Lemma auto_mode_ends_terminal_witness :
  let w' := snd (handle_target wide_fleet calendar auto_environ "Memory-High" ""
                   "i-1" empty_world) in
  attribute Item.status "1705312800_Memory-High_i-1" w' = Some "completed".
Proof.
  exact (proj1 (proj2 (proj2
           (proj2 (auto_mode_ends_terminal wide_fleet calendar auto_environ
                     "Memory-High" "" "i-1" empty_world eq_refl)
              {| res_instance := "i-1"; res_status := "completed";
                 res_incident_id := None |}
              (snd (handle_target wide_fleet calendar auto_environ "Memory-High" ""
                      "i-1" empty_world))
              ltac:(vm_compute; reflexivity))))).
Defined.

(** * Further properties of the operator gateway *)

Section Lifecycle.

Variable B : backend.
Variable L : library.

Local Open Scope nat_scope.
Local Open Scope list_scope.

(** Whatever the executor does, the background task ends, writes one of
    the terminal statuses under the key and appends one timeline entry for
    it; it writes under no other key. *)
Lemma execute_remediation_writes (id host : string) (command : json) (w : world) :
  ∃ it' e n tr,
    _execute_remediation B L id host command w
    = (Ok tt, mk_world (<[id := it']> (table w)) n tr (tasks w))
    ∧ Item.status it' = Some (event e)
    ∧ In (event e) terminal_statuses
    ∧ Item.timeline it' = Some (default [] (Item.timeline (stored id w)) ++ [e]).
Proof.
  destruct (send_command B (tick w) host [command]) as [cid|msg] eqn:Hsend.
  - destruct (first_terminal_poll
                (fun j => still_running (poll_reply B cid host (S (tick w)) j)) 60)
      as [Hrun|[k [Hk [Hrun Hat]]]].
    + destruct (execute_remediation_timeout B L id host command w cid Hsend Hrun)
        as [tr [Heq _]].
      exists (timeout_item B L (tick w + 121) (stored id w)),
        (mk_entry "timeout" (stamp B L (S (tick w + 121)))
           "SSM command timed out after 2 minutes").
      do 2 eexists. split; [exact Heq|]. unfold terminal_statuses. simpl. repeat split; auto 6.
    + apply still_running_false in Hat. destruct Hat as [inv [Hat Hterm]].
      destruct (execute_remediation_terminal B L id host command w cid k inv
                  Hsend Hk Hrun Hat Hterm) as [tr [Heq _]].
      exists (outcome_item B L (final_status_of inv) (output_of inv)
                (tick w + 2 * k + 3) (stored id w)),
        (mk_entry (final_status_of inv) (stamp B L (S (tick w + 2 * k + 3)))
           (Py.take 200 (output_of inv))).
      do 2 eexists. split; [exact Heq|]. unfold terminal_statuses, final_status_of.
      simpl. destruct (String.eqb (Status inv) "Success"); simpl; repeat split; auto 6.
  - destruct (execute_remediation_fault B L id host command w msg Hsend)
      as [tr [Heq _]].
    exists (outcome_item B L "failed" msg (S (tick w)) (stored id w)),
      (mk_entry "failed" (stamp B L (S (S (tick w)))) (Py.take 200 msg)).
    do 2 eexists. split; [exact Heq|]. unfold terminal_statuses. simpl. repeat split; auto 6.
Qed.

(** What [approve_incident] does to the table: nothing, or one write under
    the key of the incident. *)
Lemma approve_incident_table (id : string) (cc : option string) (w : world) :
  table (snd (approve_incident B L id cc w)) = table w
  ∨ ∃ it', table (snd (approve_incident B L id cc w)) = <[id := it']> (table w).
Proof.
  unfold approve_incident, bind, get_item. simpl.
  destruct (table w !! id) as [it|]; [|left; reflexivity]. simpl.
  destruct (Item.status it) as [st|]; [|left; reflexivity]. simpl.
  destruct (negb (String.eqb st "pending_approval")); [left; reflexivity|]. simpl.
  destruct (chosen_command cc it) as [command|]; [|left; reflexivity]. simpl.
  right. destruct (Item.instance_id it); simpl;
    rewrite insert_insert_eq; eexists; reflexivity.
Qed.

(** X11.  After an approval of a pending incident, every further approval
    of it, with or without an override, is refused with 400 and the status
    [executing] in the message, and changes nothing: one incident gets at
    most one remediation task. *)
Theorem second_approval_refused (id : string) (cc cc' : option string) (w : world)
    (it : Item.t) (host : string) (command : json) :
  table w !! id = Some it →
  Item.status it = Some "pending_approval" →
  Item.instance_id it = Some host →
  chosen_command cc it = Some command →
  let w1 := snd (approve_incident B L id cc w) in
  approve_incident B L id cc' w1
  = (Raise (HTTPException 400 "Cannot approve: status is 'executing'"), w1)
  ∧ tasks w1 = tasks w ++ [remediation_task id host command].
Proof.
  intros Hit Hst Hhost Hcmd w1. subst w1.
  rewrite (approve_incident_pending B L id cc w it host command Hit Hst Hhost Hcmd).
  cbn [snd]. split; [|reflexivity].
  unfold approve_incident, bind, get_item. cbn [table].
  rewrite lookup_insert_eq. cbn [fst snd].
  unfold approved_item, approve_update.
  destruct (Py.truthy_opt cc); reflexivity.
Qed.

(** X12.  Once [reject_incident] has run for an id, known or not, an
    approval of that id is refused with 400 and the status [rejected] in
    the message, and creates no task. *)
Theorem rejected_incident_cannot_be_approved (id : string) (cc : option string)
    (w : world) :
  let w1 := snd (reject_incident B L id w) in
  approve_incident B L id cc w1
  = (Raise (HTTPException 400 "Cannot approve: status is 'rejected'"), w1).
Proof.
  intros w1. subst w1. rewrite reject_incident_effect. cbn [snd].
  unfold approve_incident, bind, get_item. cbn [table].
  rewrite lookup_insert_eq. reflexivity.
Qed.

(** X13.  The timeline of an incident only grows, by one entry per
    operation: [_append_timeline] and [reject_incident] append their
    entry to the entries there were (to none for a new id), the background
    task appends one entry for the terminal status it writes, and a status
    update of the handler leaves the timeline as it was. *)
Theorem timeline_grows_by_one (id : string) (w : world) :
  let old := default [] (attribute Item.timeline id w) in
  (∀ ev d, attribute Item.timeline id (snd (_append_timeline B L id ev d w))
           = Some (old ++ [mk_entry ev (stamp B L (tick w)) d]))
  ∧ attribute Item.timeline id (snd (reject_incident B L id w))
    = Some (old ++ [mk_entry "rejected" (stamp B L (S (tick w)))
                      "Operator rejected remediation"])
  ∧ (∀ host command, ∃ e,
       attribute Item.timeline id (snd (_execute_remediation B L id host command w))
       = Some (old ++ [e])
       ∧ In (event e) terminal_statuses)
  ∧ (∀ st out,
       attribute Item.timeline id (snd (update_incident_status B L id st out w))
       = attribute Item.timeline id w).
Proof.
  intros old.
  assert (Hold : default [] (Item.timeline (stored id w)) = old).
  { unfold old, attribute, stored. destruct (table w !! id); reflexivity. }
  split; [|split; [|split]].
  - intros ev d. unfold attribute. simpl. rewrite lookup_insert_eq. simpl.
    fold (stored id w). now rewrite Hold.
  - rewrite reject_incident_effect. unfold attribute. simpl.
    rewrite lookup_insert_eq. simpl. fold (stored id w). now rewrite Hold.
  - intros host command.
    destruct (execute_remediation_writes id host command w)
      as [it' [e [n [tr [Heq [_ [Hin Htl]]]]]]].
    exists e. rewrite Heq. unfold attribute. simpl. rewrite lookup_insert_eq. simpl.
    rewrite Htl, Hold. split; [reflexivity | exact Hin].
  - intros st out. unfold attribute. simpl. rewrite lookup_insert_eq. simpl.
    destruct (table w !! id); reflexivity.
Qed.

(** X14.  An operation on one incident leaves every other incident of the
    table as it was: this holds for an approval (refused or not), a
    rejection, the background task, a timeline append and a status update
    of the handler. *)
Theorem other_incidents_untouched (id other : string) (w : world) :
  id ≠ other →
  (∀ cc, table (snd (approve_incident B L id cc w)) !! other = table w !! other)
  ∧ table (snd (reject_incident B L id w)) !! other = table w !! other
  ∧ (∀ host command,
       table (snd (_execute_remediation B L id host command w)) !! other
       = table w !! other)
  ∧ (∀ ev d, table (snd (_append_timeline B L id ev d w)) !! other = table w !! other)
  ∧ (∀ st out,
       table (snd (update_incident_status B L id st out w)) !! other
       = table w !! other).
Proof.
  intros Hne. split; [|split; [|split; [|split]]].
  - intros cc. destruct (approve_incident_table id cc w) as [->|[it' ->]];
      [reflexivity | now rewrite lookup_insert_ne].
  - rewrite reject_incident_effect. simpl. now rewrite lookup_insert_ne.
  - intros host command.
    destruct (execute_remediation_writes id host command w)
      as [it' [e [n [tr [Heq _]]]]].
    rewrite Heq. simpl. now rewrite lookup_insert_ne.
  - intros ev d. simpl. now rewrite lookup_insert_ne.
  - intros st out. simpl. now rewrite lookup_insert_ne.
Qed.

(** X15.  A rejection does not stop a remediation that was approved
    before: the task stays in the task list, and when it runs it replaces
    the status [rejected] by the terminal status of the command. *)
Theorem rejection_does_not_stop_task (id : string) (cc : option string) (w : world)
    (it : Item.t) (host : string) (command : json) :
  table w !! id = Some it →
  Item.status it = Some "pending_approval" →
  Item.instance_id it = Some host →
  chosen_command cc it = Some command →
  let w1 := snd (approve_incident B L id cc w) in
  let w2 := snd (reject_incident B L id w1) in
  let w3 := snd (_execute_remediation B L id host command w2) in
  attribute Item.status id w2 = Some "rejected"
  ∧ tasks w2 = tasks w ++ [remediation_task id host command]
  ∧ ∃ st, attribute Item.status id w3 = Some st ∧ In st terminal_statuses.
Proof.
  intros Hit Hst Hhost Hcmd w1 w2 w3. subst w1 w2 w3.
  rewrite (approve_incident_pending B L id cc w it host command Hit Hst Hhost Hcmd).
  cbn [snd]. rewrite reject_incident_effect. cbn [snd].
  split; [unfold attribute; cbn [table]; now rewrite lookup_insert_eq|].
  split; [reflexivity|].
  match goal with
  | |- context [_execute_remediation B L id host command ?w2] =>
      destruct (execute_remediation_writes id host command w2)
        as [it' [e [n [tr [Heq [Hstatus [Hin _]]]]]]]
  end.
  exists (event e). rewrite Heq. unfold attribute. cbn [snd table].
  rewrite lookup_insert_eq. simpl. split; [exact Hstatus | exact Hin].
Qed.

End Lifecycle.

(** X11, witness: [inc-1] approved twice, the second time with an
    override. *)
Lemma second_approval_refused_witness :
  let w1 := snd (approve_incident stuck_executor calendar "inc-1" None desk) in
  approve_incident stuck_executor calendar "inc-1" (Some "reboot") w1
  = (Raise (HTTPException 400 "Cannot approve: status is 'executing'"), w1)
  ∧ tasks w1 = [remediation_task "inc-1" "i-123" (JStr "echo fixed")].
Proof.
  exact (second_approval_refused stuck_executor calendar "inc-1" None (Some "reboot")
           desk pending_item "i-123" (JStr "echo fixed")
           eq_refl eq_refl eq_refl eq_refl).
Defined.

(** X14, witness: a rejection of [inc-2] next to [inc-1]. *)
Lemma other_incidents_untouched_witness :
  table (snd (reject_incident stuck_executor calendar "inc-2" desk)) !! "inc-1"
  = Some pending_item.
Proof.
  exact (proj1 (proj2 (other_incidents_untouched stuck_executor calendar "inc-2" "inc-1"
                         desk ltac:(discriminate)))).
Defined.

(** X15, witness: [inc-1] approved, then rejected, on an executor whose
    command succeeds. *)
Lemma rejection_does_not_stop_task_witness :
  let w1 := snd (approve_incident (executor 10) calendar "inc-1" None desk) in
  let w2 := snd (reject_incident (executor 10) calendar "inc-1" w1) in
  let w3 := snd (_execute_remediation (executor 10) calendar "inc-1" "i-123"
                   (JStr "echo fixed") w2) in
  attribute Item.status "inc-1" w2 = Some "rejected"
  ∧ tasks w2 = [remediation_task "inc-1" "i-123" (JStr "echo fixed")]
  ∧ ∃ st, attribute Item.status "inc-1" w3 = Some st ∧ In st terminal_statuses.
Proof.
  exact (rejection_does_not_stop_task (executor 10) calendar "inc-1" None desk
           pending_item "i-123" (JStr "echo fixed") eq_refl eq_refl eq_refl eq_refl).
Defined.

(** In that run the incident ends as [completed], with the entries
    [approved], [rejected] and [completed] at the end of its timeline. *)
Example rejected_then_completed :
  let w1 := snd (approve_incident (executor 10) calendar "inc-1" None desk) in
  let w2 := snd (reject_incident (executor 10) calendar "inc-1" w1) in
  let w3 := snd (_execute_remediation (executor 10) calendar "inc-1" "i-123"
                   (JStr "echo fixed") w2) in
  attribute Item.status "inc-1" w3 = Some "completed"
  ∧ (event <$> default [] (attribute Item.timeline "inc-1" w3))
    = ["created"; "diagnostics"; "ai_analysis"; "approved"; "rejected"; "completed"].
Proof. vm_compute. split; reflexivity. Qed.

Section Handover.

Variables B B' : backend.
Variables L L' : library.

Local Open Scope list_scope.

(** X16.  [write_incident] never raises.  When boto3 can serialise the
    suggestion and the reasoning as they are written, an incident that
    the handler writes as [pending_approval] can be read and approved by
    the dashboard: [get_incident] returns it with the given alarm, host
    and diagnostics, and an approval succeeds and creates the task for
    that host, with the override if a non-empty one is given and else
    with the suggestion as written (the empty string for a suggestion
    that is empty, null or otherwise false).  When it cannot, nothing is
    written: the table is the one before. *)
Theorem written_incident_is_approvable (id name desc host diag : string)
    (sug reason : json) (cc : option string) (w : world) :
  let w1 := snd (write_incident B L id name desc host diag sug reason
                   "pending_approval" w) in
  fst (write_incident B L id name desc host diag sug reason "pending_approval" w)
  = Ok tt
  ∧ (advice_storable sug reason = true →
     (∃ it, get_incident id w1 = (Ok it, w1)
            ∧ Item.incident_id it = id
            ∧ Item.alarm_name it = Some name
            ∧ Item.instance_id it = Some host
            ∧ Item.diagnostics it = Some diag
            ∧ Item.ai_suggestion it = Some (or_empty sug)
            ∧ Item.status it = Some "pending_approval"
            ∧ Item.created_at it = Item.updated_at it)
     ∧ ∃ w2, approve_incident B' L' id cc w1 = (Ok executing_response, w2)
             ∧ attribute Item.status id w2 = Some "executing"
             ∧ tasks w2
               = tasks w
                 ++ [remediation_task id host (dispatched_command cc (or_empty sug))])
  ∧ (advice_storable sug reason = false → table w1 = table w).
Proof.
  intros w1. subst w1. rewrite write_incident_run. cbn [fst snd].
  split; [reflexivity|]. split.
  - intros ->. split.
    + eexists. unfold get_incident, bind, get_item. simpl.
      rewrite lookup_insert_eq. split; [reflexivity|]. repeat split.
    + eexists.
      split; [|split].
      * eapply approve_incident_pending.
        -- simpl. apply lookup_insert_eq.
        -- reflexivity.
        -- reflexivity.
        -- apply chosen_command_dispatched. reflexivity.
      * unfold attribute. simpl. rewrite lookup_insert_eq. simpl.
        unfold approve_update. destruct (Py.truthy_opt cc); reflexivity.
      * reflexivity.
  - intros ->. reflexivity.
Qed.

End Handover.

(** X16, witness: the incident of the dashboard's tests, written by the
    handler and approved without an override; and a suggestion that is a
    float, for which nothing is written. *)
Lemma written_incident_is_approvable_witness :
  (∃ w2, approve_incident stuck_executor calendar "inc-1" None
           (snd (write_incident stuck_executor calendar "inc-1" "Disk-Critical-ASG" ""
                   "i-123" "92% used" (JStr "echo fixed") (JStr "Disk is full.")
                   "pending_approval" empty_world))
         = (Ok executing_response, w2)
         ∧ attribute Item.status "inc-1" w2 = Some "executing"
         ∧ tasks w2 = [remediation_task "inc-1" "i-123" (JStr "echo fixed")])
  ∧ table (snd (write_incident stuck_executor calendar "inc-1" "Disk-Critical-ASG" ""
                  "i-123" "92% used" (JFloat (Finite 1.5)) (JStr "Disk is full.")
                  "pending_approval" empty_world))
    = ∅.
Proof.
  split.
  - exact (proj2 (proj1 (proj2
             (written_incident_is_approvable stuck_executor stuck_executor calendar
                calendar "inc-1" "Disk-Critical-ASG" "" "i-123" "92% used"
                (JStr "echo fixed") (JStr "Disk is full.") None empty_world))
             eq_refl)).
  - exact (proj2 (proj2
             (written_incident_is_approvable stuck_executor stuck_executor calendar
                calendar "inc-1" "Disk-Critical-ASG" "" "i-123" "92% used"
                (JFloat (Finite 1.5)) (JStr "Disk is full.") None empty_world))
             eq_refl).
Defined.

(** * Further properties of the statistics *)

Section Counting.

Variable L : library.

Local Open Scope nat_scope.
Local Open Scope list_scope.

Lemma count_of_incr (s s' : string) (counts : list (string * nat)) :
  count_of s (incr s' counts)
  = if String.eqb s' s then S (count_of s counts) else count_of s counts.
Proof.
  induction counts as [|[k n] rest IH]; simpl.
  - destruct (String.eqb s' s); reflexivity.
  - destruct (String.eqb_spec k s') as [->|Hks']; simpl.
    + destruct (String.eqb s' s); reflexivity.
    + rewrite IH. destruct (String.eqb_spec k s) as [->|Hks]; [|reflexivity].
      destruct (String.eqb_spec s' s) as [->|_]; [congruence|reflexivity].
Qed.

Lemma incr_keys (s : string) (counts : list (string * nat)) :
  fst <$> incr s counts
  = if decide (s ∈ fst <$> counts) then fst <$> counts else (fst <$> counts) ++ [s].
Proof.
  induction counts as [|[k n] rest IH]; cbn [incr].
  - rewrite fmap_nil. case_decide; [set_solver | reflexivity].
  - destruct (String.eqb_spec k s) as [->|Hks]; rewrite !fmap_cons; cbn [fst].
    + clear IH. case_decide; [reflexivity | set_solver].
    + rewrite IH. clear IH. repeat case_decide; try reflexivity; set_solver.
Qed.

(** X17.  In the per-status counts every status has one entry, and the
    count under a status is the number of items with that status, an item
    without a status counting under [unknown]; a status that no item has
    is not counted. *)
Theorem status_counts_exact (items : list Item.t) (s : string) :
  count_of s (count_statuses items)
  = count_if (fun i => String.eqb (counted_status i) s) items
  ∧ NoDup (fst <$> count_statuses items)
  ∧ (s ∈ fst <$> count_statuses items ↔ ∃ i, i ∈ items ∧ counted_status i = s).
Proof.
  unfold count_statuses, count_if, counted_status.
  induction items as [|i items [IHc [IHn IHk]]] using rev_ind.
  - simpl. split; [reflexivity|]. split; [constructor|]. split.
    + intros Hin. inversion Hin.
    + intros [i [Hin _]]. inversion Hin.
  - rewrite foldl_app. cbn [foldl].
    set (counts := foldl (fun counts i => incr (default "unknown" (Item.status i)) counts)
                     [] items) in *.
    split; [|split].
    + rewrite count_of_incr, List.filter_app, length_app, IHc.
      cbn [List.filter]. cbv beta.
      destruct (String.eqb (default "unknown" (Item.status i)) s); simpl; lia.
    + rewrite incr_keys. destruct (decide ((default "unknown" (Item.status i)) ∈ fst <$> counts));
        [exact IHn|].
      apply NoDup_app. split; [exact IHn|]. split; [|apply NoDup_singleton].
      intros x Hx Hx'. apply list_elem_of_singleton in Hx'. congruence.
    + rewrite incr_keys. split.
      * intros Hin.
        assert (Hcases : s ∈ fst <$> counts ∨ s = (default "unknown" (Item.status i))).
        { destruct (decide ((default "unknown" (Item.status i)) ∈ fst <$> counts)); [now left|].
          apply elem_of_app in Hin as [Hin|Hin]; [now left|].
          apply list_elem_of_singleton in Hin. now right. }
        destruct Hcases as [Hin' | ->].
        -- apply IHk in Hin' as [j [Hj Hs]]. exists j. split; [|exact Hs].
           apply elem_of_app. now left.
        -- exists i. split; [|reflexivity]. apply elem_of_app. right. left.
      * intros [j [Hj Hs]]. apply elem_of_app in Hj as [Hj|Hj].
        -- assert (Hin : s ∈ fst <$> counts) by (apply IHk; eauto).
           destruct (decide ((default "unknown" (Item.status i)) ∈ fst <$> counts)); [exact Hin|].
           apply elem_of_app. now left.
        -- apply list_elem_of_singleton in Hj. subst j.
           destruct (decide ((default "unknown" (Item.status i)) ∈ fst <$> counts)) as [Hin|Hn];
             [now rewrite <- Hs|].
           apply elem_of_app. right. rewrite Hs. left.
Qed.




End Counting.


(** * The range of the success rate *)

Section SuccessRateRange.

Variable L : library.

Local Open Scope Q_scope.

(** X25.  The success rate that the statistics return, computed in
    floats and rounded to one decimal, lies between 0 and 100; it is 0
    when no incident is completed, and 100 when there are resolved
    incidents and all of them are completed. *)
Theorem success_rate_in_range (items : list Item.t) :
  let s := incident_stats L items in
  (0 <= success_rate s ∧ success_rate s <= 100)
  ∧ (completed_count items = 0%nat → success_rate s = 0)
  ∧ ((0 < resolved_count items)%nat →
     completed_count items = resolved_count items → success_rate s = 100).
Proof.
  cbn [incident_stats success_rate]. unfold float_success_rate.
  pose proof (completed_le_resolved items) as Hle.
  set (c := completed_count items) in *. set (r := resolved_count items) in *.
  destruct (Nat.ltb_spec 0 r) as [Hpos|Hzero].
  - assert (Hr : 0 < inject_Z (Z.of_nat r)) by (unfold Qlt; simpl; lia).
    assert (Hx0 : 0 <= inject_Z (Z.of_nat c) / inject_Z (Z.of_nat r)).
    { apply Qle_shift_div_l; [exact Hr|]. rewrite Qmult_0_l. unfold Qle. simpl. lia. }
    assert (Hx1 : inject_Z (Z.of_nat c) / inject_Z (Z.of_nat r) <= inject_Z 1).
    { apply Qle_shift_div_r; [exact Hr|]. change (inject_Z 1) with 1.
      rewrite Qmult_1_l. unfold Qle. simpl. lia. }
    split; [|split].
    + unfold Float.mul, Float.div.
      destruct (round_range _ 1 Hx0 Hx1 ltac:(lia)) as [Ha0 Ha1].
      set (a := Float.round _) in *. change (inject_Z 1) with 1 in Ha1.
      destruct (round_range (a * 100) 100 ltac:(lra)
                  ltac:(change (inject_Z 100) with 100; lra) ltac:(lia)) as [Hb0 Hb1].
      exact (round1_range _ 100 Hb0 Hb1 ltac:(lia)).
    + intros Hc. rewrite Hc. unfold Float.mul, Float.div.
      rewrite (round_zero (inject_Z (Z.of_nat 0) / inject_Z (Z.of_nat r)))
        by (unfold Qdiv; apply Qmult_0_l).
      rewrite (round_zero (0 * 100)) by reflexivity. reflexivity.
    + intros _ Hc. rewrite Hc. unfold Float.mul, Float.div.
      rewrite (round_of_int (inject_Z (Z.of_nat r) / inject_Z (Z.of_nat r)) 1)
        by (try lia; field; lra).
      rewrite (round_of_int (inject_Z 1 * 100) 100) by (try lia; reflexivity).
      apply round1_hundred.
  - split; [split; vm_compute; discriminate|]. split; [reflexivity|]. lia.
Qed.

End SuccessRateRange.

(** X25, witness: two incidents, both completed. *)
Lemma success_rate_in_range_witness :
  success_rate (incident_stats calendar
                  [stats_item "a" "completed" "" ""; stats_item "b" "completed" "" ""])
  = 100%Q.
Proof.
  apply (proj2 (proj2 (success_rate_in_range calendar
                         [stats_item "a" "completed" "" "";
                          stats_item "b" "completed" "" ""]))).
  - vm_compute. lia.
  - reflexivity.
Defined.

(** * Listing incidents *)

Section Listing.

Local Open Scope list_scope.

Lemma ltb_leb (a b : string) : String.ltb a b = true → String.leb a b = true.
Proof.
  unfold String.ltb, String.leb. destruct (String.compare a b); congruence.
Qed.

Lemma not_ltb_leb (a b : string) : String.ltb a b = false → String.leb b a = true.
Proof.
  unfold String.ltb, String.leb. rewrite (String.compare_antisym a b).
  destruct (String.compare b a); simpl; congruence.
Qed.

Lemma insert_desc_perm (x : Item.t) (l : list Item.t) : insert_desc x l ≡ₚ x :: l.
Proof.
  induction l as [|y l IH]; [reflexivity|]. simpl.
  destruct (String.ltb (created_key x) (created_key y)); [|reflexivity].
  rewrite IH. apply Permutation_swap.
Qed.

Lemma insert_desc_sorted (x : Item.t) (l : list Item.t) :
  Sorted newer_first l → Sorted newer_first (insert_desc x l).
Proof.
  induction 1 as [|y l Hsorted IH Hhd]; [repeat constructor|]. simpl.
  destruct (String.ltb (created_key x) (created_key y)) eqn:Hlt.
  - constructor; [exact IH|].
    destruct l as [|z l]; simpl.
    + constructor. now apply ltb_leb.
    + destruct (String.ltb (created_key x) (created_key z)).
      * inversion Hhd. now constructor.
      * constructor. now apply ltb_leb.
  - constructor; [now constructor|]. constructor. now apply not_ltb_leb.
Qed.

Lemma sort_created_desc_perm (l : list Item.t) : sort_created_desc l ≡ₚ l.
Proof.
  induction l as [|x l IH]; [reflexivity|]. simpl.
  rewrite insert_desc_perm. now rewrite IH.
Qed.

Lemma sort_created_desc_sorted (l : list Item.t) :
  Sorted newer_first (sort_created_desc l).
Proof.
  induction l as [|x l IH]; [constructor|]. simpl. now apply insert_desc_sorted.
Qed.

(** X19.  [get_incidents] changes nothing and returns the incidents of the
    table, each one once, ordered by creation time, latest first (an
    incident without a creation time sorting as the empty string); with a
    non-empty status filter it returns exactly those whose status is the
    given one, and with an empty or absent filter all of them. *)
Theorem get_incidents_lists (status : option string) (w : world) :
  ∃ items,
    get_incidents status w = (Ok items, w)
    ∧ Sorted newer_first items
    ∧ (Py.truthy_opt status = false → items ≡ₚ snd <$> map_to_list (table w))
    ∧ (∀ s, status = Some s → s ≠ "" →
         items ≡ₚ List.filter (status_is s) (snd <$> map_to_list (table w))
         ∧ ∀ i, i ∈ items ↔ (∃ id, table w !! id = Some i) ∧ Item.status i = Some s).
Proof.
  eexists. split; [reflexivity|]. split; [apply sort_created_desc_sorted|]. split.
  - intros ->. apply sort_created_desc_perm.
  - intros s -> Hne.
    assert (Htruthy : Py.truthy_opt (Some s) = true)
      by (destruct s; [congruence|reflexivity]).
    rewrite Htruthy. simpl default. split; [apply sort_created_desc_perm|].
    intros i. rewrite sort_created_desc_perm.
    rewrite list_elem_of_In, List.filter_In, <- list_elem_of_In.
    rewrite list_elem_of_fmap. unfold status_is. split.
    + intros [[[id it] [-> Hin]] Hst]. apply elem_of_map_to_list in Hin. split; [eauto|].
      simpl in *. destruct (Item.status it) as [s'|]; [|discriminate].
      apply String.eqb_eq in Hst. now subst.
    + intros [[id Hid] Hst]. split.
      * exists (id, i). split; [reflexivity|]. now apply elem_of_map_to_list.
      * rewrite Hst. apply String.eqb_refl.
Qed.

End Listing.

(** X19, witness: the completed incidents of a table of three. *)
Lemma get_incidents_lists_witness :
  ∃ items,
    get_incidents (Some "completed") busy_desk = (Ok items, busy_desk)
    ∧ ∀ i, i ∈ items ↔ (∃ id, table busy_desk !! id = Some i)
                       ∧ Item.status i = Some "completed".
Proof.
  destruct (get_incidents_lists (Some "completed") busy_desk) as [items [Heq [_ [_ H]]]].
  exists items. split; [exact Heq|].
  exact (proj2 (H "completed" eq_refl ltac:(discriminate))).
Defined.

(** The three incidents, latest first, and the completed ones among
    them. *)
Example incidents_latest_first :
  (Item.incident_id <$> default [] (match fst (get_incidents None busy_desk) with
                                    | Ok l => Some l | Raise _ => None end))
  = ["i2"; "i3"; "i1"]
  ∧ (Item.incident_id <$>
       default [] (match fst (get_incidents (Some "completed") busy_desk) with
                   | Ok l => Some l | Raise _ => None end))
    = ["i3"; "i1"].
Proof. vm_compute. split; reflexivity. Qed.

(** * Chaos scenarios *)

Section ChaosTrigger.

Variable B : backend.

Local Open Scope list_scope.

Lemma filter_head {A} (p : A → bool) (l : list A) (x : A) (rest : list A) :
  List.filter p l = x :: rest →
  ∃ before after,
    l = before ++ x :: after ∧ Forall (fun y => p y = false) before ∧ p x = true.
Proof.
  induction l as [|y l IH]; [discriminate|]. simpl.
  destruct (p y) eqn:Hy.
  - intros [= -> _]. exists [], l. repeat split; [constructor | exact Hy].
  - intros Heq. destruct (IH Heq) as [before [after [-> [Hbefore Hx]]]].
    exists (y :: before), after. repeat split; [now constructor | exact Hx].
Qed.

Lemma filter_none {A} (p : A → bool) (l : list A) :
  Forall (fun y => p y = false) l → List.filter p l = [].
Proof.
  induction 1 as [|y l Hy _ IH]; [reflexivity|]. simpl. now rewrite Hy.
Qed.

Lemma valid_mode_In (mode : string) :
  existsb (String.eqb mode) valid_modes = true ↔ In mode valid_modes.
Proof.
  rewrite existsb_exists. split.
  - intros [m [Hin Heq]]. apply String.eqb_eq in Heq. now subst.
  - intros Hin. exists mode. split; [exact Hin | apply String.eqb_refl].
Qed.

(** X20.  When [trigger_chaos] succeeds, the mode is one of the three
    valid ones, and exactly one command has been sent: the chaos script
    with that mode, to the first instance in state [InService] of the
    first group that the lookup of [sre-demo-asg] returned; the response
    carries that instance, the mode and the command id that the send
    returned, and the table is as it was. *)
Theorem chaos_hits_first_in_service (mode : string) (w w' : world)
    (resp : chaos_response) :
  trigger_chaos B mode w = (Ok resp, w') →
  In mode valid_modes
  ∧ ∃ g gs before i after,
      describe_auto_scaling_groups B (tick w) ASG_NAME = Answer (g :: gs)
      ∧ Instances g = before ++ i :: after
      ∧ Forall (fun j => LifecycleState j ≠ "InService") before
      ∧ LifecycleState i = "InService"
      ∧ send_command B (S (tick w)) (InstanceId i) [JStr (chaos_command mode)]
        = Answer (chaos_command_id resp)
      ∧ chaos_status resp = "triggered"
      ∧ chaos_instance_id resp = InstanceId i
      ∧ chaos_mode resp = mode
      ∧ trace w' = SendCommand (InstanceId i) [JStr (chaos_command mode)]
                   :: DescribeAutoScalingGroups ASG_NAME :: trace w
      ∧ table w' = table w.
Proof.
  unfold trigger_chaos.
  destruct (existsb (String.eqb mode) valid_modes) eqn:Hmode; [|discriminate].
  apply valid_mode_In in Hmode. cbn [negb]. cbv iota.
  unfold bind at 1. unfold ask at 1. cbv beta iota.
  destruct (describe_auto_scaling_groups B (tick w) ASG_NAME) as [[|g gs]|e] eqn:Hasg;
    [discriminate| |discriminate].
  destruct (List.filter in_service (Instances g)) as [|i rest] eqn:Hfilter;
    [discriminate|].
  unfold bind, ask, ret, raise. cbn [tick table trace tasks].
  destruct (send_command B (S (tick w)) (InstanceId i) [JStr (chaos_command mode)])
    as [command_id|e] eqn:Hsend; [|discriminate].
  intros [= <- <-]. split; [exact Hmode|].
  destruct (filter_head _ _ _ _ Hfilter) as [before [after [Heq [Hbefore Hi]]]].
  exists g, gs, before, i, after. cbn.
  repeat split; try assumption.
  - eapply Forall_impl; [exact Hbefore|]. intros j Hj Heqj. simpl in Hj.
    unfold in_service in Hj. rewrite Heqj in Hj. discriminate.
  - now apply String.eqb_eq.
Qed.

(** X21.  What [trigger_chaos] refuses, and how: a mode that is not one of
    the three is answered with 400 and nothing is asked or changed; a
    first group without an instance in state [InService], with 400, and a
    lookup that returns no group at all, with 500, in both cases without
    a command being sent. *)
Theorem chaos_refusals (mode : string) (w : world) :
  (¬ In mode valid_modes →
   trigger_chaos B mode w
   = (Raise (HTTPException 400
               "Invalid mode. Choose from: ['disk-fill', 'nginx-crash', 'oom']"), w))
  ∧ (In mode valid_modes →
     ∀ g gs,
       describe_auto_scaling_groups B (tick w) ASG_NAME = Answer (g :: gs) →
       Forall (fun j => LifecycleState j ≠ "InService") (Instances g) →
       fst (trigger_chaos B mode w) = Raise (HTTPException 400 "No in-service instances")
       ∧ trace (snd (trigger_chaos B mode w))
         = DescribeAutoScalingGroups ASG_NAME :: trace w)
  ∧ (In mode valid_modes →
     describe_auto_scaling_groups B (tick w) ASG_NAME = Answer [] →
     fst (trigger_chaos B mode w) = Raise (HTTPException 500 "list index out of range")
     ∧ trace (snd (trigger_chaos B mode w))
       = DescribeAutoScalingGroups ASG_NAME :: trace w).
Proof.
  unfold trigger_chaos. split; [|split].
  - intros Hmode.
    destruct (existsb (String.eqb mode) valid_modes) eqn:Hex; [|reflexivity].
    apply valid_mode_In in Hex. contradiction.
  - intros Hmode g gs Hasg Hnone. apply valid_mode_In in Hmode. rewrite Hmode.
    cbn [negb]. cbv iota. unfold bind at 1 3. unfold ask at 1 3. cbv beta iota.
    rewrite Hasg. rewrite filter_none; [split; reflexivity|].
    eapply Forall_impl; [exact Hnone|]. intros j Hj. simpl.
    unfold in_service. now apply String.eqb_neq.
  - intros Hmode Hasg. apply valid_mode_In in Hmode. rewrite Hmode.
    cbn [negb]. cbv iota. unfold bind at 1 3. unfold ask at 1 3. cbv beta iota.
    rewrite Hasg. split; reflexivity.
Qed.

End ChaosTrigger.

(** X20, witness: the first of two hosts in service gets the command. *)
Lemma chaos_hits_first_in_service_witness :
  In "oom" valid_modes
  ∧ ∃ g gs before i after,
      describe_auto_scaling_groups wide_fleet 0 ASG_NAME = Answer (g :: gs)
      ∧ Instances g = (before ++ i :: after)%list
      ∧ Forall (fun j => LifecycleState j ≠ "InService") before
      ∧ LifecycleState i = "InService"
      ∧ send_command wide_fleet 1 (InstanceId i) [JStr (chaos_command "oom")]
        = Answer "cmd-1"
      ∧ "triggered" = "triggered"
      ∧ "i-1" = InstanceId i
      ∧ "oom" = "oom"
      ∧ trace (snd (trigger_chaos wide_fleet "oom" empty_world))
        = [SendCommand (InstanceId i) [JStr (chaos_command "oom")];
           DescribeAutoScalingGroups ASG_NAME]
      ∧ table (snd (trigger_chaos wide_fleet "oom" empty_world)) = ∅.
Proof.
  exact (chaos_hits_first_in_service wide_fleet "oom" empty_world
           (snd (trigger_chaos wide_fleet "oom" empty_world))
           {| chaos_status := "triggered"; chaos_instance_id := "i-1";
              chaos_mode := "oom"; chaos_command_id := "cmd-1" |} eq_refl).
Defined.

(** X21, witness: the script's own mode name is not one of the
    dashboard's; a group that is starting up; an account without the
    group. *)
Lemma chaos_refusals_witness :
  trigger_chaos wide_fleet "kill-nginx" empty_world
  = (Raise (HTTPException 400
              "Invalid mode. Choose from: ['disk-fill', 'nginx-crash', 'oom']"),
     empty_world)
  ∧ fst (trigger_chaos idle_fleet "oom" empty_world)
    = Raise (HTTPException 400 "No in-service instances")
  ∧ fst (trigger_chaos no_fleet "oom" empty_world)
    = Raise (HTTPException 500 "list index out of range").
Proof.
  split; [|split].
  - apply (proj1 (chaos_refusals wide_fleet "kill-nginx" empty_world)).
    intros [H|[H|[H|[]]]]; discriminate H.
  - refine (proj1 (proj1 (proj2 (chaos_refusals idle_fleet "oom" empty_world))
                     _ _ _ eq_refl _)).
    + right. right. left. reflexivity.
    + repeat constructor; discriminate.
  - refine (proj1 (proj2 (proj2 (chaos_refusals no_fleet "oom" empty_world)) _ eq_refl)).
    right. right. left. reflexivity.
Defined.

Section ChaosScript.

(** X22.  The chaos script runs a shell command only as root and only for
    one of its three modes, and then exactly one: [stress-ng] for [oom],
    a [dd] into [/var/log/garbage.log] for [disk-fill], stopping nginx for
    [kill-nginx]. Without a mode or with another one it exits with 2, and
    with a mode of its own but not as root, with 1. *)
Theorem chaos_script_runs_one_command (mode : option string) (euid : Z) :
  match Chaos.main mode euid with
  | Chaos.Ran commands =>
      euid = 0
      ∧ ((mode = Some "oom" ∧ commands = Chaos.trigger_oom)
         ∨ (mode = Some "disk-fill" ∧ commands = Chaos.trigger_disk_fill)
         ∨ (mode = Some "kill-nginx" ∧ commands = Chaos.kill_nginx))
      ∧ length commands = 1%nat
  | Chaos.Exit code =>
      (code = 2 ∧ ∀ m, mode = Some m → ¬ In m Chaos.choices)
      ∨ (code = 1 ∧ euid ≠ 0 ∧ ∃ m, mode = Some m ∧ In m Chaos.choices)
  end.
Proof.
  unfold Chaos.main. destruct mode as [m|]; [|left; split; [reflexivity|discriminate]].
  destruct (existsb (String.eqb m) Chaos.choices) eqn:Hex; cbn [negb]; cbv iota.
  - assert (Hin : In m Chaos.choices).
    { apply existsb_exists in Hex. destruct Hex as [m' [Hin Heq]].
      apply String.eqb_eq in Heq. now subst. }
    destruct (euid =? 0) eqn:Heuid; cbn [negb]; cbv iota.
    + apply Z.eqb_eq in Heuid.
      destruct Hin as [<-|[<-|[<-|[]]]]; cbn; (split; [exact Heuid|]); split;
        try reflexivity; auto.
    + apply Z.eqb_neq in Heuid. right. split; [reflexivity|]. split; [exact Heuid|].
      now exists m.
  - left. split; [reflexivity|]. intros m' [= <-] Hin.
    assert (Htrue : existsb (String.eqb m) Chaos.choices = true); [|congruence].
    apply existsb_exists. exists m. split; [exact Hin | apply String.eqb_refl].
Qed.

(** X23.  The dashboard and the chaos script do not accept the same
    modes. Of the dashboard's three, the script takes [disk-fill] and
    [oom] only: for [nginx-crash] the script, even as root, exits with 2
    and runs nothing, although [trigger_chaos] sends the command and
    answers [triggered]; and the script's [kill-nginx] is refused by the
    dashboard. *)
Theorem chaos_modes_disagree (B : backend) (mode : string) (w w' : world)
    (resp : chaos_response) :
  trigger_chaos B mode w = (Ok resp, w') →
  ((∃ command, Chaos.main (Some mode) 0 = Chaos.Ran [command]) ↔ mode ≠ "nginx-crash")
  ∧ (mode = "nginx-crash" → Chaos.main (Some mode) 0 = Chaos.Exit 2)
  ∧ mode ≠ "kill-nginx".
Proof.
  intros Hrun. unfold trigger_chaos in Hrun.
  destruct (existsb (String.eqb mode) valid_modes) eqn:Hmode; [|discriminate Hrun].
  clear Hrun. apply existsb_exists in Hmode. destruct Hmode as [m [Hin Heq]].
  apply String.eqb_eq in Heq. subst m.
  destruct Hin as [<-|[<-|[<-|[]]]]; (split; [|split]); try discriminate;
    try reflexivity; cbn.
  - split; [discriminate|]. intros _. eexists. reflexivity.
  - split; [intros [command H]; discriminate H | intros H; now contradiction H].
  - split; [discriminate|]. intros _. eexists. reflexivity.
Qed.

End ChaosScript.

(** X23, witness: the dashboard triggers [nginx-crash], and the script
    turns it down. *)
Lemma chaos_modes_disagree_witness :
  fst (trigger_chaos wide_fleet "nginx-crash" empty_world)
  = Ok {| chaos_status := "triggered"; chaos_instance_id := "i-1";
          chaos_mode := "nginx-crash"; chaos_command_id := "cmd-1" |}
  ∧ Chaos.main (Some "nginx-crash") 0 = Chaos.Exit 2.
Proof.
  split; [reflexivity|].
  exact (proj1 (proj2 (chaos_modes_disagree wide_fleet "nginx-crash" empty_world
                         (snd (trigger_chaos wide_fleet "nginx-crash" empty_world))
                         _ eq_refl)) eq_refl).
Defined.

(** * Rate limiting *)

Section RateLimiting.

Import RateLimit.

(** X24.  With the limiter enabled, [dispatch] answers no request: the
    name [time] stands for the module when it runs, so [now = time()]
    raises a [TypeError] before the store is looked at.  Whatever the
    limit, the window, the store and the requests, every request of a run
    ends in that exception, none is let through or refused with 429, and
    the store is the one before.  Requests are let through, unchecked
    and unrecorded, only when the limiter is disabled. *)
Theorem rate_limiter_raises_when_enabled (requests : list (string * Q)) (m : t) :
  serve requests m = ((fun _ => Raise TypeError) <$> requests, m)
  ∧ (∀ client clock, dispatch false client clock m = (Raise TypeError, m))
  ∧ (∀ client clock, dispatch true client clock m = (Ok Forwarded, m)).
Proof.
  split; [|split; reflexivity].
  induction requests as [|[ip clock] rest IH]; [reflexivity|].
  cbn [serve]. change (dispatch false (Some ip) clock m) with (@Raise verdict TypeError, m).
  cbv beta iota. rewrite IH. reflexivity.
Qed.

End RateLimiting.

(** Three requests in a second and one a minute later, with two a minute
    allowed: none gets an answer of the limiter, and none is recorded. *)
Example burst_raises :
  RateLimit.serve burst (RateLimit.mk 2 60 ∅)
  = ([Raise TypeError; Raise TypeError; Raise TypeError; Raise TypeError],
     RateLimit.mk 2 60 ∅).
Proof. vm_compute. reflexivity. Qed.

(** * Unhealthy targets *)

Section UnhealthyTargets.

Variable B : backend.

(** X27.  [get_unhealthy_targets] never raises and leaves the table alone.
    When the health query fails it returns the empty list; otherwise it
    returns, in the order of the answer, the ids of the targets whose
    state is anything but [healthy] (so [draining] or [initial] count)
    and whose id starts with [i-]: targets registered by address are
    never returned. *)
Theorem unhealthy_targets_listed (tg_suffix region account_id : string) (w : world) :
  ∃ ids w',
    get_unhealthy_targets B tg_suffix region account_id w = (Ok ids, w')
    ∧ table w' = table w
    ∧ Forall (fun id => Py.startswith "i-" id = true) ids
    ∧ match describe_target_health B (tick w)
              ("arn:aws:elasticloadbalancing:" ++ region ++ ":" ++ account_id
               ++ ":" ++ tg_suffix) with
      | Fault _ => ids = []
      | Answer descriptions =>
          (∀ id, id ∈ ids ↔
                 ∃ d, d ∈ descriptions ∧ TargetId d = id
                      ∧ TargetHealthState d ≠ "healthy"
                      ∧ Py.startswith "i-" id = true)
          ∧ ∃ kept, sublist kept descriptions ∧ ids = TargetId <$> kept
      end.
Proof.
  unfold get_unhealthy_targets, bind, ask. cbv beta iota zeta.
  destruct (describe_target_health B (tick w) _) as [descriptions|e]; cbn.
  - do 2 eexists. split; [reflexivity|]. split; [reflexivity|].
    assert (Hmem : ∀ id,
               id ∈ TargetId <$> filter (fun d => unhealthy_instance d = true) descriptions
               ↔ ∃ d, d ∈ descriptions ∧ TargetId d = id
                      ∧ TargetHealthState d ≠ "healthy"
                      ∧ Py.startswith "i-" id = true).
    { intros id. rewrite list_elem_of_fmap. unfold unhealthy_instance. split.
      - intros [d [-> Hd]]. apply list_elem_of_filter in Hd. destruct Hd as [Hun Hin].
        apply andb_true_iff in Hun. destruct Hun as [Hstate Hid].
        exists d. repeat split; try assumption.
        apply negb_true_iff in Hstate. now apply String.eqb_neq.
      - intros [d [Hin [<- [Hstate Hid]]]]. exists d. split; [reflexivity|].
        apply list_elem_of_filter. split; [|exact Hin].
        apply andb_true_iff. split; [|exact Hid].
        apply negb_true_iff. now apply String.eqb_neq. }
    split; [|split; [exact Hmem|]].
    + apply Forall_forall. intros id Hid. apply Hmem in Hid.
      destruct Hid as [d [_ [_ [_ H]]]]. exact H.
    + eexists. split; [|reflexivity]. apply sublist_filter.
  - do 2 eexists. repeat split. constructor.
Qed.

End UnhealthyTargets.

(** The unhealthy targets of the fleet: the healthy host and the target
    registered by address are left out. *)
Example unhealthy_targets_of_the_fleet :
  fst (get_unhealthy_targets fleet "targetgroup/sre-demo-tg/42f85d5ede20f6d3"
         "ap-south-1" "123456789012" empty_world)
  = Ok ["i-9"].
Proof. vm_compute. reflexivity. Qed.

(** * The duration of a report *)

Section ReportDuration.

Variable L : library.

Lemma int_of_seconds (us : Z) :
  int_of_float (total_seconds us) = Z.quot us 1000000.
Proof.
  unfold int_of_float, total_seconds, Qdiv, Qmult, Qinv, inject_Z. simpl.
  now rewrite Z.mul_1_r.
Qed.

(** X28.  When both times of an incident parse and agree on carrying a
    time zone, the report's duration is [<mins>m <secs>s], where the
    whole seconds between the two, rounded towards zero, are
    [60 * mins + secs] with [secs] from 0 to 59. Nothing requires the
    update to be the later time: an update 30 seconds before the creation
    reads [-1m 30s]. *)
Theorem report_duration_minutes_seconds (created updated : string) (t1 t2 : datetime) :
  created ≠ "Unknown" → updated ≠ "Unknown" →
  parse_timestamp L created = Some t1 →
  parse_timestamp L updated = Some t2 →
  aware t1 = aware t2 →
  ∃ mins secs,
    report_duration L created updated
    = Py.str_of_Z mins ++ "m " ++ Py.str_of_Z secs ++ "s"
    ∧ 0 <= secs < 60
    ∧ 60 * mins + secs = Z.quot (micros t2 - micros t1) 1000000.
Proof.
  intros Hc Hu H1 H2 Haware. unfold report_duration.
  apply String.eqb_neq in Hc, Hu. rewrite Hc, Hu, H1, H2. cbn [negb andb].
  unfold datetime_sub. rewrite Haware, Bool.eqb_reflx. cbv zeta.
  rewrite int_of_seconds.
  exists (Z.quot (micros t2 - micros t1) 1000000 / 60),
         (Z.quot (micros t2 - micros t1) 1000000 mod 60).
  split; [reflexivity|]. split.
  - apply Z.mod_pos_bound. lia.
  - symmetry. apply Z.div_mod. lia.
Qed.

End ReportDuration.

(** X28, witness: an update 30 seconds before the creation. *)
Lemma report_duration_minutes_seconds_witness :
  ∃ mins secs,
    report_duration calendar "2024-01-15T10:05:30Z" "2024-01-15T10:05:00Z"
    = Py.str_of_Z mins ++ "m " ++ Py.str_of_Z secs ++ "s"
    ∧ 0 <= secs < 60
    ∧ 60 * mins + secs = -30.
Proof.
  apply (report_duration_minutes_seconds calendar
           "2024-01-15T10:05:30Z" "2024-01-15T10:05:00Z"
           {| aware := true; micros := 1705313130000000 |}
           {| aware := true; micros := 1705313100000000 |}).
  - discriminate.
  - discriminate.
  - vm_compute. reflexivity.
  - vm_compute. reflexivity.
  - reflexivity.
Defined.

(** The report of that incident, and of one resolved in five minutes;
    the statistics leave the first out of the mean. *)
Example report_durations :
  report_duration calendar "2024-01-15T10:05:30Z" "2024-01-15T10:05:00Z" = "-1m 30s"
  ∧ report_duration calendar "2024-01-15T10:00:00Z" "2024-01-15T10:05:00Z" = "5m 0s"
  ∧ report_duration calendar "Unknown" "2024-01-15T10:05:00Z" = "N/A"
  ∧ report_duration calendar "yesterday" "2024-01-15T10:05:00Z" = "N/A".
Proof. vm_compute. repeat split; reflexivity. Qed.
